(** * SwitchMatrixScanner: a shallow embedding of src/SwitchMatrixScanner.h

    The C++ class template [SwitchMatrixScanner<ROW_COUNT, COL_COUNT,
    EVENT_BUFFER_SIZE>] is embedded as a record of its data members and a
    small state-and-output monad over that record.  Fixed-width unsigned
    integers are [Z] with the wrap-around written out ([u8], [u16]); the C
    arrays are lists indexed with stdpp's lookup, and an access outside the
    array (undefined behaviour in C++) makes the computation fail.  The
    calls that leave the object (pinMode, digitalWrite, digitalRead and the
    two registered handlers) are recorded, in order, in an output trace. *)

From Stdlib Require Import ZArith Lia Ascii.
From stdpp Require Import base numbers list.

(** ** Fixed-width unsigned integers *)

Definition u8 (x : Z) : Z := (x mod 2 ^ 8)%Z.
Definition u16 (x : Z) : Z := (x mod 2 ^ 16)%Z.

(** ** The GPIO interface *)

(** Modelled from the spec: the Arduino core header that declares the pin
    levels and pin modes is not part of the repository.  The spec gives
    them as level ∈ {low, high} and mode ∈ {input-floating,
    input-with-pullup, output}. *)
Inductive Level : Type := LOW | HIGH.

Inductive PinMode : Type := INPUT | INPUT_PULLUP | OUTPUT.

Definition Level_eqb (a b : Level) : bool :=
  match a, b with
  | LOW, LOW | HIGH, HIGH => true
  | _, _ => false
  end.

(** ** The data model *)

Inductive SwitchState : Type := UNKNOWN | OPEN | CLOSED.

Definition SwitchState_eqb (a b : SwitchState) : bool :=
  match a, b with
  | UNKNOWN, UNKNOWN | OPEN, OPEN | CLOSED, CLOSED => true
  | _, _ => false
  end.

Record SwitchDef : Type := mkSwitchDef {
  scancode : Z;            (* uint16_t *)
  state : SwitchState;
  sample_buffer : Z        (* uint8_t *)
}.

Definition set_state (swtch : SwitchDef) (st : SwitchState) : SwitchDef :=
  {| scancode := scancode swtch; state := st;
     sample_buffer := sample_buffer swtch |}.

Definition set_sample_buffer (swtch : SwitchDef) (b : Z) : SwitchDef :=
  {| scancode := scancode swtch; state := state swtch;
     sample_buffer := u8 b |}.

(** A [SwitchHandler] is a plain function pointer: [None] is [nullptr],
    [Some f] the address of a function of the sketch. *)
Definition SwitchHandler : Type := option nat.

Record SwitchMatrixScanner : Type := mkScanner {
  m_switch_map : list (list SwitchDef);
  m_row_pins : list Z;
  m_col_pins : list Z;
  m_switchhandler_closed : SwitchHandler;
  m_switchhandler_open : SwitchHandler;
  m_column_input_type : PinMode;
  m_enable_software_debounce : bool;
  m_scancode_event_buffer_opened : list Z;
  m_scancode_event_buffer_opened_len : nat;
  m_scancode_event_buffer_closed : list Z;
  m_scancode_event_buffer_closed_len : nat
}.

Definition with_switch_map (s : SwitchMatrixScanner) (m : list (list SwitchDef))
  : SwitchMatrixScanner :=
  mkScanner m (m_row_pins s) (m_col_pins s) (m_switchhandler_closed s)
    (m_switchhandler_open s) (m_column_input_type s)
    (m_enable_software_debounce s) (m_scancode_event_buffer_opened s)
    (m_scancode_event_buffer_opened_len s) (m_scancode_event_buffer_closed s)
    (m_scancode_event_buffer_closed_len s).

Definition with_handlers (s : SwitchMatrixScanner) (hc ho : SwitchHandler)
  : SwitchMatrixScanner :=
  mkScanner (m_switch_map s) (m_row_pins s) (m_col_pins s) hc ho
    (m_column_input_type s) (m_enable_software_debounce s)
    (m_scancode_event_buffer_opened s) (m_scancode_event_buffer_opened_len s)
    (m_scancode_event_buffer_closed s) (m_scancode_event_buffer_closed_len s).

Definition with_opened (s : SwitchMatrixScanner) (buf : list Z) (len : nat)
  : SwitchMatrixScanner :=
  mkScanner (m_switch_map s) (m_row_pins s) (m_col_pins s)
    (m_switchhandler_closed s) (m_switchhandler_open s)
    (m_column_input_type s) (m_enable_software_debounce s)
    buf len
    (m_scancode_event_buffer_closed s) (m_scancode_event_buffer_closed_len s).

Definition with_closed (s : SwitchMatrixScanner) (buf : list Z) (len : nat)
  : SwitchMatrixScanner :=
  mkScanner (m_switch_map s) (m_row_pins s) (m_col_pins s)
    (m_switchhandler_closed s) (m_switchhandler_open s)
    (m_column_input_type s) (m_enable_software_debounce s)
    (m_scancode_event_buffer_opened s) (m_scancode_event_buffer_opened_len s)
    buf len.

(** ** What the scanner does to the outside world *)

Inductive Event : Type :=
| EvPinMode (pin : Z) (mode : PinMode)
| EvDigitalWrite (pin : Z) (level : Level)
| EvDigitalRead (pin : Z)
| EvSwitchClosed (handler : nat) (scancodes : list Z) (scancodes_len : nat)
| EvSwitchOpen (handler : nat) (scancodes : list Z) (scancodes_len : nat).

(** ** The monad: scanner state, failure on an out-of-range access, and the
    trace of outside calls *)

Definition M (A : Type) : Type :=
  SwitchMatrixScanner -> option (A * SwitchMatrixScanner * list Event).

Definition ret {A} (a : A) : M A := fun s => Some (a, s, []).

Definition bind {A B} (m : M A) (k : A -> M B) : M B := fun s =>
  match m s with
  | Some (a, s1, o1) =>
      match k a s1 with
      | Some (b, s2, o2) => Some (b, s2, o1 ++ o2)
      | None => None
      end
  | None => None
  end.

Definition gets {A} (f : SwitchMatrixScanner -> A) : M A :=
  fun s => Some (f s, s, []).

Definition modify (f : SwitchMatrixScanner -> SwitchMatrixScanner) : M unit :=
  fun s => Some (tt, f s, []).

Definition emit (e : Event) : M unit := fun s => Some (tt, s, [e]).

Definition lift {A} (o : option A) : M A := fun s =>
  match o with
  | Some a => Some (a, s, [])
  | None => None
  end.

Declare Scope scanner_scope.
Delimit Scope scanner_scope with scanner.
Notation "'do' x <- m ; k" := (bind m (fun x => k))
  (at level 10, x name, m at level 100, k at level 200) : scanner_scope.
Notation "'do' ' p <- m ; k" := (bind m (fun p => k))
  (at level 10, p pattern, m at level 100, k at level 200) : scanner_scope.
Notation "m >> k" := (bind m (fun _ => k))
  (at level 100, k at level 200, right associativity) : scanner_scope.
Local Open Scope scanner_scope.

(** [for (size_t i = lo; i < lo + count; ++i) body(i)] *)
Fixpoint for_loop (lo count : nat) (body : nat -> M unit) : M unit :=
  match count with
  | O => ret tt
  | S count' => body lo >> for_loop (S lo) count' body
  end.

(** [a[i] = v] on a C array: outside the array the behaviour is undefined,
    which the model turns into failure. *)
Definition array_store {A} (a : list A) (i : nat) (v : A) : option (list A) :=
  if decide (i < length a) then Some (<[i := v]> a) else None.

(** ** Software debouncing parameters (adjustable, then computed) *)

Definition DebounceSettleCount : Z := 4.
Definition DebounceSampleCount : Z := 3.
Definition DebounceSettleBits : Z := 3.
Definition DebounceSampleBits : Z := 5.

Definition DebounceSettleShift : Z := DebounceSampleBits.
Definition DebounceSettleMask : Z :=
  u8 (Z.shiftl (Z.shiftl 1 DebounceSettleBits - 1) DebounceSettleShift).
Definition DebounceSampleMask : Z :=
  u8 (Z.shiftl 1 DebounceSampleBits - 1).

Definition ScanCodeMax : Z := 65535.   (* 0xFFFF *)

(** ** Helpers *)

Definition is_closed (sample_mask sample_buffer : Z) : bool :=
  (Z.land sample_mask sample_buffer =? sample_mask)%Z.

Definition is_open (sample_mask sample_buffer : Z) : bool :=
  (Z.land sample_mask sample_buffer =? 0)%Z.

Definition reset_sample_count (swtch : SwitchDef) : Z :=
  u8 (Z.land DebounceSampleMask (sample_buffer swtch)).

Definition onSwitchClosed (scancodes : list Z) (scancodes_len : nat) : M unit :=
  do switchhandler_closed <- gets m_switchhandler_closed;
  match switchhandler_closed with
  | Some f => emit (EvSwitchClosed f scancodes scancodes_len)
  | None => ret tt
  end.

Definition onSwitchOpen (scancodes : list Z) (scancodes_len : nat) : M unit :=
  do switchhandler_open <- gets m_switchhandler_open;
  match switchhandler_open with
  | Some f => emit (EvSwitchOpen f scancodes scancodes_len)
  | None => ret tt
  end.

Definition flush_opened_events : M unit :=
  do len <- gets m_scancode_event_buffer_opened_len;
  if decide (0 < len) then
    do buf <- gets m_scancode_event_buffer_opened;
    onSwitchOpen buf len >>
    modify (fun s => with_opened s (m_scancode_event_buffer_opened s) 0)
  else ret tt.

Definition flush_closed_events : M unit :=
  do len <- gets m_scancode_event_buffer_closed_len;
  if decide (0 < len) then
    do buf <- gets m_scancode_event_buffer_closed;
    onSwitchClosed buf len >>
    modify (fun s => with_closed s (m_scancode_event_buffer_closed s) 0)
  else ret tt.

(** [handleSoftwareDebounce(SwitchDef& swtch, bool)]: the referenced record
    is an in-out value; [scan] stores the result back into the map. *)
Definition handleSoftwareDebounce (swtch : SwitchDef) (is_switch_pressed : bool)
  : SwitchDef :=
  let settle_count :=
    u8 (Z.shiftr (Z.land (sample_buffer swtch) DebounceSettleMask)
                 DebounceSettleShift) in
  if (settle_count <? DebounceSettleCount)%Z then
    (* We're still in the settle window. Increment the settle count. *)
    set_sample_buffer swtch
      (Z.lor (Z.shiftl (settle_count + 1) DebounceSettleShift)
             (Z.land DebounceSampleMask (sample_buffer swtch)))
  else
    set_sample_buffer swtch
      (Z.lor (Z.lor (Z.shiftl settle_count DebounceSettleShift)
                    (Z.land DebounceSampleMask
                            (Z.shiftl (sample_buffer swtch) 1)))
             (if is_switch_pressed then 1 else 0)).

(** [m_scancode_event_buffer_closed[m_scancode_event_buffer_closed_len++] = v] *)
Definition append_closed_event (v : Z) : M unit :=
  do buf <- gets m_scancode_event_buffer_closed;
  do len <- gets m_scancode_event_buffer_closed_len;
  do buf' <- lift (array_store buf len v);
  modify (fun s => with_closed s buf' (S len)).

(** [m_scancode_event_buffer_opened[m_scancode_event_buffer_opened_len++] = v] *)
Definition append_opened_event (v : Z) : M unit :=
  do buf <- gets m_scancode_event_buffer_opened;
  do len <- gets m_scancode_event_buffer_opened_len;
  do buf' <- lift (array_store buf len v);
  modify (fun s => with_opened s buf' (S len)).

Definition handleSwitchState (swtch : SwitchDef) : M (SwitchDef * bool) :=
  if is_closed DebounceSampleMask (sample_buffer swtch)
     && negb (SwitchState_eqb (state swtch) CLOSED)
  then
    let swtch := set_state swtch CLOSED in
    append_closed_event (scancode swtch) >>
    let swtch := set_sample_buffer swtch (reset_sample_count swtch) in
    ret (swtch, true)
  else if is_open DebounceSampleMask (sample_buffer swtch)
          && negb (SwitchState_eqb (state swtch) OPEN)
  then
    let oldState := state swtch in
    let swtch := set_state swtch OPEN in
    do pending_event <-
      (if SwitchState_eqb oldState UNKNOWN
       then append_opened_event (scancode swtch) >> ret true
       else ret false);
    let swtch := set_sample_buffer swtch (reset_sample_count swtch) in
    ret (swtch, pending_event)
  else ret (swtch, false).

(** [m_switch_map[r][c]] read and written through the reference [swtch]. *)
Definition load_switch (r c : nat) : M SwitchDef :=
  do map <- gets m_switch_map;
  lift (row ← map !! r; row !! c).

Definition store_switch (r c : nat) (swtch : SwitchDef) : M unit :=
  do map <- gets m_switch_map;
  do row <- lift (map !! r);
  do row' <- lift (array_store row c swtch);
  modify (fun s => with_switch_map s (<[r := row']> map)).

Section Scanner.

(** The template parameters.  [size_t] arithmetic on them is unbounded
    here; the [static_assert]s of the class ([ROW_COUNT > 0],
    [COL_COUNT > 0], [EVENT_BUFFER_SIZE > 0],
    [ROW_COUNT * COL_COUNT < ScanCodeMax - 1]) are premises of the theorems
    that need them. *)
Variables ROW_COUNT COL_COUNT EVENT_BUFFER_SIZE : nat.

(** The body of the column loop of [scan], for row [r] and column [c];
    [value] is what [digitalRead] returns for this read. *)
Definition scan_cell (r c : nat) (value : Level) : M unit :=
  do swtch <- load_switch r c;
  do colpin <- (do pins <- gets m_col_pins; lift (pins !! c));
  emit (EvDigitalRead colpin) >>
  let is_switch_pressed := Level_eqb value LOW in
  do enable_software_debounce <- gets m_enable_software_debounce;
  let swtch :=
    if enable_software_debounce
    then handleSoftwareDebounce swtch is_switch_pressed
    else set_sample_buffer swtch (if is_switch_pressed then 255 else 0) in
  do '(swtch, pending_event) <- handleSwitchState swtch;
  store_switch r c swtch >>
  if pending_event : bool then
    (do len <- gets m_scancode_event_buffer_closed_len;
     if decide (len = EVENT_BUFFER_SIZE) then flush_closed_events
     else ret tt) >>
    (do len <- gets m_scancode_event_buffer_opened_len;
     if decide (len = EVENT_BUFFER_SIZE) then flush_opened_events
     else ret tt)
  else ret tt.

(** The body of the row loop of [scan]. *)
Definition scan_row (digitalRead : nat -> nat -> Level) (r : nat) : M unit :=
  do rowpin <- (do pins <- gets m_row_pins; lift (pins !! r));
  emit (EvPinMode rowpin OUTPUT) >>
  emit (EvDigitalWrite rowpin LOW) >>
  for_loop 0 COL_COUNT (fun c => scan_cell r c (digitalRead r c)) >>
  emit (EvPinMode rowpin INPUT).

(** The row loop of [scan]: everything before the two final flushes. *)
Definition scan_rows (digitalRead : nat -> nat -> Level) : M unit :=
  for_loop 0 ROW_COUNT (scan_row digitalRead).

(** [scan()].  [digitalRead r c] is the level the hardware returns to the
    read of column [c] issued while row [r] is driven low. *)
Definition scan (digitalRead : nat -> nat -> Level) : M unit :=
  scan_rows digitalRead >>
  flush_closed_events >>
  flush_opened_events.

Definition setup (switchclosed_handler switchopen_handler : SwitchHandler)
  : M unit :=
  modify (fun s => with_handlers s switchclosed_handler switchopen_handler) >>
  for_loop 0 ROW_COUNT (fun r =>
    do pin <- (do pins <- gets m_row_pins; lift (pins !! r));
    emit (EvPinMode pin INPUT)) >>
  for_loop 0 COL_COUNT (fun c =>
    do pin <- (do pins <- gets m_col_pins; lift (pins !! c));
    do column_input_type <- gets m_column_input_type;
    emit (EvPinMode pin column_input_type)).

Definition isSwitchClosed (scancode : Z) : M bool :=
  if (scancode =? 0)%Z then ret false
  else
    let scanindex := u16 (scancode - 1) in
    if (Z.of_nat (ROW_COUNT * COL_COUNT) <=? scanindex)%Z then ret false
    else
      let row := u16 (scanindex / Z.of_nat COL_COUNT) in
      let col := u16 (scanindex - row * Z.of_nat COL_COUNT) in
      do swtch <- load_switch (Z.to_nat row) (Z.to_nat col);
      ret (SwitchState_eqb (state swtch) CLOSED).

(** The constructor.  [m_switch_map()] value-initialises every record;
    the nested loops then assign the records while the local [scancode]
    counts up. *)
Definition construct_cell (r c : nat) (st : list (list SwitchDef) * Z)
  : list (list SwitchDef) * Z :=
  let '(map, scancode) := st in
  (alter (fun row => <[c := mkSwitchDef scancode UNKNOWN 0]> row) r map,
   u16 (scancode + 1)).

Definition construct (row_pins column_pins : list Z)
    (enable_pullups enable_software_debounce : bool) : SwitchMatrixScanner :=
  let map0 := replicate ROW_COUNT (replicate COL_COUNT (mkSwitchDef 0 UNKNOWN 0)) in
  let '(map, _) :=
    foldl (fun st r =>
             foldl (fun st c => construct_cell r c st) st (seq 0 COL_COUNT))
          (map0, 1%Z) (seq 0 ROW_COUNT) in
  {| m_switch_map := map;
     m_row_pins := take ROW_COUNT row_pins;
     m_col_pins := take COL_COUNT column_pins;
     m_switchhandler_closed := None;
     m_switchhandler_open := None;
     m_column_input_type := if enable_pullups then INPUT_PULLUP else INPUT;
     m_enable_software_debounce := enable_software_debounce;
     m_scancode_event_buffer_opened := replicate EVENT_BUFFER_SIZE 0%Z;
     m_scancode_event_buffer_opened_len := 0;
     m_scancode_event_buffer_closed := replicate EVENT_BUFFER_SIZE 0%Z;
     m_scancode_event_buffer_closed_len := 0 |}.


(** ** Pure readings of one cell's share of a pass

    [sample_switch] is the sampling step of [scan_cell], [closes] and
    [opens] are the guards of the two branches of [handleSwitchState],
    and [latch] is what that function leaves in the referenced record. *)

Definition sample_switch (debounce : bool) (value : Level) (swtch : SwitchDef)
  : SwitchDef :=
  let is_switch_pressed := Level_eqb value LOW in
  if debounce then handleSoftwareDebounce swtch is_switch_pressed
  else set_sample_buffer swtch (if is_switch_pressed then 255 else 0).

Definition closes (swtch : SwitchDef) : bool :=
  is_closed DebounceSampleMask (sample_buffer swtch)
  && negb (SwitchState_eqb (state swtch) CLOSED).

Definition opens (swtch : SwitchDef) : bool :=
  negb (closes swtch)
  && (is_open DebounceSampleMask (sample_buffer swtch)
      && negb (SwitchState_eqb (state swtch) OPEN)).

(** The open transitions for which the code queues a scancode. *)
Definition opens_queued (swtch : SwitchDef) : bool :=
  opens swtch && SwitchState_eqb (state swtch) UNKNOWN.

Definition latch (swtch : SwitchDef) : SwitchDef :=
  if closes swtch then
    let swtch := set_state swtch CLOSED in
    set_sample_buffer swtch (reset_sample_count swtch)
  else if opens swtch then
    let swtch := set_state swtch OPEN in
    set_sample_buffer swtch (reset_sample_count swtch)
  else swtch.

Definition cell_pass (debounce : bool) (value : Level) (swtch : SwitchDef)
  : SwitchDef :=
  latch (sample_switch debounce value swtch).

(** The settle counter and the sample window packed in [sample_buffer]. *)
Definition settle_counter (b : Z) : Z :=
  Z.shiftr (Z.land b DebounceSettleMask) DebounceSettleShift.

Definition sample_window (b : Z) : Z := Z.land DebounceSampleMask b.

Definition cell_at (s : SwitchMatrixScanner) (r c : nat) : option SwitchDef :=
  row ← m_switch_map s !! r; row !! c.

(** What the array types of the class guarantee about the data members. *)
Definition shape (s : SwitchMatrixScanner) : Prop :=
  length (m_switch_map s) = ROW_COUNT
  /\ Forall (fun row => length row = COL_COUNT) (m_switch_map s)
  /\ length (m_row_pins s) = ROW_COUNT
  /\ length (m_col_pins s) = COL_COUNT
  /\ length (m_scancode_event_buffer_opened s) = EVENT_BUFFER_SIZE
  /\ length (m_scancode_event_buffer_closed s) = EVENT_BUFFER_SIZE.

(** Between two calls of the public interface both event buffers are
    empty. *)
Definition idle (s : SwitchMatrixScanner) : Prop :=
  m_scancode_event_buffer_closed_len s = 0
  /\ m_scancode_event_buffer_opened_len s = 0.

(** The members that [scan] never writes. *)
Definition same_config (s s' : SwitchMatrixScanner) : Prop :=
  m_row_pins s' = m_row_pins s
  /\ m_col_pins s' = m_col_pins s
  /\ m_switchhandler_closed s' = m_switchhandler_closed s
  /\ m_switchhandler_open s' = m_switchhandler_open s
  /\ m_column_input_type s' = m_column_input_type s
  /\ m_enable_software_debounce s' = m_enable_software_debounce s.

(** The handler invocation made by [onSwitchClosed] / [onSwitchOpen]. *)
Definition handler_call (h : SwitchHandler)
    (mk : nat -> list Z -> nat -> Event) (buf : list Z) (len : nat)
  : list Event :=
  match h with Some f => [mk f buf len] | None => [] end.

(** One buffer's share of [scan_cell]: the append in [handleSwitchState]
    followed by the capacity check of [scan]. *)
Definition enqueue (h : SwitchHandler) (mk : nat -> list Z -> nat -> Event)
    (queued : bool) (v : Z) (buf : list Z) (len : nat)
  : list Z * nat * list Event :=
  if queued then
    let buf' := <[len := v]> buf in
    if decide (S len = EVENT_BUFFER_SIZE) then
      (buf', 0, match h with Some f => [mk f buf' (S len)] | None => [] end)
    else (buf', S len, [])
  else (buf, len, []).

(** ** Reading the trace and the pass *)

(** The (array, count) pairs the handlers were called with. *)
Definition closed_call (e : Event) : option (list Z * nat) :=
  match e with EvSwitchClosed _ buf n => Some (buf, n) | _ => None end.

Definition opened_call (e : Event) : option (list Z * nat) :=
  match e with EvSwitchOpen _ buf n => Some (buf, n) | _ => None end.

Definition closed_calls (out : list Event) : list (list Z * nat) :=
  omap closed_call out.

Definition opened_calls (out : list Event) : list (list Z * nat) :=
  omap opened_call out.

(** The scancodes a handler is told to read: the first [count] entries. *)
Definition payload (call : list Z * nat) : list Z := take call.2 call.1.

Definition pending_closed (s : SwitchMatrixScanner) : list Z :=
  take (m_scancode_event_buffer_closed_len s)
       (m_scancode_event_buffer_closed s).

Definition pending_opened (s : SwitchMatrixScanner) : list Z :=
  take (m_scancode_event_buffer_opened_len s)
       (m_scancode_event_buffer_opened s).

(** The scancodes of the cells of a row, and of the whole map in scan
    order, whose sampled record satisfies [q]; with [q := closes] these are
    the cells that close in the pass, with [q := opens_queued] the cells
    whose opening is queued. *)
Definition row_events (q : SwitchDef -> bool) (debounce : bool)
    (values : nat -> Level) (row : list SwitchDef) : list Z :=
  concat (imap (fun c swtch =>
                  if q (sample_switch debounce (values c) swtch)
                  then [scancode swtch] else []) row).

Definition pass_events (q : SwitchDef -> bool) (debounce : bool)
    (digitalRead : nat -> nat -> Level) (map : list (list SwitchDef))
  : list Z :=
  concat (imap (fun r row => row_events q debounce (digitalRead r) row) map).

(** The map a pass leaves behind. *)
Definition pass_row (debounce : bool) (values : nat -> Level)
    (row : list SwitchDef) : list SwitchDef :=
  imap (fun c swtch => cell_pass debounce (values c) swtch) row.

Definition pass_map (debounce : bool) (digitalRead : nat -> nat -> Level)
    (map : list (list SwitchDef)) : list (list SwitchDef) :=
  imap (fun r row => pass_row debounce (digitalRead r) row) map.

(** Invariants of the two loops of [scan]. *)
Definition ready (s : SwitchMatrixScanner) : Prop :=
  shape s
  /\ m_scancode_event_buffer_closed_len s < EVENT_BUFFER_SIZE
  /\ m_scancode_event_buffer_opened_len s < EVENT_BUFFER_SIZE.

Definition queue_inv (h : SwitchHandler) (calls : list (list Z * nat))
    (pend0 pend evs : list Z) : Prop :=
  Forall (fun call => call.2 = EVENT_BUFFER_SIZE
                      /\ length call.1 = EVENT_BUFFER_SIZE) calls
  /\ (is_Some h -> concat (payload <$> calls) ++ pend = pend0 ++ evs)
  /\ (h = None -> calls = []).

Definition row_inv (digitalRead : nat -> nat -> Level) (r : nat)
    (s0 : SwitchMatrixScanner) (row0 : list SwitchDef)
    (i : nat) (s : SwitchMatrixScanner) (out : list Event) : Prop :=
  let debounce := m_enable_software_debounce s0 in
  ready s /\ same_config s0 s
  /\ m_switch_map s =
       <[r := imap (fun c swtch =>
                      if decide (c < i)
                      then cell_pass debounce (digitalRead r c) swtch
                      else swtch) row0]> (m_switch_map s0)
  /\ queue_inv (m_switchhandler_closed s0) (closed_calls out)
       (pending_closed s0) (pending_closed s)
       (row_events closes debounce (digitalRead r) (take i row0))
  /\ queue_inv (m_switchhandler_open s0) (opened_calls out)
       (pending_opened s0) (pending_opened s)
       (row_events opens_queued debounce (digitalRead r) (take i row0)).

Definition rows_inv (digitalRead : nat -> nat -> Level)
    (s0 : SwitchMatrixScanner)
    (i : nat) (s : SwitchMatrixScanner) (out : list Event) : Prop :=
  let debounce := m_enable_software_debounce s0 in
  ready s /\ same_config s0 s
  /\ m_switch_map s =
       imap (fun r row =>
               if decide (r < i) then pass_row debounce (digitalRead r) row
               else row) (m_switch_map s0)
  /\ queue_inv (m_switchhandler_closed s0) (closed_calls out)
       (pending_closed s0) (pending_closed s)
       (pass_events closes debounce digitalRead (take i (m_switch_map s0)))
  /\ queue_inv (m_switchhandler_open s0) (opened_calls out)
       (pending_opened s0) (pending_opened s)
       (pass_events opens_queued debounce digitalRead
          (take i (m_switch_map s0))).

(** ** Definitions used by the statements and proofs below *)

(** The handler invocations of the two flushes that end a pass. *)
Definition end_calls (s : SwitchMatrixScanner) : list Event :=
  (if decide (0 < m_scancode_event_buffer_closed_len s)
   then handler_call (m_switchhandler_closed s) EvSwitchClosed
          (m_scancode_event_buffer_closed s)
          (m_scancode_event_buffer_closed_len s)
   else [])
  ++ (if decide (0 < m_scancode_event_buffer_opened_len s)
      then handler_call (m_switchhandler_open s) EvSwitchOpen
             (m_scancode_event_buffer_opened s)
             (m_scancode_event_buffer_opened_len s)
      else []).

(** The sample buffer that [handleSoftwareDebounce] computes depends on
    the old sample buffer and the new sample only. *)
Definition debounce_byte (b : Z) (is_switch_pressed : bool) : Z :=
  sample_buffer
    (handleSoftwareDebounce (mkSwitchDef 0 UNKNOWN b) is_switch_pressed).

Definition debounce_step_ok (pressed : bool) (b : Z) : bool :=
  let b' := debounce_byte b pressed in
  (if (settle_counter b <? DebounceSettleCount)%Z then
     (settle_counter b' =? settle_counter b + 1)%Z
     && (sample_window b' =? sample_window b)%Z
   else true)
  && (if (settle_counter b =? DebounceSettleCount)%Z then
        (settle_counter b' =? DebounceSettleCount)%Z
        && (sample_window b' =?
              (sample_window b * 2) mod 2 ^ DebounceSampleBits
              + Z.b2z pressed)%Z
        && Bool.eqb (Z.testbit (sample_window b') 0) pressed
        && forallb (fun i => Bool.eqb (Z.testbit (sample_window b') (i + 1))
                                      (Z.testbit (sample_window b) i))
                   [0; 1; 2; 3]%Z
      else true).

(** A row after the column loop has assigned its first [j] records,
    the counter having been [sc] at the start of the row. *)
Definition row_fill (sc : Z) (j : nat) (row : list SwitchDef)
  : list SwitchDef :=
  imap (fun c x => if decide (c < j)
                   then mkSwitchDef (u16 (sc + Z.of_nat c)) UNKNOWN 0
                   else x) row.

Inductive Op : Type :=
| OpSetup (switchclosed_handler switchopen_handler : SwitchHandler)
| OpScan (digitalRead : nat -> nat -> Level)
| OpIsSwitchClosed (scancode : Z).

Definition exec (op : Op) : M unit :=
  match op with
  | OpSetup hc ho => setup hc ho
  | OpScan digitalRead => scan digitalRead
  | OpIsSwitchClosed scancode => isSwitchClosed scancode >> ret tt
  end.

Fixpoint execs (ops : list Op) : M unit :=
  match ops with
  | [] => ret tt
  | op :: ops' => exec op >> execs ops'
  end.

(** Consecutive passes, one [digitalRead] behaviour per pass. *)
Definition scans (reads : list (nat -> nat -> Level)) : M unit :=
  execs (OpScan <$> reads).

(** The count argument of a handler invocation. *)
Definition call_count (e : Event) : option nat :=
  match e with
  | EvSwitchClosed _ _ n | EvSwitchOpen _ _ n => Some n
  | _ => None
  end.

Definition call_ok (e : Event) : Prop :=
  forall n, call_count e = Some n -> 1 <= n <= EVENT_BUFFER_SIZE.

(** [handleSwitchState] takes one of its two branches. *)
Definition transitions (swtch : SwitchDef) : bool :=
  closes swtch || opens swtch.

(** The record [j] passes after a transition: settle counter [j], sample
    window uniform in the direction of the latched state. *)
Definition settled_as (j : Z) (swtch : SwitchDef) : Prop :=
  (state swtch = CLOSED /\ sample_buffer swtch = (32 * j + 31)%Z)
  \/ (state swtch = OPEN /\ sample_buffer swtch = (32 * j)%Z).

(** Exactly two invocations for [EVENT_BUFFER_SIZE + 1] queued scancodes:
    [calls_mid] are those made by the row loop, [calls_end] those made by
    the flush that ends the pass. *)
Definition two_invocations (calls_mid calls_end : list (list Z * nat))
    (evs : list Z) : Prop :=
  exists buf1 buf2,
    calls_mid ++ calls_end = [(buf1, EVENT_BUFFER_SIZE); (buf2, 1)]
    /\ length buf1 = EVENT_BUFFER_SIZE /\ length buf2 = EVENT_BUFFER_SIZE
    /\ take EVENT_BUFFER_SIZE buf1 ++ take 1 buf2 = evs
    /\ (2 <= EVENT_BUFFER_SIZE ->
        calls_mid = [(buf1, EVENT_BUFFER_SIZE)] /\ calls_end = [(buf2, 1)])
    /\ (EVENT_BUFFER_SIZE = 1 ->
        calls_mid = [(buf1, 1); (buf2, 1)] /\ calls_end = []).

(** ** Definitions for the further properties *)

(** The calls on the GPIO interface in a trace. *)
Definition gpio_call (e : Event) : option Event :=
  match e with
  | EvPinMode _ _ | EvDigitalWrite _ _ | EvDigitalRead _ => Some e
  | _ => None
  end.

Definition gpio_calls (out : list Event) : list Event := omap gpio_call out.

(** What [scan] does on the pins for one row, and for all rows in turn. *)
Definition row_strobe (colpins : list Z) (rowpin : Z) : list Event :=
  [EvPinMode rowpin OUTPUT; EvDigitalWrite rowpin LOW]
  ++ (EvDigitalRead <$> colpins)
  ++ [EvPinMode rowpin INPUT].

Definition strobe_sequence (rowpins colpins : list Z) : list Event :=
  concat (row_strobe colpins <$> rowpins).

(** The records carry the row-major numbering of the constructor. *)
Definition numbered (s : SwitchMatrixScanner) : Prop :=
  forall r c swtch,
    cell_at s r c = Some swtch ->
    scancode swtch = Z.of_nat (r * COL_COUNT + c + 1).

(** A record after a run of passes that sampled [values] for it, and the
    samples that the passes [reads] give to the cell at row [r], column
    [c]. *)
Definition cell_samples (debounce : bool) (values : list Level)
    (swtch : SwitchDef) : SwitchDef :=
  foldl (fun sw value => cell_pass debounce value sw) swtch values.

Definition samples_at (r c : nat) (reads : list (nat -> nat -> Level))
  : list Level :=
  (fun digitalRead => digitalRead r c) <$> reads.

(** The same record under another scancode. *)
Definition with_scancode (sc : Z) (swtch : SwitchDef) : SwitchDef :=
  mkSwitchDef sc (state swtch) (sample_buffer swtch).

(** A [uint8_t] sample buffer, and one whose settle counter is saturated
    at most. *)
Definition is_byte (b : Z) : Prop := (0 <= b < 256)%Z.

Definition saturating (swtch : SwitchDef) : Prop :=
  is_byte (sample_buffer swtch)
  /\ (settle_counter (sample_buffer swtch) <= DebounceSettleCount)%Z.

(** A record is either still as constructed or already latched. *)
Definition fresh_or_latched (swtch : SwitchDef) : Prop :=
  state swtch <> UNKNOWN \/ sample_buffer swtch = 0%Z.

(** All sample sequences of a given length. *)
Fixpoint sample_sequences (n : nat) : list (list Level) :=
  match n with
  | O => [[]]
  | S n' => (cons LOW <$> sample_sequences n')
            ++ (cons HIGH <$> sample_sequences n')
  end.

Definition all_states : list SwitchState := [UNKNOWN; OPEN; CLOSED].

(** Checks that run over every value of a sample-buffer byte. *)
Definition hold_check (debounce : bool) (value : Level) (st : SwitchState)
    (avoid : Z) (b : Z) : bool :=
  (sample_window b =? avoid)%Z
  || (let swtch := mkSwitchDef 0 st b in
      let swtch' := cell_pass debounce value swtch in
      negb (transitions (sample_switch debounce value swtch))
      && SwitchState_eqb (state swtch') st
      && negb (sample_window (sample_buffer swtch') =? avoid)%Z
      && (0 <=? sample_buffer swtch')%Z && (sample_buffer swtch' <? 256)%Z).

Definition glitch_check (st : SwitchState) (full : Z) (b : Z) : bool :=
  negb (sample_window b =? full)%Z
  || forallb (fun values =>
                SwitchState_eqb
                  (state (cell_samples true values (mkSwitchDef 0 st b))) st)
             (sample_sequences 4 ++ sample_sequences 3
              ++ sample_sequences 2 ++ sample_sequences 1).

Definition saturating_check (value : Level) (b : Z) : bool :=
  negb (settle_counter b <=? DebounceSettleCount)%Z
  || forallb (fun st =>
                let b' := sample_buffer
                            (cell_pass true value (mkSwitchDef 0 st b)) in
                (0 <=? b')%Z && (b' <? 256)%Z
                && (settle_counter b' <=? DebounceSettleCount)%Z) all_states.

(** The invocations of one handler in a pass: flushes at capacity, then
    at most one flush of what is left at the end of the pass. *)
Definition batched_calls (calls : list (list Z * nat)) : Prop :=
  exists full rest,
    calls = full ++ rest
    /\ Forall (fun call => call.2 = EVENT_BUFFER_SIZE
                           /\ length call.1 = EVENT_BUFFER_SIZE) full
    /\ length rest <= 1
    /\ Forall (fun call => 0 < call.2 < EVENT_BUFFER_SIZE
                           /\ length call.1 = EVENT_BUFFER_SIZE) rest.

(** A handler invocation a sketch can rely on: the array has the declared
    size, the count is within it and positive, and every scancode to read
    is one of 1..ROW_COUNT*COL_COUNT. *)
Definition valid_call (call : list Z * nat) : Prop :=
  length call.1 = EVENT_BUFFER_SIZE
  /\ 1 <= call.2 <= EVENT_BUFFER_SIZE
  /\ forall x, In x (payload call) ->
       (1 <= x <= Z.of_nat (ROW_COUNT * COL_COUNT))%Z.

Definition valid_event (e : Event) : Prop :=
  forall call, closed_call e = Some call \/ opened_call e = Some call ->
               valid_call call.

(** The calls on the pins that [setup] makes. *)
Definition pin_setup (rowpins colpins : list Z) (column_input_type : PinMode)
  : list Event :=
  ((fun pin => EvPinMode pin INPUT) <$> rowpins)
  ++ ((fun pin => EvPinMode pin column_input_type) <$> colpins).

(** A handler invocation goes to the function registered for its kind. *)
Definition called_handler (hc ho : SwitchHandler) (e : Event) : Prop :=
  match e with
  | EvSwitchClosed f _ _ => hc = Some f
  | EvSwitchOpen f _ _ => ho = Some f
  | _ => True
  end.

(** The scancodes handed to each handler in a trace, in order. *)
Definition closed_scancodes (out : list Event) : list Z :=
  concat (payload <$> closed_calls out).

Definition opened_scancodes (out : list Event) : list Z :=
  concat (payload <$> opened_calls out).

(** The record that carries a scancode has left state UNKNOWN. *)
Definition latched (s : SwitchMatrixScanner) (x : Z) : Prop :=
  exists r c swtch,
    cell_at s r c = Some swtch /\ scancode swtch = x
    /\ state swtch <> UNKNOWN.

(** How often a record closes in a run of passes that sample [values]
    for it. *)
Fixpoint close_count (debounce : bool) (values : list Level)
    (swtch : SwitchDef) : nat :=
  match values with
  | [] => 0
  | value :: values' =>
      (if closes (sample_switch debounce value swtch) then 1 else 0)
      + close_count debounce values' (cell_pass debounce value swtch)
  end.

Definition press_check (debounce : bool) (st : SwitchState) (b : Z) : bool :=
  let swtch := mkSwitchDef 0 st b in
  let swtch' := cell_samples debounce (replicate 10 LOW) swtch in
  (close_count debounce (replicate 10 LOW) swtch =? 1)
  && SwitchState_eqb (state swtch') CLOSED
  && negb (sample_window (sample_buffer swtch') =? 0)%Z
  && (0 <=? sample_buffer swtch')%Z && (sample_buffer swtch' <? 256)%Z.



(** ** The example sketch, examples/Sparkfun_QWIIC_Keyboard_Explorer

    The constants [ROWS] and [COLS] of the sketch (2 and 7) are the
    template parameters [ROW_COUNT] and [COL_COUNT] of its scanner.  The
    calls of the sketch on [Keyboard] and [SerialUSB] are recorded in a
    trace; [SerialUSB.begin] and the pin mode of the mode switch, which
    touch neither the scanner nor [kbdMode], are left out. *)

Definition keymap : list ascii :=
  ["1"; "2"; "3"; "4"; "5"; "6"; "7"; "a"; "b"; "c"; "d"; "e"; "f"; "g"]%char.

Inductive SketchCall : Type :=
| KeyboardBegin
| KeyboardEnd
| KeyboardReleaseAll
| KeyboardPress (which : ascii)
| KeyboardRelease (which : ascii)
| SerialPrintKeyDown (which : ascii)   (* print(F("Key down: ")); println(which) *)
| SerialPrintKeyUp (which : ascii).    (* print(F("Key up: ")); println(which) *)

(** [keymap[scancodes[i] - 1]]: the [uint16_t] is promoted before the
    subtraction, so scancode 0 gives an index outside [keymap] whatever the
    width of [int]; reading outside either array is undefined behaviour
    and fails here. *)
Definition keymap_at (scancodes : list Z) (i : nat) : option ascii :=
  sc ← scancodes !! i;
  let index := (sc - 1)%Z in
  if (0 <=? index)%Z then keymap !! Z.to_nat index else None.

Definition onKeyUp (kbdMode : bool) (scancodes : list Z) (scancodes_len : nat)
  : option (list SketchCall) :=
  mapM (fun i =>
          which ← keymap_at scancodes i;
          Some (if kbdMode then KeyboardRelease which
                else SerialPrintKeyUp which))
       (seq 0 scancodes_len).

Definition onKeyDown (kbdMode : bool) (scancodes : list Z)
    (scancodes_len : nat) : option (list SketchCall) :=
  mapM (fun i =>
          which ← keymap_at scancodes i;
          Some (if kbdMode then KeyboardPress which
                else SerialPrintKeyDown which))
       (seq 0 scancodes_len).

(** The addresses of the two handlers of the sketch, and a call through a
    function pointer. *)
Definition onKeyDown_ptr : nat := 1.
Definition onKeyUp_ptr : nat := 2.

Definition call_handler (kbdMode : bool) (f : nat) (scancodes : list Z)
    (scancodes_len : nat) : option (list SketchCall) :=
  if decide (f = onKeyDown_ptr) then onKeyDown kbdMode scancodes scancodes_len
  else if decide (f = onKeyUp_ptr) then onKeyUp kbdMode scancodes scancodes_len
  else None.

(** What the handler invocations of a pass do in the sketch. *)
Definition run_handlers (kbdMode : bool) (out : list Event)
  : option (list SketchCall) :=
  calls ← mapM (fun e =>
                  match e with
                  | EvSwitchClosed f scancodes scancodes_len
                  | EvSwitchOpen f scancodes scancodes_len =>
                      call_handler kbdMode f scancodes scancodes_len
                  | _ => Some []
                  end) out;
  Some (concat calls).

(** [checkMode()]; [a3] is what [digitalRead(A3)] returns. *)
Definition checkMode (a3 : Level) (kbdMode : bool) : bool * list SketchCall :=
  if kbdMode then
    if Level_eqb a3 LOW then (false, [KeyboardReleaseAll; KeyboardEnd])
    else (true, [])
  else
    if Level_eqb a3 LOW then (false, [])
    else (true, [KeyboardBegin]).

(** [scanner.setup(onKeyDown, onKeyUp)] in [setup()]. *)
Definition sketch_setup : M unit :=
  setup (Some onKeyDown_ptr) (Some onKeyUp_ptr).

(** One iteration of [loop()]: [scanner.scan()], whose handler invocations
    run in the sketch with the current [kbdMode], then [checkMode()]. *)
Definition sketch_loop (digitalRead : nat -> nat -> Level) (a3 : Level)
    (st : SwitchMatrixScanner * bool)
  : option (SwitchMatrixScanner * bool * list SketchCall) :=
  '(_, s', out) ← scan digitalRead st.1;
  calls ← run_handlers st.2 out;
  let '(kbdMode', calls') := checkMode a3 st.2 in
  Some (s', kbdMode', calls ++ calls').

Fixpoint sketch_loops (inputs : list ((nat -> nat -> Level) * Level))
    (st : SwitchMatrixScanner * bool)
  : option (SwitchMatrixScanner * bool * list SketchCall) :=
  match inputs with
  | [] => Some (st, [])
  | (digitalRead, a3) :: inputs' =>
      '(s', kbdMode', calls) ← sketch_loop digitalRead a3 st;
      '(s'', kbdMode'', calls') ← sketch_loops inputs' (s', kbdMode');
      Some (s'', kbdMode'', calls ++ calls')
  end.

(** The sample taken [i] passes ago ([recent] lists the samples of one
    switch, the latest first) was [target]. *)
Definition sampled (target : Level) (recent : list Level) (i : nat) : bool :=
  match recent !! i with
  | Some value => Level_eqb value target
  | None => false
  end.

(** What the sample window of a debounced record says about the latest
    samples: a record as constructed has sample buffer 0; while an OPEN
    record settles its window is all-0, and afterwards bit [i] of the
    window is set only if the switch read pressed [i] passes ago; for a
    CLOSED record likewise with all-1, cleared bits and released. *)
Definition window_tracks (swtch : SwitchDef) (recent : list Level) : bool :=
  let b := sample_buffer swtch in
  (0 <=? b)%Z && (b <? 256)%Z
  && match state swtch with
     | UNKNOWN => (b =? 0)%Z
     | OPEN =>
         (if (settle_counter b <? DebounceSettleCount)%Z
          then (sample_window b =? 0)%Z
          else (settle_counter b =? DebounceSettleCount)%Z)
         && forallb (fun i => implb (Z.testbit (sample_window b) (Z.of_nat i))
                                    (sampled LOW recent i)) (seq 0 5)
     | CLOSED =>
         (if (settle_counter b <? DebounceSettleCount)%Z
          then (sample_window b =? DebounceSampleMask)%Z
          else (settle_counter b =? DebounceSettleCount)%Z)
         && forallb (fun i => implb (negb (Z.testbit (sample_window b)
                                             (Z.of_nat i)))
                                    (sampled HIGH recent i)) (seq 0 5)
     end.

Definition transition_check (st : SwitchState) (value : Level)
    (recent : list Level) (b : Z) : bool :=
  let swtch := mkSwitchDef 0 st b in
  let sampled_swtch := sample_switch true value swtch in
  implb (window_tracks swtch recent)
    (window_tracks (cell_pass true value swtch) (value :: recent)
     && implb (closes sampled_swtch)
          (forallb (sampled LOW (value :: recent)) (seq 0 5))
     && implb (opens sampled_swtch && SwitchState_eqb st CLOSED)
          (forallb (sampled HIGH (value :: recent)) (seq 0 5))).

Definition recent_samples : list (list Level) :=
  sample_sequences 0 ++ sample_sequences 1 ++ sample_sequences 2
  ++ sample_sequences 3 ++ sample_sequences 4 ++ sample_sequences 5.

(** ** Monad and cell-level lemmas *)

Lemma bind_Some {A B} (m : M A) (k : A -> M B) s a s1 o1 b s2 o2 :
  m s = Some (a, s1, o1) -> k a s1 = Some (b, s2, o2) ->
  bind m k s = Some (b, s2, o1 ++ o2).
Proof. intros Hm Hk. unfold bind. now rewrite Hm, Hk. Qed.

Lemma bind_inv {A B} (m : M A) (k : A -> M B) s b s2 o :
  bind m k s = Some (b, s2, o) ->
  exists a s1 o1 o2, m s = Some (a, s1, o1) /\ k a s1 = Some (b, s2, o2)
                     /\ o = o1 ++ o2.
Proof.
  unfold bind. destruct (m s) as [[[a s1] o1]|]; [|discriminate].
  destruct (k a s1) as [[[b' s2'] o2]|] eqn:Hk; [|discriminate].
  intros [= -> -> <-]. now exists a, s1, o1, o2.
Qed.

Lemma closes_opens_excl swtch : closes swtch = true -> opens swtch = false.
Proof. unfold opens. now intros ->. Qed.

Lemma handleSwitchState_spec swtch s :
  m_scancode_event_buffer_closed_len s
    < length (m_scancode_event_buffer_closed s) ->
  m_scancode_event_buffer_opened_len s
    < length (m_scancode_event_buffer_opened s) ->
  handleSwitchState swtch s =
    Some (latch swtch, closes swtch || opens_queued swtch,
          if closes swtch then
            with_closed s
              (<[m_scancode_event_buffer_closed_len s := scancode swtch]>
                 (m_scancode_event_buffer_closed s))
              (S (m_scancode_event_buffer_closed_len s))
          else if opens_queued swtch then
            with_opened s
              (<[m_scancode_event_buffer_opened_len s := scancode swtch]>
                 (m_scancode_event_buffer_opened s))
              (S (m_scancode_event_buffer_opened_len s))
          else s,
          []).
Proof.
  intros Hc Ho.
  unfold handleSwitchState, latch, opens_queued, opens, closes.
  destruct (is_closed DebounceSampleMask (sample_buffer swtch)
            && negb (SwitchState_eqb (state swtch) CLOSED)) eqn:Ecl.
  - unfold append_closed_event, bind, gets, lift, modify, ret, array_store.
    simpl. destruct (decide _) as [_|Hn]; [reflexivity | contradiction].
  - simpl.
    destruct (is_open DebounceSampleMask (sample_buffer swtch)
              && negb (SwitchState_eqb (state swtch) OPEN)) eqn:Eop;
      [|reflexivity].
    destruct (SwitchState_eqb (state swtch) UNKNOWN) eqn:Eun.
    + unfold append_opened_event, bind, gets, lift, modify, ret, array_store.
      simpl.
      destruct (decide _) as [_|Hn]; [reflexivity | contradiction].
    + reflexivity.
Qed.

(** The three [static_assert]s on the debouncing parameters hold. *)
Lemma debounce_static_asserts :
  (DebounceSettleCount <= Z.shiftl 1 DebounceSettleBits - 1)%Z
  /\ (DebounceSampleCount <= DebounceSampleBits)%Z
  /\ (DebounceSettleBits + DebounceSampleBits <= 8)%Z.
Proof. repeat split; discriminate. Qed.

(** An append that does not fail wrote inside the array, at the old count,
    and the new count does not exceed the capacity. *)
Lemma append_closed_event_in_range v s s' out :
  append_closed_event v s = Some (tt, s', out) ->
  m_scancode_event_buffer_closed_len s
    < length (m_scancode_event_buffer_closed s)
  /\ m_scancode_event_buffer_closed s'
     = <[m_scancode_event_buffer_closed_len s := v]>
         (m_scancode_event_buffer_closed s)
  /\ m_scancode_event_buffer_closed_len s'
     = S (m_scancode_event_buffer_closed_len s)
  /\ m_scancode_event_buffer_closed_len s'
     <= length (m_scancode_event_buffer_closed s').
Proof.
  unfold append_closed_event, bind, gets, lift, modify, array_store. simpl.
  destruct (decide _) as [Hlt|Hge]; [|discriminate].
  intros [= <- _]. simpl. rewrite length_insert. repeat split; lia.
Qed.

Lemma append_opened_event_in_range v s s' out :
  append_opened_event v s = Some (tt, s', out) ->
  m_scancode_event_buffer_opened_len s
    < length (m_scancode_event_buffer_opened s)
  /\ m_scancode_event_buffer_opened s'
     = <[m_scancode_event_buffer_opened_len s := v]>
         (m_scancode_event_buffer_opened s)
  /\ m_scancode_event_buffer_opened_len s'
     = S (m_scancode_event_buffer_opened_len s)
  /\ m_scancode_event_buffer_opened_len s'
     <= length (m_scancode_event_buffer_opened s').
Proof.
  unfold append_opened_event, bind, gets, lift, modify, array_store. simpl.
  destruct (decide _) as [Hlt|Hge]; [|discriminate].
  intros [= <- _]. simpl. rewrite length_insert. repeat split; lia.
Qed.

Lemma sample_switch_scancode debounce value swtch :
  scancode (sample_switch debounce value swtch) = scancode swtch.
Proof.
  unfold sample_switch, handleSoftwareDebounce.
  destruct debounce; [destruct (_ <? _)%Z|]; reflexivity.
Qed.

Lemma latch_scancode swtch : scancode (latch swtch) = scancode swtch.
Proof.
  unfold latch. destruct (closes swtch); [reflexivity|].
  destruct (opens swtch); reflexivity.
Qed.

Lemma flush_closed_events_spec s :
  flush_closed_events s =
    if decide (0 < m_scancode_event_buffer_closed_len s) then
      Some (tt, with_closed s (m_scancode_event_buffer_closed s) 0,
            handler_call (m_switchhandler_closed s) EvSwitchClosed
              (m_scancode_event_buffer_closed s)
              (m_scancode_event_buffer_closed_len s))
    else Some (tt, s, []).
Proof.
  unfold flush_closed_events, onSwitchClosed, bind, gets, modify, emit, ret.
  simpl. destruct (decide _); [|reflexivity].
  destruct (m_switchhandler_closed s); reflexivity.
Qed.

Lemma flush_opened_events_spec s :
  flush_opened_events s =
    if decide (0 < m_scancode_event_buffer_opened_len s) then
      Some (tt, with_opened s (m_scancode_event_buffer_opened s) 0,
            handler_call (m_switchhandler_open s) EvSwitchOpen
              (m_scancode_event_buffer_opened s)
              (m_scancode_event_buffer_opened_len s))
    else Some (tt, s, []).
Proof.
  unfold flush_opened_events, onSwitchOpen, bind, gets, modify, emit, ret.
  simpl. destruct (decide _); [|reflexivity].
  destruct (m_switchhandler_open s); reflexivity.
Qed.

Lemma scan_cell_spec r c value s row swtch colpin :
  m_switch_map s !! r = Some row ->
  row !! c = Some swtch ->
  m_col_pins s !! c = Some colpin ->
  length (m_scancode_event_buffer_closed s) = EVENT_BUFFER_SIZE ->
  length (m_scancode_event_buffer_opened s) = EVENT_BUFFER_SIZE ->
  m_scancode_event_buffer_closed_len s < EVENT_BUFFER_SIZE ->
  m_scancode_event_buffer_opened_len s < EVENT_BUFFER_SIZE ->
  let sampled := sample_switch (m_enable_software_debounce s) value swtch in
  let cl := enqueue (m_switchhandler_closed s) EvSwitchClosed
              (closes sampled) (scancode swtch)
              (m_scancode_event_buffer_closed s)
              (m_scancode_event_buffer_closed_len s) in
  let op := enqueue (m_switchhandler_open s) EvSwitchOpen
              (opens_queued sampled) (scancode swtch)
              (m_scancode_event_buffer_opened s)
              (m_scancode_event_buffer_opened_len s) in
  scan_cell r c value s =
    Some (tt,
          mkScanner (<[r := <[c := latch sampled]> row]> (m_switch_map s))
            (m_row_pins s) (m_col_pins s) (m_switchhandler_closed s)
            (m_switchhandler_open s) (m_column_input_type s)
            (m_enable_software_debounce s)
            op.1.1 op.1.2 cl.1.1 cl.1.2,
          EvDigitalRead colpin :: cl.2 ++ op.2).
Proof.
  intros Hrow Hsw Hpin Hcb Hob Hcl Hol sampled cl op.
  assert (Hc : c < length row) by (eapply lookup_lt_Some; eauto).
  unfold scan_cell, load_switch, store_switch, bind, gets, lift, emit,
    modify, ret.
  simpl. rewrite Hrow. simpl. rewrite Hsw, Hpin.
  change (if m_enable_software_debounce s
          then handleSoftwareDebounce swtch (Level_eqb value LOW)
          else set_sample_buffer swtch
                 (if Level_eqb value LOW then 255%Z else 0%Z))
    with sampled.
  rewrite handleSwitchState_spec by lia.
  assert (Hsc : scancode sampled = scancode swtch)
    by apply sample_switch_scancode.
  subst cl op. unfold enqueue. rewrite Hsc.
  destruct (closes sampled) eqn:Ecl.
  - assert (Eoq : opens_queued sampled = false)
      by (unfold opens_queued; now rewrite closes_opens_excl).
    rewrite Eoq. simpl. rewrite Hrow. unfold array_store.
    destruct (decide (c < length row)) as [_|?]; [|contradiction]. simpl.
    destruct (decide (S _ = _)) as [Hfull|Hnot].
    + rewrite flush_closed_events_spec. simpl.
      destruct (decide (m_scancode_event_buffer_opened_len s = _));
        [lia|].
      reflexivity.
    + simpl.
      destruct (decide (m_scancode_event_buffer_opened_len s = _));
        [lia|]. reflexivity.
  - destruct (opens_queued sampled) eqn:Eoq.
    + simpl. rewrite Hrow. unfold array_store.
      destruct (decide (c < length row)) as [_|?]; [|contradiction]. simpl.
      destruct (decide (m_scancode_event_buffer_closed_len s = _));
        [lia|]. simpl.
      destruct (decide (S _ = _)) as [Hfull|Hnot].
      * rewrite flush_opened_events_spec. simpl. reflexivity.
      * reflexivity.
    + simpl. rewrite Hrow. unfold array_store.
      destruct (decide (c < length row)) as [_|?]; [|contradiction].
      destruct s; reflexivity.
Qed.

(** ** The loop rule *)

Lemma for_loop_inv (Inv : nat -> SwitchMatrixScanner -> list Event -> Prop)
    (body : nat -> M unit) count lo s out0 :
  Inv lo s out0 ->
  (forall i s1 o1, lo <= i < lo + count -> Inv i s1 o1 ->
     exists s2 o2, body i s1 = Some (tt, s2, o2) /\ Inv (S i) s2 (o1 ++ o2)) ->
  exists s' o', for_loop lo count body s = Some (tt, s', o')
                /\ Inv (lo + count) s' (out0 ++ o').
Proof.
  revert lo s out0. induction count as [|n IH]; intros lo s out0 H0 Hstep.
  - exists s, []. simpl. rewrite Nat.add_0_r, app_nil_r. now split.
  - destruct (Hstep lo s out0) as (s2 & o2 & Hb & Hinv); [lia|exact H0|].
    destruct (IH (S lo) s2 (out0 ++ o2)) as (s' & o' & Hl & Hinv').
    + exact Hinv.
    + intros i s1 o1 Hi. apply Hstep. lia.
    + exists s', (o2 ++ o'). split.
      * simpl. eapply bind_Some; eauto.
      * replace (lo + S n) with (S lo + n) by lia.
        now rewrite app_assoc.
Qed.

Lemma same_config_refl s : same_config s s.
Proof. now repeat split. Qed.

Lemma same_config_trans s1 s2 s3 :
  same_config s1 s2 -> same_config s2 s3 -> same_config s1 s3.
Proof.
  unfold same_config. intros (?&?&?&?&?&?) (?&?&?&?&?&?).
  repeat split; congruence.
Qed.

Lemma queue_inv_start h pend0 : queue_inv h [] pend0 pend0 [].
Proof.
  unfold queue_inv. split; [constructor|]. split; [|reflexivity].
  intros _. simpl. now rewrite app_nil_r.
Qed.

(** Composition: more calls, a new pending list and more events. *)
Lemma queue_inv_step h calls pend0 pend evs calls' pend' evs' :
  queue_inv h calls pend0 pend evs ->
  queue_inv h calls' pend pend' evs' ->
  queue_inv h (calls ++ calls') pend0 pend' (evs ++ evs').
Proof.
  intros (Hf & Hs & Hn) (Hf' & Hs' & Hn'). split; [|split].
  - now apply Forall_app.
  - intros Hh. rewrite fmap_app, concat_app, <- app_assoc, (Hs' Hh).
    now rewrite !app_assoc, (Hs Hh).
  - intros Hh. now rewrite (Hn Hh), (Hn' Hh).
Qed.

Lemma enqueue_queue_inv h mk proj queued v buf len :
  (forall f b n, proj (mk f b n) = Some (b, n)) ->
  len < EVENT_BUFFER_SIZE -> length buf = EVENT_BUFFER_SIZE ->
  let q := enqueue h mk queued v buf len in
  length q.1.1 = EVENT_BUFFER_SIZE /\ q.1.2 < EVENT_BUFFER_SIZE
  /\ queue_inv h (omap proj q.2) (take len buf) (take q.1.2 q.1.1)
       (if queued then [v] else []).
Proof.
  intros Hproj Hlen Hbuf. unfold enqueue.
  destruct queued; simpl.
  - assert (Htake : take (S len) (<[len := v]> buf) = take len buf ++ [v]).
    { rewrite (take_S_r _ _ v) by (apply list_lookup_insert_eq; lia).
      now rewrite take_insert_ge by lia. }
    destruct (decide (S len = EVENT_BUFFER_SIZE)) as [Hfull|Hnot]; simpl.
    + rewrite length_insert. split; [exact Hbuf|]. split; [lia|].
      unfold handler_call. destruct h as [f|]; simpl.
      * rewrite Hproj. simpl. split; [|split].
        -- repeat constructor; simpl; [lia|now rewrite length_insert].
        -- intros _. simpl. unfold payload. simpl.
           now rewrite Htake, !app_nil_r.
        -- discriminate.
      * split; [constructor|]. split; [|reflexivity].
        intros [? [=]].
    + rewrite length_insert. split; [exact Hbuf|]. split; [lia|].
      split; [constructor|]. split; [|reflexivity].
      intros _. simpl. exact Htake.
  - split; [exact Hbuf|]. split; [exact Hlen|]. apply queue_inv_start.
Qed.

Lemma enqueue_other h mk (proj : Event -> option (list Z * nat))
    queued v buf len :
  (forall f b n, proj (mk f b n) = None) ->
  omap proj (enqueue h mk queued v buf len).2 = [].
Proof.
  intros Hproj. unfold enqueue, handler_call.
  destruct queued; [|reflexivity].
  destruct (decide _); [|reflexivity].
  destruct h; simpl; [|reflexivity]. now rewrite Hproj.
Qed.

Lemma row_events_snoc q debounce values (row : list SwitchDef) i swtch :
  row !! i = Some swtch ->
  row_events q debounce values (take (S i) row) =
    row_events q debounce values (take i row)
    ++ (if q (sample_switch debounce (values i) swtch)
        then [scancode swtch] else []).
Proof.
  intros Hsw. pose proof (lookup_lt_Some _ _ _ Hsw) as Hlt.
  rewrite (take_S_r _ _ _ Hsw). unfold row_events.
  rewrite imap_app, concat_app. simpl.
  rewrite length_take, Nat.min_l by lia.
  now rewrite Nat.add_0_r, app_nil_r.
Qed.

Lemma pass_events_snoc q debounce digitalRead
    (map : list (list SwitchDef)) i row :
  map !! i = Some row ->
  pass_events q debounce digitalRead (take (S i) map) =
    pass_events q debounce digitalRead (take i map)
    ++ row_events q debounce (digitalRead i) row.
Proof.
  intros Hrow. pose proof (lookup_lt_Some _ _ _ Hrow) as Hlt.
  rewrite (take_S_r _ _ _ Hrow). unfold pass_events.
  rewrite imap_app, concat_app. simpl.
  rewrite length_take, Nat.min_l by lia.
  now rewrite Nat.add_0_r, app_nil_r.
Qed.

Lemma scan_cell_row_inv digitalRead r s0 row0 i s out :
  m_switch_map s0 !! r = Some row0 ->
  length row0 = COL_COUNT ->
  i < COL_COUNT ->
  row_inv digitalRead r s0 row0 i s out ->
  exists s2 o2,
    scan_cell r i (digitalRead r i) s = Some (tt, s2, o2)
    /\ row_inv digitalRead r s0 row0 (S i) s2 (out ++ o2).
Proof.
  intros Hrow0 Hlen0 Hi (Hready & Hcfg & Hmap & Hqc & Hqo).
  destruct Hready as ((Hrows & Hcols & Hrp & Hcp & Hob & Hcb) & Hcl & Hol).
  pose proof (lookup_lt_Some _ _ _ Hrow0) as Hr.
  destruct (lookup_lt_is_Some_2 row0 i) as [swtch Hsw]; [lia|].
  destruct (lookup_lt_is_Some_2 (m_col_pins s) i) as [colpin Hpin]; [lia|].
  set (rowI := imap (fun c swtch =>
                       if decide (c < i)
                       then cell_pass (m_enable_software_debounce s0)
                              (digitalRead r c) swtch
                       else swtch) row0) in *.
  assert (HrowI : m_switch_map s !! r = Some rowI).
  { rewrite Hmap. now apply list_lookup_insert_eq. }
  assert (HswI : rowI !! i = Some swtch).
  { unfold rowI. rewrite list_lookup_imap, Hsw. simpl.
    destruct (decide (i < i)); [lia|reflexivity]. }
  pose proof (scan_cell_spec r i (digitalRead r i) s rowI swtch colpin
                HrowI HswI Hpin Hcb Hob Hcl Hol) as Hspec.
  cbv zeta in Hspec.
  destruct Hcfg as (Hc1 & Hc2 & Hc3 & Hc4 & Hc5 & Hc6).
  rewrite Hc3, Hc4, Hc6 in Hspec.
  set (sampled := sample_switch (m_enable_software_debounce s0)
                    (digitalRead r i) swtch) in *.
  destruct (enqueue_queue_inv (m_switchhandler_closed s0) EvSwitchClosed
              closed_call (closes sampled) (scancode swtch)
              (m_scancode_event_buffer_closed s)
              (m_scancode_event_buffer_closed_len s))
    as (Hcb' & Hcl' & Hqc'); [reflexivity|lia|exact Hcb|].
  destruct (enqueue_queue_inv (m_switchhandler_open s0) EvSwitchOpen
              opened_call (opens_queued sampled) (scancode swtch)
              (m_scancode_event_buffer_opened s)
              (m_scancode_event_buffer_opened_len s))
    as (Hob' & Hol' & Hqo'); [reflexivity|lia|exact Hob|].
  eexists _, _. split; [exact Hspec|].
  split; [|split; [|split; [|split]]].
  - split; [|split; simpl; assumption].
    unfold shape. simpl. rewrite length_insert.
    split; [exact Hrows|]. split; [|auto].
    apply Forall_insert; [exact Hcols|].
    rewrite length_insert. unfold rowI. now rewrite length_imap.
  - unfold same_config. simpl. repeat split; assumption.
  - simpl. rewrite Hmap, list_insert_insert_eq. f_equal.
    apply list_eq. intros j. unfold rowI.
    destruct (decide (j = i)) as [->|Hne].
    + rewrite list_lookup_insert_eq by (rewrite length_imap; lia).
      rewrite list_lookup_imap, Hsw. simpl.
      destruct (decide (i < S i)); [reflexivity|lia].
    + rewrite list_lookup_insert_ne by congruence.
      rewrite !list_lookup_imap. destruct (row0 !! j); [simpl|reflexivity].
      destruct (decide (j < i)), (decide (j < S i)); try lia; reflexivity.
  - unfold closed_calls. rewrite omap_app. simpl. rewrite omap_app.
    rewrite (enqueue_other _ EvSwitchOpen closed_call) by reflexivity.
    rewrite app_nil_r, (row_events_snoc _ _ _ _ _ _ Hsw).
    eapply queue_inv_step; [exact Hqc|exact Hqc'].
  - unfold opened_calls. rewrite omap_app. simpl. rewrite omap_app.
    rewrite (enqueue_other _ EvSwitchClosed opened_call) by reflexivity.
    simpl. rewrite (row_events_snoc _ _ _ _ _ _ Hsw).
    eapply queue_inv_step; [exact Hqo|exact Hqo'].
Qed.

Lemma closed_calls_app o1 o2 :
  closed_calls (o1 ++ o2) = closed_calls o1 ++ closed_calls o2.
Proof. apply omap_app. Qed.

Lemma opened_calls_app o1 o2 :
  opened_calls (o1 ++ o2) = opened_calls o1 ++ opened_calls o2.
Proof. apply omap_app. Qed.

Lemma scan_row_spec digitalRead r s row :
  ready s ->
  m_switch_map s !! r = Some row ->
  let debounce := m_enable_software_debounce s in
  exists s2 o2,
    scan_row digitalRead r s = Some (tt, s2, o2)
    /\ ready s2 /\ same_config s s2
    /\ m_switch_map s2 =
         <[r := pass_row debounce (digitalRead r) row]> (m_switch_map s)
    /\ queue_inv (m_switchhandler_closed s) (closed_calls o2)
         (pending_closed s) (pending_closed s2)
         (row_events closes debounce (digitalRead r) row)
    /\ queue_inv (m_switchhandler_open s) (opened_calls o2)
         (pending_opened s) (pending_opened s2)
         (row_events opens_queued debounce (digitalRead r) row).
Proof.
  intros Hready Hrow debounce.
  pose proof Hready as ((Hrows & Hcols & Hrp & Hcp & Hob & Hcb) & Hcl & Hol).
  pose proof (lookup_lt_Some _ _ _ Hrow) as Hr.
  assert (Hlen : length row = COL_COUNT).
  { rewrite Forall_lookup in Hcols. exact (Hcols r row Hrow). }
  destruct (lookup_lt_is_Some_2 (m_row_pins s) r) as [rowpin Hpin]; [lia|].
  destruct (for_loop_inv (row_inv digitalRead r s row)
              (fun c => scan_cell r c (digitalRead r c)) COL_COUNT 0 s [])
    as (s2 & o2 & Hloop & Hinv).
  { split; [exact Hready|]. split; [apply same_config_refl|].
    split; [|split; apply queue_inv_start].
    symmetry. apply list_insert_id. rewrite Hrow. f_equal.
    apply list_eq. intros j. rewrite list_lookup_imap.
    destruct (row !! j); [simpl|reflexivity].
    destruct (decide (j < 0)); [lia|reflexivity]. }
  { intros i s1 o1 Hi Hinv.
    apply (scan_cell_row_inv digitalRead r s row i s1 o1 Hrow Hlen);
      [lia|exact Hinv]. }
  simpl in Hinv.
  destruct Hinv as (Hready2 & Hcfg2 & Hmap2 & Hqc & Hqo).
  exists s2, ([EvPinMode rowpin OUTPUT; EvDigitalWrite rowpin LOW]
              ++ o2 ++ [EvPinMode rowpin INPUT]).
  split.
  { unfold scan_row, bind, gets, lift, emit. simpl. rewrite Hpin.
    rewrite Hloop. reflexivity. }
  split; [exact Hready2|]. split; [exact Hcfg2|].
  rewrite take_ge in Hqc, Hqo by lia.
  split; [|split].
  - rewrite Hmap2. f_equal. unfold pass_row. apply list_eq. intros j.
    rewrite !list_lookup_imap. destruct (row !! j) eqn:Hj; [simpl|reflexivity].
    pose proof (lookup_lt_Some _ _ _ Hj).
    destruct (decide (j < COL_COUNT)); [reflexivity|lia].
  - rewrite !closed_calls_app. simpl. now rewrite app_nil_r.
  - rewrite !opened_calls_app. simpl. now rewrite app_nil_r.
Qed.

Lemma scan_row_rows_inv digitalRead s0 i s out :
  i < ROW_COUNT ->
  length (m_switch_map s0) = ROW_COUNT ->
  rows_inv digitalRead s0 i s out ->
  exists s2 o2,
    scan_row digitalRead i s = Some (tt, s2, o2)
    /\ rows_inv digitalRead s0 (S i) s2 (out ++ o2).
Proof.
  intros Hi Hlen0 (Hready & Hcfg & Hmap & Hqc & Hqo).
  destruct (lookup_lt_is_Some_2 (m_switch_map s0) i) as [row Hrow0]; [lia|].
  assert (Hrow : m_switch_map s !! i = Some row).
  { rewrite Hmap, list_lookup_imap, Hrow0. simpl.
    destruct (decide (i < i)); [lia|reflexivity]. }
  destruct (scan_row_spec digitalRead i s row Hready Hrow)
    as (s2 & o2 & Hrun & Hready2 & Hcfg2 & Hmap2 & Hqc2 & Hqo2).
  destruct Hcfg as (Hc1 & Hc2 & Hc3 & Hc4 & Hc5 & Hc6).
  rewrite Hc3, Hc6 in Hqc2. rewrite Hc4, Hc6 in Hqo2. rewrite Hc6 in Hmap2.
  exists s2, o2. split; [exact Hrun|].
  split; [exact Hready2|].
  split; [eapply same_config_trans; [|exact Hcfg2]; now repeat split|].
  split; [|split].
  - rewrite Hmap2, Hmap. apply list_eq. intros j.
    destruct (decide (j = i)) as [->|Hne].
    + rewrite list_lookup_insert_eq by (rewrite length_imap; lia).
      rewrite list_lookup_imap, Hrow0. simpl.
      destruct (decide (i < S i)); [reflexivity|lia].
    + rewrite list_lookup_insert_ne by congruence.
      rewrite !list_lookup_imap.
      destruct (m_switch_map s0 !! j); [simpl|reflexivity].
      destruct (decide (j < i)), (decide (j < S i)); try lia; reflexivity.
  - rewrite closed_calls_app, (pass_events_snoc _ _ _ _ _ _ Hrow0).
    eapply queue_inv_step; [exact Hqc|exact Hqc2].
  - rewrite opened_calls_app, (pass_events_snoc _ _ _ _ _ _ Hrow0).
    eapply queue_inv_step; [exact Hqo|exact Hqo2].
Qed.

(** The row loop of a pass, from any state whose buffers have room. *)
Lemma scan_rows_spec digitalRead s0 :
  ready s0 ->
  let debounce := m_enable_software_debounce s0 in
  exists s out,
    scan_rows digitalRead s0 = Some (tt, s, out)
    /\ ready s /\ same_config s0 s
    /\ m_switch_map s = pass_map debounce digitalRead (m_switch_map s0)
    /\ queue_inv (m_switchhandler_closed s0) (closed_calls out)
         (pending_closed s0) (pending_closed s)
         (pass_events closes debounce digitalRead (m_switch_map s0))
    /\ queue_inv (m_switchhandler_open s0) (opened_calls out)
         (pending_opened s0) (pending_opened s)
         (pass_events opens_queued debounce digitalRead (m_switch_map s0)).
Proof.
  intros Hready debounce.
  pose proof Hready as ((Hrows & _) & _).
  destruct (for_loop_inv (rows_inv digitalRead s0)
              (scan_row digitalRead) ROW_COUNT 0 s0 [])
    as (s & out & Hloop & Hinv).
  { split; [exact Hready|]. split; [apply same_config_refl|].
    split; [|split; apply queue_inv_start].
    apply list_eq. intros j. rewrite list_lookup_imap.
    destruct (m_switch_map s0 !! j); [simpl|reflexivity].
    destruct (decide (j < 0)); [lia|reflexivity]. }
  { intros i s1 o1 Hi Hinv.
    apply (scan_row_rows_inv digitalRead s0 i s1 o1); [lia|exact Hrows|].
    exact Hinv. }
  simpl in Hinv. destruct Hinv as (Hready2 & Hcfg2 & Hmap2 & Hqc & Hqo).
  rewrite take_ge in Hqc, Hqo by lia.
  exists s, out. split; [exact Hloop|].
  split; [exact Hready2|]. split; [exact Hcfg2|].
  split; [|split; assumption].
  rewrite Hmap2. unfold pass_map. apply list_eq. intros j.
  rewrite !list_lookup_imap.
  destruct (m_switch_map s0 !! j) eqn:Hj; [simpl|reflexivity].
  pose proof (lookup_lt_Some _ _ _ Hj).
  destruct (decide (j < ROW_COUNT)); [reflexivity|lia].
Qed.

Lemma end_flush_spec s :
  exists s',
    (flush_closed_events >> flush_opened_events) s
      = Some (tt, s', end_calls s)
    /\ idle s' /\ same_config s s'
    /\ m_switch_map s' = m_switch_map s
    /\ m_scancode_event_buffer_closed s' = m_scancode_event_buffer_closed s
    /\ m_scancode_event_buffer_opened s' = m_scancode_event_buffer_opened s.
Proof.
  unfold bind, end_calls. rewrite flush_closed_events_spec.
  destruct (decide (0 < m_scancode_event_buffer_closed_len s)) as [Hc|Hc];
    rewrite flush_opened_events_spec; simpl;
    destruct (decide (0 < m_scancode_event_buffer_opened_len s)) as [Ho|Ho];
    eexists; (split; [reflexivity|]); unfold idle, same_config; simpl;
    repeat split; lia.
Qed.

Lemma shape_ext s s' :
  shape s ->
  m_switch_map s' = m_switch_map s ->
  m_row_pins s' = m_row_pins s -> m_col_pins s' = m_col_pins s ->
  m_scancode_event_buffer_closed s' = m_scancode_event_buffer_closed s ->
  m_scancode_event_buffer_opened s' = m_scancode_event_buffer_opened s ->
  shape s'.
Proof. unfold shape. intros H -> -> -> -> ->. exact H. Qed.

(** One whole pass from an idle scanner: it runs to completion, the row
    loop leaves fewer than a bufferful pending, and the final flushes
    hand over the rest. *)
Lemma scan_spec digitalRead s0 :
  0 < EVENT_BUFFER_SIZE -> shape s0 -> idle s0 ->
  let debounce := m_enable_software_debounce s0 in
  exists s_mid out_mid s',
    scan_rows digitalRead s0 = Some (tt, s_mid, out_mid)
    /\ scan digitalRead s0 = Some (tt, s', out_mid ++ end_calls s_mid)
    /\ ready s_mid /\ same_config s0 s_mid
    /\ queue_inv (m_switchhandler_closed s0) (closed_calls out_mid)
         [] (pending_closed s_mid)
         (pass_events closes debounce digitalRead (m_switch_map s0))
    /\ queue_inv (m_switchhandler_open s0) (opened_calls out_mid)
         [] (pending_opened s_mid)
         (pass_events opens_queued debounce digitalRead (m_switch_map s0))
    /\ shape s' /\ idle s' /\ same_config s0 s'
    /\ m_switch_map s' = pass_map debounce digitalRead (m_switch_map s0).
Proof.
  intros HN Hshape (Hc0 & Ho0) debounce.
  destruct (scan_rows_spec digitalRead s0)
    as (s_mid & out_mid & Hrows & Hready & Hcfg & Hmap & Hqc & Hqo).
  { split; [exact Hshape|]. lia. }
  unfold pending_closed in Hqc at 1. unfold pending_opened in Hqo at 1.
  rewrite Hc0 in Hqc. rewrite Ho0 in Hqo. rewrite take_0 in Hqc, Hqo.
  destruct (end_flush_spec s_mid)
    as (s' & Hflush & Hidle & Hcfg' & Hmap' & Hcb' & Hob').
  exists s_mid, out_mid, s'.
  split; [exact Hrows|]. split.
  { unfold scan. eapply bind_Some; [exact Hrows|exact Hflush]. }
  split; [exact Hready|]. split; [exact Hcfg|].
  split; [exact Hqc|]. split; [exact Hqo|].
  split.
  { destruct Hcfg' as (? & ? & _). destruct Hready as (Hsh & _).
    now apply (shape_ext s_mid s'). }
  split; [exact Hidle|].
  split; [eapply same_config_trans; eauto|].
  now rewrite Hmap'.
Qed.

(** ** Facts about one record *)

Lemma SwitchState_eqb_eq a b : SwitchState_eqb a b = true <-> a = b.
Proof. destruct a, b; simpl; split; congruence. Qed.

Lemma SwitchState_eqb_neq a b : SwitchState_eqb a b = false <-> a <> b.
Proof. destruct a, b; simpl; split; congruence. Qed.

Lemma DebounceSampleMask_val : DebounceSampleMask = 31%Z.
Proof. reflexivity. Qed.

Lemma DebounceSettleMask_val : DebounceSettleMask = 224%Z.
Proof. reflexivity. Qed.

(** A property of every byte can be checked by running through the 256
    values. *)
Lemma byte_check (f : Z -> bool) :
  forallb f (Z.of_nat <$> seq 0 256) = true ->
  forall b, (0 <= b < 256)%Z -> f b = true.
Proof.
  intros Hall b Hb. rewrite forallb_forall in Hall. apply Hall.
  apply in_map_iff. exists (Z.to_nat b). split; [lia|].
  apply in_seq. lia.
Qed.

Lemma sample_switch_state debounce value swtch :
  state (sample_switch debounce value swtch) = state swtch.
Proof.
  unfold sample_switch, handleSoftwareDebounce.
  destruct debounce; [destruct (_ <? _)%Z|]; reflexivity.
Qed.

Lemma closes_latch swtch :
  closes swtch = true ->
  latch swtch = mkSwitchDef (scancode swtch) CLOSED 31.
Proof.
  intros Hc. unfold latch. rewrite Hc.
  unfold closes, is_closed in Hc. apply andb_true_iff in Hc as [Hw _].
  apply Z.eqb_eq in Hw.
  unfold set_sample_buffer, reset_sample_count, set_state. simpl.
  now rewrite Hw.
Qed.

Lemma opens_latch swtch :
  opens swtch = true ->
  latch swtch = mkSwitchDef (scancode swtch) OPEN 0.
Proof.
  intros Ho. unfold latch. rewrite Ho.
  unfold opens in Ho. apply andb_true_iff in Ho as [Hnc Ho].
  apply negb_true_iff in Hnc. rewrite Hnc.
  apply andb_true_iff in Ho as [Hw _]. unfold is_open in Hw.
  apply Z.eqb_eq in Hw.
  unfold set_sample_buffer, reset_sample_count, set_state. simpl.
  now rewrite Hw.
Qed.

Lemma quiet_latch swtch :
  closes swtch = false -> opens swtch = false -> latch swtch = swtch.
Proof. intros Hc Ho. unfold latch. now rewrite Hc, Ho. Qed.

(** [handleSwitchState] only ever writes CLOSED or OPEN. *)
Lemma latch_known swtch :
  state swtch <> UNKNOWN -> state (latch swtch) <> UNKNOWN.
Proof.
  intros Hk. destruct (closes swtch) eqn:Hc.
  - now rewrite closes_latch.
  - destruct (opens swtch) eqn:Ho.
    + now rewrite opens_latch.
    + now rewrite quiet_latch.
Qed.

Lemma cell_pass_known debounce value swtch :
  state swtch <> UNKNOWN -> state (cell_pass debounce value swtch) <> UNKNOWN.
Proof.
  intros Hk. apply latch_known. now rewrite sample_switch_state.
Qed.

Lemma cell_pass_scancode debounce value swtch :
  scancode (cell_pass debounce value swtch) = scancode swtch.
Proof.
  unfold cell_pass. now rewrite latch_scancode, sample_switch_scancode.
Qed.

Lemma handleSoftwareDebounce_eq swtch pressed :
  handleSoftwareDebounce swtch pressed =
    mkSwitchDef (scancode swtch) (state swtch)
      (debounce_byte (sample_buffer swtch) pressed).
Proof.
  unfold debounce_byte, handleSoftwareDebounce. simpl.
  destruct (_ <? _)%Z; reflexivity.
Qed.

Lemma debounce_step_ok_all pressed b :
  (0 <= b < 256)%Z -> debounce_step_ok pressed b = true.
Proof.
  revert b. apply byte_check. destruct pressed; vm_compute; reflexivity.
Qed.

(** ** [setup] and [isSwitchClosed] *)

Lemma pin_loop_spec (pins : SwitchMatrixScanner -> list Z)
    (mode : SwitchMatrixScanner -> PinMode) count s :
  length (pins s) = count ->
  for_loop 0 count (fun i =>
    do pin <- (do ps <- gets pins; lift (ps !! i));
    do m <- gets mode;
    emit (EvPinMode pin m)) s
  = Some (tt, s, (fun pin => EvPinMode pin (mode s)) <$> pins s).
Proof.
  intros Hlen.
  destruct (for_loop_inv
              (fun i s1 o => s1 = s
                 /\ o = (fun pin => EvPinMode pin (mode s)) <$> take i (pins s))
              (fun i => do pin <- (do ps <- gets pins; lift (ps !! i));
                        do m <- gets mode; emit (EvPinMode pin m))
              count 0 s [])
    as (s' & o' & Hrun & -> & Ho).
  - now split.
  - intros i s1 o1 Hi (-> & ->).
    destruct (lookup_lt_is_Some_2 (pins s) i) as [pin Hpin]; [lia|].
    exists s, [EvPinMode pin (mode s)]. split.
    + unfold bind, gets, lift, emit. simpl. now rewrite Hpin.
    + split; [reflexivity|].
      now rewrite (take_S_r _ _ _ Hpin), fmap_app.
  - simpl in Ho. rewrite take_ge in Ho by lia. now rewrite Hrun, Ho.
Qed.

Lemma setup_spec hc ho s :
  shape s ->
  setup hc ho s =
    Some (tt, with_handlers s hc ho,
          ((fun pin => EvPinMode pin INPUT) <$> m_row_pins s)
          ++ ((fun pin => EvPinMode pin (m_column_input_type s))
                <$> m_col_pins s)).
Proof.
  intros (_ & _ & Hrp & Hcp & _).
  unfold setup.
  eapply (bind_Some _ _ s tt (with_handlers s hc ho) []); [reflexivity|].
  eapply bind_Some.
  - pose proof (pin_loop_spec m_row_pins (fun _ => INPUT) ROW_COUNT
                  (with_handlers s hc ho) Hrp) as H.
    simpl in H. unfold bind at 1 in H. unfold bind at 1.
    rewrite <- H. f_equal.
  - exact (pin_loop_spec m_col_pins m_column_input_type COL_COUNT
             (with_handlers s hc ho) Hcp).
Qed.

Lemma cell_at_Some s r c :
  shape s -> r < ROW_COUNT -> c < COL_COUNT ->
  exists swtch, cell_at s r c = Some swtch.
Proof.
  intros (Hrows & Hcols & _) Hr Hc. unfold cell_at.
  destruct (lookup_lt_is_Some_2 (m_switch_map s) r) as [row Hrow]; [lia|].
  rewrite Hrow. simpl. apply lookup_lt_is_Some_2.
  rewrite Forall_lookup in Hcols. rewrite (Hcols r row Hrow). exact Hc.
Qed.

Lemma load_switch_spec s r c swtch :
  cell_at s r c = Some swtch -> load_switch r c s = Some (swtch, s, []).
Proof.
  unfold cell_at, load_switch, bind, gets, lift. simpl. now intros ->.
Qed.

(** The query in terms of the zero-based index [scancode - 1]. *)
Lemma isSwitchClosed_index s scancode :
  shape s -> scancode <> 0%Z ->
  (u16 (scancode - 1) < Z.of_nat (ROW_COUNT * COL_COUNT))%Z ->
  exists swtch,
    cell_at s (Z.to_nat (u16 (scancode - 1) / Z.of_nat COL_COUNT))
              (Z.to_nat (u16 (scancode - 1) mod Z.of_nat COL_COUNT))
      = Some swtch
    /\ isSwitchClosed scancode s
       = Some (SwitchState_eqb (state swtch) CLOSED, s, []).
Proof.
  intros Hshape Hnz Hlt.
  set (idx := u16 (scancode - 1)) in *.
  assert (Hidx : (0 <= idx < 2 ^ 16)%Z) by (apply Z.mod_pos_bound; lia).
  assert (HC : (0 < Z.of_nat COL_COUNT)%Z) by nia.
  assert (Hrow : (0 <= idx / Z.of_nat COL_COUNT < Z.of_nat ROW_COUNT)%Z).
  { split; [apply Z.div_pos; lia|].
    apply Z.div_lt_upper_bound; [lia|]. nia. }
  assert (Hrow16 : u16 (idx / Z.of_nat COL_COUNT) = (idx / Z.of_nat COL_COUNT)%Z).
  { apply Z.mod_small. split; [lia|].
    apply Z.le_lt_trans with idx; [|lia].
    apply Z.div_le_upper_bound; [lia|]. nia. }
  pose proof (Z.mod_pos_bound idx (Z.of_nat COL_COUNT) HC) as Hcol.
  assert (Hcol16 : u16 (idx - idx / Z.of_nat COL_COUNT * Z.of_nat COL_COUNT)
                   = (idx mod Z.of_nat COL_COUNT)%Z).
  { rewrite Z.mod_eq by lia.
    replace (Z.of_nat COL_COUNT * (idx / Z.of_nat COL_COUNT))%Z
      with (idx / Z.of_nat COL_COUNT * Z.of_nat COL_COUNT)%Z by lia.
    apply Z.mod_small.
    pose proof (Z.mod_eq idx (Z.of_nat COL_COUNT)). lia. }
  destruct (cell_at_Some s (Z.to_nat (idx / Z.of_nat COL_COUNT))
              (Z.to_nat (idx mod Z.of_nat COL_COUNT)) Hshape)
    as [swtch Hsw]; [lia|lia|].
  exists swtch. split; [exact Hsw|].
  unfold isSwitchClosed. fold idx.
  destruct (Z.eqb_spec scancode 0%Z) as [?|_]; [contradiction|].
  destruct (Z.leb_spec (Z.of_nat (ROW_COUNT * COL_COUNT)) idx) as [?|_];
    [lia|].
  rewrite Hrow16, Hcol16.
  unfold bind. rewrite (load_switch_spec _ _ _ _ Hsw). reflexivity.
Qed.

Lemma isSwitchClosed_total s scancode :
  shape s -> exists b, isSwitchClosed scancode s = Some (b, s, []).
Proof.
  intros Hshape.
  destruct (Z.eq_dec scancode 0%Z) as [->|Hnz].
  - exists false. reflexivity.
  - destruct (Z_lt_le_dec (u16 (scancode - 1))
                (Z.of_nat (ROW_COUNT * COL_COUNT))) as [Hlt|Hge].
    + destruct (isSwitchClosed_index s scancode Hshape Hnz Hlt)
        as (swtch & _ & Hq). eauto.
    + exists false. unfold isSwitchClosed.
      destruct (Z.eqb_spec scancode 0%Z) as [?|_]; [contradiction|].
      destruct (Z.leb_spec (Z.of_nat (ROW_COUNT * COL_COUNT))
                  (u16 (scancode - 1))) as [_|?]; [reflexivity|lia].
Qed.

(** ** The constructor *)

Lemma u16_idemp x : u16 (u16 x) = u16 x.
Proof. unfold u16. apply Z.mod_mod. lia. Qed.

Lemma u16_add_l x y : u16 (u16 x + y) = u16 (x + y).
Proof. unfold u16. apply Zplus_mod_idemp_l. Qed.

Lemma u16_small x : (0 <= x < 65536)%Z -> u16 x = x.
Proof. intros H. unfold u16. apply Z.mod_small. lia. Qed.

Lemma construct_cols r j map sc :
  u16 sc = sc ->
  foldl (fun st c => construct_cell r c st) (map, sc) (seq 0 j)
  = (alter (row_fill sc j) r map, u16 (sc + Z.of_nat j)).
Proof.
  intros Hsc. induction j as [|j IH].
  - simpl. rewrite Z.add_0_r, Hsc. f_equal. symmetry.
    apply list_alter_id. intros row. unfold row_fill.
    apply list_eq. intros i. rewrite list_lookup_imap.
    destruct (row !! i); [simpl|reflexivity].
    destruct (decide (i < 0)); [lia|reflexivity].
  - rewrite seq_S, foldl_snoc, IH. simpl.
    rewrite list_alter_alter_eq, u16_add_l. f_equal; [|f_equal; lia].
    apply list_alter_ext; [|reflexivity].
    intros row _. simpl. unfold row_fill. apply list_eq. intros i.
    destruct (decide (i = j)) as [->|Hne].
    + rewrite list_lookup_imap.
      destruct (row !! j) eqn:Hj.
      * rewrite list_lookup_insert_eq
          by (rewrite length_imap; eapply lookup_lt_Some; eauto).
        simpl. destruct (decide (j < S j)); [reflexivity|lia].
      * rewrite list_insert_ge
          by (rewrite length_imap; now apply lookup_ge_None).
        now rewrite list_lookup_imap, Hj.
    + rewrite list_lookup_insert_ne by congruence.
      rewrite !list_lookup_imap. destruct (row !! i); [simpl|reflexivity].
      destruct (decide (i < j)), (decide (i < S j)); try lia; reflexivity.
Qed.

Lemma construct_rows i (map0 : list (list SwitchDef)) :
  foldl (fun st r =>
           foldl (fun st c => construct_cell r c st) st (seq 0 COL_COUNT))
        (map0, 1%Z) (seq 0 i)
  = (imap (fun r row =>
             if decide (r < i)
             then row_fill (u16 (1 + Z.of_nat (r * COL_COUNT))) COL_COUNT row
             else row) map0,
     u16 (1 + Z.of_nat (i * COL_COUNT))).
Proof.
  induction i as [|i IH].
  - simpl. f_equal. apply list_eq. intros j. rewrite list_lookup_imap.
    destruct (map0 !! j); [simpl|reflexivity].
    destruct (decide (j < 0)); [lia|reflexivity].
  - rewrite seq_S, foldl_snoc, IH. simpl.
    rewrite construct_cols by apply u16_idemp.
    rewrite u16_add_l. f_equal; [|f_equal; lia].
    apply list_eq. intros j.
    destruct (decide (j = i)) as [->|Hne].
    + rewrite list_lookup_alter_eq, !list_lookup_imap.
      destruct (map0 !! i); [simpl|reflexivity].
      destruct (decide (i < i)), (decide (i < S i)); try lia; reflexivity.
    + rewrite list_lookup_alter_ne by congruence.
      rewrite !list_lookup_imap. destruct (map0 !! j); [simpl|reflexivity].
      destruct (decide (j < i)), (decide (j < S i)); try lia; reflexivity.
Qed.

(** The map the constructor builds, in closed form. *)
Lemma construct_map row_pins column_pins enable_pullups debounce :
  m_switch_map (construct row_pins column_pins enable_pullups debounce)
  = (fun r => (fun c => mkSwitchDef
                          (u16 (1 + Z.of_nat (r * COL_COUNT + c))) UNKNOWN 0)
              <$> seq 0 COL_COUNT)
    <$> seq 0 ROW_COUNT.
Proof.
  unfold construct. rewrite construct_rows. simpl.
  apply list_eq. intros r.
  rewrite list_lookup_imap, list_lookup_fmap.
  destruct (decide (r < ROW_COUNT)) as [Hr|Hr].
  - rewrite lookup_replicate_2, lookup_seq_lt by lia. simpl.
    destruct (decide (r < ROW_COUNT)); [|lia]. f_equal.
    unfold row_fill. apply list_eq. intros c.
    rewrite list_lookup_imap, list_lookup_fmap.
    destruct (decide (c < COL_COUNT)) as [Hc|Hc].
    + rewrite lookup_replicate_2, lookup_seq_lt by lia. simpl.
      destruct (decide (c < COL_COUNT)); [|lia].
      rewrite u16_add_l. do 3 f_equal. lia.
    + rewrite lookup_seq_ge by lia.
      now rewrite (proj1 (lookup_replicate_None _ _ _)) by lia.
  - rewrite lookup_seq_ge by lia.
    now rewrite (proj1 (lookup_replicate_None _ _ _)) by lia.
Qed.

Lemma construct_shape row_pins column_pins enable_pullups debounce :
  length row_pins = ROW_COUNT -> length column_pins = COL_COUNT ->
  shape (construct row_pins column_pins enable_pullups debounce)
  /\ idle (construct row_pins column_pins enable_pullups debounce).
Proof.
  intros Hrp Hcp. split; [|split; unfold construct;
    destruct (foldl _ _ _); reflexivity].
  unfold shape. rewrite construct_map.
  rewrite length_fmap, length_seq. split; [reflexivity|].
  split.
  { apply Forall_fmap, Forall_forall. intros r _. simpl.
    now rewrite length_fmap, length_seq. }
  unfold construct. destruct (foldl _ _ _). simpl.
  rewrite !length_take, !length_replicate. lia.
Qed.

Lemma construct_cell_at row_pins column_pins enable_pullups debounce r c :
  cell_at (construct row_pins column_pins enable_pullups debounce) r c
  = if decide (r < ROW_COUNT /\ c < COL_COUNT)
    then Some (mkSwitchDef (u16 (1 + Z.of_nat (r * COL_COUNT + c))) UNKNOWN 0)
    else None.
Proof.
  unfold cell_at. rewrite construct_map, list_lookup_fmap.
  destruct (decide (r < ROW_COUNT)) as [Hr|Hr].
  - rewrite lookup_seq_lt by lia. simpl. rewrite list_lookup_fmap.
    destruct (decide (c < COL_COUNT)) as [Hc|Hc].
    + rewrite lookup_seq_lt by lia. simpl.
      destruct (decide _) as [_|Hn]; [reflexivity|lia].
    + rewrite lookup_seq_ge by lia. simpl.
      destruct (decide _) as [Hn|_]; [lia|reflexivity].
  - rewrite lookup_seq_ge by lia. simpl.
    destruct (decide _) as [Hn|_]; [lia|reflexivity].
Qed.

Lemma construct_scancodes row_pins column_pins enable_pullups debounce :
  (Z.of_nat (ROW_COUNT * COL_COUNT) < ScanCodeMax - 1)%Z ->
  scancode <$> concat (m_switch_map
                         (construct row_pins column_pins enable_pullups
                            debounce))
  = seqZ 1 (Z.of_nat (ROW_COUNT * COL_COUNT)).
Proof.
  intros Hmax. rewrite construct_map.
  assert (Hgen : forall n, n <= ROW_COUNT ->
    scancode <$> concat
      ((fun r => (fun c => mkSwitchDef
                             (u16 (1 + Z.of_nat (r * COL_COUNT + c)))
                             UNKNOWN 0) <$> seq 0 COL_COUNT) <$> seq 0 n)
    = seqZ 1 (Z.of_nat (n * COL_COUNT))).
  { induction n as [|n IH]; intros Hn; [reflexivity|].
    rewrite seq_S, fmap_app, concat_app, fmap_app, IH by lia. simpl.
    rewrite app_nil_r.
    replace (Z.of_nat (COL_COUNT + n * COL_COUNT))
      with (Z.of_nat (n * COL_COUNT) + Z.of_nat COL_COUNT)%Z by lia.
    rewrite seqZ_app by lia. f_equal.
    rewrite <- list_fmap_compose. unfold seqZ. rewrite Nat2Z.id.
    apply list_fmap_ext. intros i c Hc. simpl.
    apply lookup_seq in Hc as [-> Hc]. simpl.
    unfold ScanCodeMax in Hmax. rewrite u16_small by nia. lia. }
  now apply Hgen.
Qed.

(** ** Executions: sequences of calls of the public interface *)

Lemma calls_ok_of_projections out :
  Forall (fun call => 1 <= call.2 <= EVENT_BUFFER_SIZE) (closed_calls out) ->
  Forall (fun call => 1 <= call.2 <= EVENT_BUFFER_SIZE) (opened_calls out) ->
  Forall call_ok out.
Proof.
  unfold closed_calls, opened_calls.
  induction out as [|e out IH]; intros Hc Ho; [constructor|].
  destruct e; simpl in Hc, Ho;
    try (constructor; [intros n [=]|now apply IH]).
  - inversion Hc; subst. constructor; [|now apply IH].
    intros n [= <-]. assumption.
  - inversion Ho; subst. constructor; [|now apply IH].
    intros n [= <-]. assumption.
Qed.

Lemma end_calls_projections s :
  closed_calls (end_calls s) =
    (if decide (0 < m_scancode_event_buffer_closed_len s) then
       match m_switchhandler_closed s with
       | Some _ => [(m_scancode_event_buffer_closed s,
                     m_scancode_event_buffer_closed_len s)]
       | None => []
       end
     else [])
  /\ opened_calls (end_calls s) =
     (if decide (0 < m_scancode_event_buffer_opened_len s) then
        match m_switchhandler_open s with
        | Some _ => [(m_scancode_event_buffer_opened s,
                      m_scancode_event_buffer_opened_len s)]
        | None => []
        end
      else []).
Proof.
  unfold end_calls, handler_call.
  rewrite closed_calls_app, opened_calls_app.
  destruct (decide (0 < m_scancode_event_buffer_closed_len s)),
    (decide (0 < m_scancode_event_buffer_opened_len s)),
    (m_switchhandler_closed s), (m_switchhandler_open s);
    split; reflexivity.
Qed.

Lemma cell_at_pass_map s s' debounce digitalRead r c :
  m_switch_map s' = pass_map debounce digitalRead (m_switch_map s) ->
  cell_at s' r c = cell_pass debounce (digitalRead r c) <$> cell_at s r c.
Proof.
  intros Hmap. unfold cell_at. rewrite Hmap. unfold pass_map.
  rewrite list_lookup_imap. destruct (m_switch_map s !! r); [simpl|reflexivity].
  unfold pass_row. now rewrite list_lookup_imap.
Qed.

Lemma scan_calls_ok digitalRead s0 :
  0 < EVENT_BUFFER_SIZE -> shape s0 -> idle s0 ->
  exists s' out,
    scan digitalRead s0 = Some (tt, s', out)
    /\ shape s' /\ idle s' /\ same_config s0 s'
    /\ m_switch_map s' =
         pass_map (m_enable_software_debounce s0) digitalRead (m_switch_map s0)
    /\ Forall call_ok out.
Proof.
  intros HN Hshape Hidle.
  destruct (scan_spec digitalRead s0 HN Hshape Hidle)
    as (s_mid & out_mid & s' & _ & Hscan & Hready & _ & Hqc & Hqo
        & Hshape' & Hidle' & Hcfg' & Hmap').
  exists s', (out_mid ++ end_calls s_mid).
  repeat (split; [assumption|]).
  destruct Hready as (_ & Hcl & Hol).
  destruct Hqc as (Hfc & _). destruct Hqo as (Hfo & _).
  destruct (end_calls_projections s_mid) as (Hec & Heo).
  apply calls_ok_of_projections.
  - rewrite closed_calls_app. apply Forall_app. split.
    + eapply Forall_impl; [exact Hfc|]. simpl. intros call (-> & _). lia.
    + rewrite Hec. clear Hec Heo.
      destruct (decide (0 < m_scancode_event_buffer_closed_len s_mid));
        [|constructor].
      destruct (m_switchhandler_closed s_mid); repeat constructor; simpl; lia.
  - rewrite opened_calls_app. apply Forall_app. split.
    + eapply Forall_impl; [exact Hfo|]. simpl. intros call (-> & _). lia.
    + rewrite Heo. clear Hec Heo.
      destruct (decide (0 < m_scancode_event_buffer_opened_len s_mid));
        [|constructor].
      destruct (m_switchhandler_open s_mid); repeat constructor; simpl; lia.
Qed.

(** Every call of the public interface, from an idle scanner: it returns,
    leaves the scanner idle, calls the handlers with counts in range and
    never turns a latched state back into UNKNOWN. *)
Lemma exec_ok op s :
  0 < EVENT_BUFFER_SIZE -> shape s -> idle s ->
  exists s' out,
    exec op s = Some (tt, s', out)
    /\ shape s' /\ idle s'
    /\ Forall call_ok out
    /\ (forall r c swtch, cell_at s r c = Some swtch ->
          exists swtch', cell_at s' r c = Some swtch'
                         /\ (state swtch <> UNKNOWN -> state swtch' <> UNKNOWN)).
Proof.
  intros HN Hshape Hidle. destruct op as [hc ho|digitalRead|scancode].
  - exists (with_handlers s hc ho). eexists. simpl.
    split; [now apply setup_spec|].
    split; [exact Hshape|]. split; [exact Hidle|].
    split.
    + apply Forall_app. split; apply Forall_fmap, Forall_forall;
        intros pin _ n [=].
    + intros r c swtch Hsw. exists swtch. now split.
  - destruct (scan_calls_ok digitalRead s HN Hshape Hidle)
      as (s' & out & Hscan & Hshape' & Hidle' & _ & Hmap & Hok).
    exists s', out. simpl.
    repeat (split; [assumption|]).
    intros r c swtch Hsw. rewrite (cell_at_pass_map _ _ _ _ _ _ Hmap), Hsw.
    eexists. split; [reflexivity|]. apply cell_pass_known.
  - destruct (isSwitchClosed_total s scancode Hshape) as [b Hq].
    exists s, []. simpl. split.
    + unfold bind. rewrite Hq. reflexivity.
    + split; [exact Hshape|]. split; [exact Hidle|].
      split; [constructor|].
      intros r c swtch Hsw. exists swtch. now split.
Qed.

Lemma execs_ok ops s :
  0 < EVENT_BUFFER_SIZE -> shape s -> idle s ->
  exists s' out,
    execs ops s = Some (tt, s', out)
    /\ shape s' /\ idle s'
    /\ Forall call_ok out
    /\ (forall r c swtch, cell_at s r c = Some swtch ->
          exists swtch', cell_at s' r c = Some swtch'
                         /\ (state swtch <> UNKNOWN -> state swtch' <> UNKNOWN)).
Proof.
  intros HN. revert s. induction ops as [|op ops IH]; intros s Hshape Hidle.
  - exists s, []. simpl. repeat (split; [easy|]).
    intros r c swtch Hsw. exists swtch. now split.
  - destruct (exec_ok op s HN Hshape Hidle)
      as (s1 & o1 & Hop & Hshape1 & Hidle1 & Hok1 & Hcells1).
    destruct (IH s1 Hshape1 Hidle1)
      as (s2 & o2 & Hops & Hshape2 & Hidle2 & Hok2 & Hcells2).
    exists s2, (o1 ++ o2). simpl.
    split; [eapply bind_Some; eauto|].
    split; [exact Hshape2|]. split; [exact Hidle2|].
    split; [now apply Forall_app|].
    intros r c swtch Hsw.
    destruct (Hcells1 r c swtch Hsw) as (sw1 & Hsw1 & Hk1).
    destruct (Hcells2 r c sw1 Hsw1) as (sw2 & Hsw2 & Hk2).
    exists sw2. split; [exact Hsw2|]. tauto.
Qed.

(** ** Settling after a transition *)

Lemma transition_settled swtch :
  transitions swtch = true -> settled_as 0 (latch swtch).
Proof.
  unfold transitions. intros Ht.
  destruct (closes swtch) eqn:Hc.
  - rewrite closes_latch by exact Hc. left. now split.
  - simpl in Ht. rewrite opens_latch by exact Ht. right. now split.
Qed.

Lemma settle_step j swtch value :
  (0 <= j < 4)%Z -> settled_as j swtch ->
  let sampled := sample_switch true value swtch in
  transitions sampled = false
  /\ settled_as (j + 1) (cell_pass true value swtch)
  /\ state (cell_pass true value swtch) = state swtch.
Proof.
  intros Hj Hs sampled.
  assert (Hcases : (j = 0 \/ j = 1 \/ j = 2 \/ j = 3)%Z) by lia.
  assert (Hquiet : transitions sampled = false
                   /\ sample_buffer sampled
                      = (sample_buffer swtch + 32)%Z).
  { subst sampled. destruct swtch as [sc st sb].
    destruct Hs as [[Hst Hsb]|[Hst Hsb]]; simpl in Hst, Hsb; subst st sb;
      destruct Hcases as [-> | [-> | [-> | ->]]]; destruct value;
      split; reflexivity. }
  destruct Hquiet as [Hq Hsb].
  unfold transitions in Hq. apply orb_false_iff in Hq as [Hc Ho].
  split; [unfold transitions; now rewrite Hc, Ho|].
  unfold cell_pass. fold sampled. rewrite quiet_latch by assumption.
  split; [|apply sample_switch_state].
  unfold settled_as. subst sampled.
  rewrite sample_switch_state, Hsb.
  destruct Hs as [[Hst ->]|[Hst ->]]; [left|right]; split;
    try assumption; lia.
Qed.

Lemma settled_counter j swtch :
  (0 <= j < 4)%Z -> settled_as j swtch ->
  settle_counter (sample_buffer swtch) = j.
Proof.
  intros Hj Hs.
  assert (Hcases : (j = 0 \/ j = 1 \/ j = 2 \/ j = 3)%Z) by lia.
  destruct Hs as [[_ ->]|[_ ->]];
    destruct Hcases as [-> | [-> | [-> | ->]]]; reflexivity.
Qed.

Lemma scans_settling r c reads :
  forall j s swtch,
    0 < EVENT_BUFFER_SIZE -> shape s -> idle s ->
    m_enable_software_debounce s = true ->
    cell_at s r c = Some swtch -> settled_as j swtch ->
    (0 <= j)%Z -> (j + Z.of_nat (length reads) <= 4)%Z ->
    exists s2 o2 sw2,
      scans reads s = Some (tt, s2, o2)
      /\ cell_at s2 r c = Some sw2
      /\ settled_as (j + Z.of_nat (length reads)) sw2
      /\ state sw2 = state swtch.
Proof.
  induction reads as [|dr reads IH];
    intros j s swtch HN Hshape Hidle Hdb Hsw Hs Hj Hlen.
  - exists s, [], swtch. simpl. rewrite Z.add_0_r. auto.
  - simpl length in *.
    destruct (scan_calls_ok dr s HN Hshape Hidle)
      as (s1 & o1 & Hscan & Hshape1 & Hidle1 & Hcfg1 & Hmap1 & _).
    rewrite Hdb in Hmap1.
    pose proof (cell_at_pass_map _ _ _ _ r c Hmap1) as Hsw1.
    rewrite Hsw in Hsw1. simpl in Hsw1.
    destruct (settle_step j swtch (dr r c)) as (_ & Hs1 & Hst1);
      [lia|exact Hs|].
    assert (Hdb1 : m_enable_software_debounce s1 = true)
      by (destruct Hcfg1 as (_&_&_&_&_&->); exact Hdb).
    destruct (IH (j + 1)%Z s1 (cell_pass true (dr r c) swtch)
                HN Hshape1 Hidle1 Hdb1 Hsw1 Hs1)
      as (s2 & o2 & sw2 & Hrun & Hsw2 & Hs2 & Hst2); [lia|lia|].
    exists s2, (o1 ++ o2), sw2.
    split; [unfold scans; simpl; eapply bind_Some; eauto|].
    split; [exact Hsw2|].
    split; [|congruence].
    replace (j + Z.of_nat (S (length reads)))%Z
      with (j + 1 + Z.of_nat (length reads))%Z by lia.
    exact Hs2.
Qed.

(** ** What a pass delivers *)

Lemma pass_events_elem q debounce digitalRead s r c swtch :
  cell_at s r c = Some swtch ->
  q (sample_switch debounce (digitalRead r c) swtch) = true ->
  In (scancode swtch) (pass_events q debounce digitalRead (m_switch_map s)).
Proof.
  unfold cell_at. intros Hcell Hq.
  destruct (m_switch_map s !! r) as [row|] eqn:Hrow; [|discriminate].
  simpl in Hcell. unfold pass_events. apply in_concat.
  exists (row_events q debounce (digitalRead r) row). split.
  - apply list_elem_of_In, list_elem_of_lookup. exists r.
    now rewrite list_lookup_imap, Hrow.
  - unfold row_events. apply in_concat.
    exists [scancode swtch]. split; [|now left].
    apply list_elem_of_In, list_elem_of_lookup. exists c.
    now rewrite list_lookup_imap, Hcell; simpl; rewrite Hq.
Qed.

Lemma pending_length (buf : list Z) len :
  len < EVENT_BUFFER_SIZE -> length buf = EVENT_BUFFER_SIZE ->
  length (take len buf) = len.
Proof. intros Hlen Hbuf. rewrite length_take. lia. Qed.

(** With a handler registered, the invocations of a pass carry exactly
    the queued scancodes, in order. *)
Lemma delivered h calls_mid (buf : list Z) len evs :
  queue_inv h calls_mid [] (take len buf) evs -> is_Some h ->
  len < EVENT_BUFFER_SIZE -> length buf = EVENT_BUFFER_SIZE ->
  concat (payload <$> (calls_mid
                       ++ if decide (0 < len) then [(buf, len)] else []))
  = evs.
Proof.
  intros (_ & Hs & _) Hh Hlen Hbuf. specialize (Hs Hh). simpl in Hs.
  rewrite fmap_app, concat_app, <- Hs. f_equal.
  destruct (decide (0 < len)) as [Hp|Hp]; simpl.
  - now rewrite app_nil_r.
  - replace len with 0 by lia. reflexivity.
Qed.

Lemma two_invocations_intro h calls_mid (buf : list Z) len evs :
  queue_inv h calls_mid [] (take len buf) evs -> is_Some h ->
  len < EVENT_BUFFER_SIZE -> length buf = EVENT_BUFFER_SIZE ->
  length evs = EVENT_BUFFER_SIZE + 1 ->
  two_invocations calls_mid (if decide (0 < len) then [(buf, len)] else [])
    evs.
Proof.
  intros (Hf & Hs & _) Hh Hlen Hbuf Hevs. specialize (Hs Hh).
  simpl in Hs.
  pose proof (pending_length buf len Hlen Hbuf) as Hpl.
  assert (Hpay : forall call,
            call.2 = EVENT_BUFFER_SIZE /\ length call.1 = EVENT_BUFFER_SIZE ->
            length (payload call) = EVENT_BUFFER_SIZE).
  { intros [b n] [Hn Hb]. simpl in *. unfold payload. simpl.
    rewrite length_take. lia. }
  assert (Hlens : length (concat (payload <$> calls_mid)) + len
                  = EVENT_BUFFER_SIZE + 1).
  { rewrite <- Hevs, <- Hs, length_app. lia. }
  destruct calls_mid as [|[b1 n1] [|[b2 n2] [|c3 rest]]].
  - simpl in Hlens. lia.
  - apply Forall_cons in Hf as [[Hn1 Hb1] _]. simpl in Hn1, Hb1. subst n1.
    simpl in Hlens. rewrite app_nil_r in Hlens.
    rewrite (Hpay (b1, EVENT_BUFFER_SIZE)) in Hlens by (split; auto).
    assert (len = 1) as -> by lia.
    destruct (decide (0 < 1)) as [_|?]; [|lia].
    exists b1, buf. simpl in Hs. rewrite app_nil_r in Hs.
    repeat split; auto; lia.
  - apply Forall_cons in Hf as [[Hn1 Hb1] Hf].
    apply Forall_cons in Hf as [[Hn2 Hb2] _].
    simpl in Hn1, Hb1, Hn2, Hb2. subst n1 n2.
    simpl in Hlens. rewrite app_nil_r, length_app in Hlens.
    rewrite !(Hpay (_, EVENT_BUFFER_SIZE)) in Hlens by (split; auto).
    assert (HN1 : EVENT_BUFFER_SIZE = 1) by lia.
    assert (len = 0) as -> by lia.
    destruct (decide (0 < 0)) as [?|_]; [lia|].
    exists b1, b2. simpl in Hs. rewrite !app_nil_r in Hs.
    unfold payload in Hs. simpl in Hs. rewrite app_nil_r.
    split; [now rewrite HN1|]. split; [auto|]. split; [auto|].
    split; [rewrite HN1 in Hs |- *; exact Hs|].
    split; [lia|]. intros _. now rewrite HN1.
  - apply Forall_cons in Hf as [H1 Hf]. apply Forall_cons in Hf as [H2 Hf].
    apply Forall_cons in Hf as [H3 _].
    simpl in Hlens. rewrite !length_app in Hlens.
    rewrite (Hpay _ H1), (Hpay _ H2), (Hpay _ H3) in Hlens. lia.
Qed.

Lemma handleSwitchState_closes swtch s :
  closes swtch = true ->
  m_scancode_event_buffer_closed_len s
    < length (m_scancode_event_buffer_closed s) ->
  handleSwitchState swtch s =
    Some (mkSwitchDef (scancode swtch) CLOSED 31, true,
          with_closed s
            (<[m_scancode_event_buffer_closed_len s := scancode swtch]>
               (m_scancode_event_buffer_closed s))
            (S (m_scancode_event_buffer_closed_len s)),
          []).
Proof.
  intros Hc Hlen. rewrite <- (closes_latch swtch Hc).
  unfold handleSwitchState, latch. unfold closes in Hc |- *. rewrite Hc.
  unfold append_closed_event, bind, gets, lift, modify, ret, array_store.
  simpl. destruct (decide _) as [_|Hn]; [reflexivity | contradiction].
Qed.

(** ** Which open transitions are queued *)

(** An open transition is queued only when the record was UNKNOWN. *)
Lemma opens_queued_iff swtch :
  opens_queued swtch = true <-> opens swtch = true /\ state swtch = UNKNOWN.
Proof.
  unfold opens_queued. rewrite andb_true_iff, SwitchState_eqb_eq. tauto.
Qed.

(** The first pass over a freshly constructed record that reads as
    released queues its scancode for the open-handler. *)
Lemma initial_release_is_queued debounce sc :
  opens_queued (sample_switch debounce HIGH (mkSwitchDef sc UNKNOWN 0))
  = true.
Proof. destruct debounce; reflexivity. Qed.

Lemma concat_all_nil {A} (ls : list (list A)) :
  Forall (fun l => l = []) ls -> concat ls = [].
Proof. induction 1 as [|l ls -> _ IH]; [reflexivity|exact IH]. Qed.

Lemma pass_events_nil q debounce digitalRead s :
  (forall r c swtch, cell_at s r c = Some swtch ->
     q (sample_switch debounce (digitalRead r c) swtch) = false) ->
  pass_events q debounce digitalRead (m_switch_map s) = [].
Proof.
  intros Hq. unfold pass_events. apply concat_all_nil, Forall_lookup.
  intros r l. rewrite list_lookup_imap.
  destruct (m_switch_map s !! r) as [row|] eqn:Hrow; [|discriminate].
  simpl. intros [= <-]. unfold row_events.
  apply concat_all_nil, Forall_lookup.
  intros c l. rewrite list_lookup_imap.
  destruct (row !! c) as [swtch|] eqn:Hsw; [|discriminate].
  simpl. intros [= <-]. rewrite (Hq r c swtch); [reflexivity|].
  unfold cell_at. now rewrite Hrow.
Qed.

(** Once every record has left UNKNOWN, no pass ever invokes the
    open-handler: a release of a CLOSED switch is latched but not
    reported. *)
Lemma open_handler_silent_once_latched digitalRead s0 :
  0 < EVENT_BUFFER_SIZE -> shape s0 -> idle s0 ->
  (forall r c swtch, cell_at s0 r c = Some swtch -> state swtch <> UNKNOWN) ->
  exists s' out,
    scan digitalRead s0 = Some (tt, s', out) /\ opened_calls out = [].
Proof.
  intros HN Hshape Hidle Hknown.
  destruct (scan_spec digitalRead s0 HN Hshape Hidle)
    as (s_mid & out_mid & s' & _ & Hscan & Hready & Hcfg & _ & Hqo & _).
  exists s', (out_mid ++ end_calls s_mid). split; [exact Hscan|].
  rewrite pass_events_nil in Hqo.
  2:{ intros r c swtch Hsw. apply not_true_is_false. intros Hq.
      apply opens_queued_iff in Hq as [_ Hu].
      rewrite sample_switch_state in Hu. exact (Hknown r c swtch Hsw Hu). }
  destruct Hready as ((_ & _ & _ & _ & Hob & _) & _ & Hol).
  destruct Hcfg as (_ & _ & _ & Hho & _).
  destruct (end_calls_projections s_mid) as (_ & Heo).
  rewrite opened_calls_app, Heo, Hho.
  destruct Hqo as (Hf & Hs & Hn).
  destruct (m_switchhandler_open s0) as [f|].
  - specialize (Hs (ex_intro _ f eq_refl)). simpl in Hs.
    apply app_eq_nil in Hs as [Hcalls Hpend].
    assert (Hlen0 : m_scancode_event_buffer_opened_len s_mid = 0).
    { rewrite <- (pending_length (m_scancode_event_buffer_opened s_mid)
                    (m_scancode_event_buffer_opened_len s_mid) Hol Hob).
      unfold pending_opened in Hpend. now rewrite Hpend. }
    rewrite Hlen0. simpl. rewrite app_nil_r.
    destruct (opened_calls out_mid) as [|[b n] rest]; [reflexivity|].
    apply Forall_cons in Hf as [[Hn1 Hb1] _]. simpl in Hn1, Hb1, Hcalls.
    apply app_eq_nil in Hcalls as [Hp _].
    apply (f_equal length) in Hp. unfold payload in Hp. simpl in Hp.
    rewrite length_take in Hp. lia.
  - rewrite (Hn eq_refl). now destruct (decide _).
Qed.


(** * The claims *)

(** C4. With debounce enabled, one debounce step on any sample-history
    byte: while the settle counter is below the saturation threshold (4)
    the step adds exactly one to it and leaves the sample window as it
    is; when the settle counter equals the threshold the step shifts the
    sample window left by one bit inside its 5-bit field, puts the new raw
    sample in the lowest bit, and leaves the settle counter at the
    threshold. *)
Theorem C4_debounce_step swtch value :
  (0 <= sample_buffer swtch < 256)%Z ->
  let pressed := Level_eqb value LOW in
  let swtch' := sample_switch true value swtch in
  let b := sample_buffer swtch in
  let b' := sample_buffer swtch' in
  swtch' = handleSoftwareDebounce swtch pressed
  /\ scancode swtch' = scancode swtch /\ state swtch' = state swtch
  /\ ((settle_counter b < DebounceSettleCount)%Z ->
       settle_counter b' = (settle_counter b + 1)%Z
       /\ sample_window b' = sample_window b)
  /\ (settle_counter b = DebounceSettleCount ->
       settle_counter b' = DebounceSettleCount
       /\ sample_window b'
          = ((sample_window b * 2) mod 2 ^ DebounceSampleBits
             + Z.b2z pressed)%Z
       /\ Z.testbit (sample_window b') 0 = pressed
       /\ forall i, (0 <= i < 4)%Z ->
            Z.testbit (sample_window b') (i + 1)
            = Z.testbit (sample_window b) i).
Proof.
  intros Hb pressed swtch' b b'.
  split; [reflexivity|].
  split; [apply sample_switch_scancode|].
  split; [apply sample_switch_state|].
  pose proof (debounce_step_ok_all pressed b Hb) as Hok.
  assert (Hb' : b' = debounce_byte b pressed).
  { subst b' swtch'. unfold sample_switch. fold pressed.
    now rewrite handleSoftwareDebounce_eq. }
  unfold debounce_step_ok in Hok. cbv zeta in Hok.
  rewrite <- Hb' in Hok. clearbody b b'. clear Hb'.
  apply andb_true_iff in Hok as [Hlow Hsat]. split.
  - intros Hlt. apply Z.ltb_lt in Hlt. rewrite Hlt in Hlow.
    apply andb_true_iff in Hlow as [H1 H2].
    now apply Z.eqb_eq in H1, H2.
  - intros Heq. apply Z.eqb_eq in Heq. rewrite Heq in Hsat.
    apply andb_true_iff in Hsat as [Hsat Hbits].
    apply andb_true_iff in Hsat as [Hsat Hbit0].
    apply andb_true_iff in Hsat as [H1 H2].
    apply Z.eqb_eq in H1, H2. apply Bool.eqb_prop in Hbit0.
    repeat (split; [assumption|]).
    intros i Hi. rewrite forallb_forall in Hbits.
    apply Bool.eqb_prop, Hbits.
    assert (i = 0 \/ i = 1 \/ i = 2 \/ i = 3)%Z as Hcases by lia.
    destruct Hcases as [Hi0|[Hi0|[Hi0|Hi0]]]; subst i; simpl; tauto.
Qed.

(** C5 (amended). For every record that transitions to CLOSED in a pass
    (the sampled record passes the closing test of [handleSwitchState]):
    the transition latches state CLOSED, writes the record's scancode at
    the end of the closed-event buffer and counts it, and clears the
    settle-counter bits of the sample history, which starts a fresh
    settle period, while the sample window keeps the all-ones value it
    had (it is not reset to 0).  After the pass the record in the map is
    CLOSED with that sample history, and with a handler registered its
    scancode is among those handed over in the pass. *)
Theorem C5_close_transition digitalRead s0 r c swtch :
  0 < EVENT_BUFFER_SIZE -> shape s0 -> idle s0 ->
  cell_at s0 r c = Some swtch ->
  let debounce := m_enable_software_debounce s0 in
  let sampled := sample_switch debounce (digitalRead r c) swtch in
  closes sampled = true ->
  let latched := mkSwitchDef (scancode swtch) CLOSED 31 in
  (forall s,
     m_scancode_event_buffer_closed_len s
       < length (m_scancode_event_buffer_closed s) ->
     exists s',
       handleSwitchState sampled s = Some (latched, true, s', [])
       /\ m_scancode_event_buffer_closed s'
            !! m_scancode_event_buffer_closed_len s
          = Some (scancode swtch)
       /\ m_scancode_event_buffer_closed_len s'
          = S (m_scancode_event_buffer_closed_len s)
       /\ pending_closed s' = pending_closed s ++ [scancode swtch])
  /\ settle_counter (sample_buffer latched) = 0%Z
  /\ sample_window (sample_buffer latched)
     = sample_window (sample_buffer sampled)
  /\ sample_window (sample_buffer latched) = DebounceSampleMask
  /\ exists s' out,
       scan digitalRead s0 = Some (tt, s', out)
       /\ cell_at s' r c = Some latched
       /\ In (scancode swtch)
            (pass_events closes debounce digitalRead (m_switch_map s0))
       /\ (is_Some (m_switchhandler_closed s0) ->
           In (scancode swtch) (concat (payload <$> closed_calls out))).
Proof.
  intros HN Hshape Hidle Hcell debounce sampled Hc latched.
  assert (Hsc : scancode sampled = scancode swtch)
    by apply sample_switch_scancode.
  split.
  { intros s Hlen. eexists. split.
    - rewrite (handleSwitchState_closes sampled s Hc Hlen), Hsc.
      reflexivity.
    - simpl. split; [now apply list_lookup_insert_eq|].
      split; [reflexivity|].
      unfold pending_closed. simpl.
      rewrite (take_S_r _ _ (scancode swtch))
        by (now apply list_lookup_insert_eq).
      now rewrite take_insert_ge by lia. }
  split; [reflexivity|].
  assert (Hw : sample_window (sample_buffer sampled) = DebounceSampleMask).
  { unfold closes, is_closed in Hc. apply andb_true_iff in Hc as [Hw _].
    now apply Z.eqb_eq in Hw. }
  split; [now rewrite Hw|]. split; [reflexivity|].
  destruct (scan_spec digitalRead s0 HN Hshape Hidle)
    as (s_mid & out_mid & s' & _ & Hscan & Hready & Hcfg & Hqc & _
        & _ & _ & _ & Hmap).
  exists s', (out_mid ++ end_calls s_mid).
  split; [exact Hscan|].
  split.
  { rewrite (cell_at_pass_map _ _ _ _ r c Hmap), Hcell. simpl.
    unfold cell_pass. fold debounce sampled.
    now rewrite (closes_latch sampled Hc), Hsc. }
  pose proof (pass_events_elem closes debounce digitalRead s0 r c swtch
                Hcell Hc) as Hin.
  split; [exact Hin|].
  intros Hh.
  destruct Hready as ((_ & _ & _ & _ & _ & Hcb) & Hcl & _).
  destruct Hcfg as (_ & _ & Hhc & _).
  destruct (end_calls_projections s_mid) as (Hec & _).
  rewrite closed_calls_app, Hec, Hhc.
  destruct Hh as [f Hf]. rewrite Hf.
  rewrite (delivered (Some f) (closed_calls out_mid)
             (m_scancode_event_buffer_closed s_mid)
             (m_scancode_event_buffer_closed_len s_mid)
             (pass_events closes debounce digitalRead (m_switch_map s0)));
    auto.
  now rewrite <- Hf.
Qed.

(** C6. For every uint16_t scancode, [isSwitchClosed] returns false for
    scancode 0 and for every scancode above R*C, and for a scancode in
    [1, R*C] it returns true exactly when the record at row (s-1)/C,
    column (s-1) mod C is latched CLOSED; in every case the scanner is
    left as it was and nothing outside is called. *)
Theorem C6_isSwitchClosed s scancode :
  shape s ->
  (0 <= scancode < 2 ^ 16)%Z ->
  ((scancode = 0 \/ Z.of_nat (ROW_COUNT * COL_COUNT) < scancode)%Z ->
     isSwitchClosed scancode s = Some (false, s, []))
  /\ ((1 <= scancode <= Z.of_nat (ROW_COUNT * COL_COUNT))%Z ->
      exists swtch b,
        cell_at s (Z.to_nat ((scancode - 1) / Z.of_nat COL_COUNT))
                  (Z.to_nat ((scancode - 1) mod Z.of_nat COL_COUNT))
          = Some swtch
        /\ isSwitchClosed scancode s = Some (b, s, [])
        /\ (b = true <-> state swtch = CLOSED)).
Proof.
  intros Hshape Hrange. split.
  - intros [->|Hbig]; [reflexivity|].
    unfold isSwitchClosed.
    destruct (Z.eqb_spec scancode 0%Z) as [?|_]; [reflexivity|].
    rewrite (u16_small (scancode - 1)) by lia.
    destruct (Z.leb_spec (Z.of_nat (ROW_COUNT * COL_COUNT)) (scancode - 1))
      as [_|?]; [reflexivity|lia].
  - intros Hin.
    assert (Hidx : u16 (scancode - 1) = (scancode - 1)%Z)
      by (apply u16_small; lia).
    destruct (isSwitchClosed_index s scancode Hshape) as (swtch & Hsw & Hq);
      [lia|rewrite Hidx; lia|].
    rewrite Hidx in Hsw.
    exists swtch, (SwitchState_eqb (state swtch) CLOSED).
    split; [exact Hsw|]. split; [exact Hq|]. apply SwitchState_eqb_eq.
Qed.

(** C7. Construction numbers the records 1, ..., R*C in row-major order
    (the record at row r, column c gets r*C + c + 1, so every scancode of
    that range is given to exactly one record), leaves every record
    UNKNOWN with sample history 0, and [isSwitchClosed] is false for every
    scancode right after construction.  The bound on R*C is the
    [static_assert] of the class template. *)
Theorem C7_construct row_pins column_pins enable_pullups debounce :
  0 < ROW_COUNT -> 0 < COL_COUNT ->
  (Z.of_nat (ROW_COUNT * COL_COUNT) < ScanCodeMax - 1)%Z ->
  length row_pins = ROW_COUNT -> length column_pins = COL_COUNT ->
  let s := construct row_pins column_pins enable_pullups debounce in
  (forall r c swtch,
     cell_at s r c = Some swtch <->
     r < ROW_COUNT /\ c < COL_COUNT
     /\ swtch = mkSwitchDef (Z.of_nat (r * COL_COUNT + c + 1)) UNKNOWN 0)
  /\ scancode <$> concat (m_switch_map s)
     = seqZ 1 (Z.of_nat (ROW_COUNT * COL_COUNT))
  /\ (forall scancode, isSwitchClosed scancode s = Some (false, s, [])).
Proof.
  intros _ _ Hmax Hrp Hcp s.
  assert (Hcell : forall r c swtch,
     cell_at s r c = Some swtch <->
     r < ROW_COUNT /\ c < COL_COUNT
     /\ swtch = mkSwitchDef (Z.of_nat (r * COL_COUNT + c + 1)) UNKNOWN 0).
  { intros r c swtch. subst s. rewrite construct_cell_at.
    unfold ScanCodeMax in Hmax.
    destruct (decide _) as [[Hr Hc]|Hn].
    - rewrite u16_small by nia.
      replace (1 + Z.of_nat (r * COL_COUNT + c))%Z
        with (Z.of_nat (r * COL_COUNT + c + 1)) by lia.
      split; [intros [= <-]; auto|intros (_ & _ & ->); reflexivity].
    - split; [discriminate|]. intros (Hr & Hc & _). tauto. }
  split; [exact Hcell|].
  split; [now apply construct_scancodes|].
  intros scancode.
  destruct (construct_shape row_pins column_pins enable_pullups debounce
              Hrp Hcp) as [Hshape _]. fold s in Hshape.
  destruct (Z.eq_dec scancode 0%Z) as [->|Hnz]; [reflexivity|].
  destruct (Z_lt_le_dec (u16 (scancode - 1))
              (Z.of_nat (ROW_COUNT * COL_COUNT))) as [Hlt|Hge].
  - destruct (isSwitchClosed_index s scancode Hshape Hnz Hlt)
      as (swtch & Hsw & Hq).
    apply Hcell in Hsw as (_ & _ & ->). exact Hq.
  - unfold isSwitchClosed.
    destruct (Z.eqb_spec scancode 0%Z) as [?|_]; [contradiction|].
    destruct (Z.leb_spec (Z.of_nat (ROW_COUNT * COL_COUNT))
                (u16 (scancode - 1))) as [_|?]; [reflexivity|lia].
Qed.

(** C8. No call of the public interface ([setup], [scan],
    [isSwitchClosed]) turns a record that is OPEN or CLOSED back into
    UNKNOWN: along every sequence of calls from an idle scanner, which
    always runs to completion, a record whose state is not UNKNOWN is
    still not UNKNOWN at the end. *)
Theorem C8_unknown_never_reentered ops s r c swtch :
  0 < EVENT_BUFFER_SIZE -> shape s -> idle s ->
  cell_at s r c = Some swtch -> state swtch <> UNKNOWN ->
  exists s' out swtch',
    execs ops s = Some (tt, s', out)
    /\ cell_at s' r c = Some swtch'
    /\ state swtch' <> UNKNOWN.
Proof.
  intros HN Hshape Hidle Hsw Hknown.
  destruct (execs_ok ops s HN Hshape Hidle)
    as (s' & out & Hrun & _ & _ & _ & Hcells).
  destruct (Hcells r c swtch Hsw) as (swtch' & Hsw' & Hk).
  exists s', out, swtch'. auto.
Qed.

(** C9. In every execution, that is every sequence of calls of the public
    interface on a freshly constructed scanner, each invocation of the
    closed-handler or of the open-handler, from a flush during a pass or
    from the flush that ends it, has a count of at least 1 and at most
    EVENT_BUFFER_SIZE; and every such execution runs to completion. *)
Theorem C9_handler_count_in_range row_pins column_pins enable_pullups
    debounce ops :
  0 < EVENT_BUFFER_SIZE ->
  length row_pins = ROW_COUNT -> length column_pins = COL_COUNT ->
  exists s' out,
    execs ops (construct row_pins column_pins enable_pullups debounce)
      = Some (tt, s', out)
    /\ forall e n, e ∈ out -> call_count e = Some n ->
         1 <= n <= EVENT_BUFFER_SIZE.
Proof.
  intros HN Hrp Hcp.
  destruct (construct_shape row_pins column_pins enable_pullups debounce
              Hrp Hcp) as [Hshape Hidle].
  destruct (execs_ok ops _ HN Hshape Hidle)
    as (s' & out & Hrun & _ & _ & Hok & _).
  exists s', out. split; [exact Hrun|].
  intros e n He Hn. rewrite Forall_forall in Hok. exact (Hok e He n Hn).
Qed.

(** C10. With software debounce enabled, a record that transitions (to
    CLOSED or to OPEN) in some pass does not transition in any of the
    next four passes: the transition leaves the settle counter at 0 and
    the sample window uniform in the direction of the new state, and
    whatever is read in the fewer than four passes [reads] that follow,
    the record keeps its latched state, its settle counter is still below
    saturation, and the pass after them, reading [digitalRead], takes no
    branch of [handleSwitchState] for it. *)
Theorem C10_no_transition_while_settling digitalRead0 s0 r c swtch
    reads digitalRead :
  0 < EVENT_BUFFER_SIZE -> shape s0 -> idle s0 ->
  m_enable_software_debounce s0 = true ->
  cell_at s0 r c = Some swtch ->
  transitions (sample_switch true (digitalRead0 r c) swtch) = true ->
  length reads < 4 ->
  exists s1 o1 sw1 s2 o2 sw2,
    scan digitalRead0 s0 = Some (tt, s1, o1)
    /\ cell_at s1 r c = Some sw1
    /\ state sw1 <> state swtch
    /\ settle_counter (sample_buffer sw1) = 0%Z
    /\ ((state sw1 = CLOSED
         /\ sample_window (sample_buffer sw1) = DebounceSampleMask)
        \/ (state sw1 = OPEN /\ sample_window (sample_buffer sw1) = 0%Z))
    /\ scans reads s1 = Some (tt, s2, o2)
    /\ cell_at s2 r c = Some sw2
    /\ state sw2 = state sw1
    /\ (settle_counter (sample_buffer sw2) < DebounceSettleCount)%Z
    /\ transitions (sample_switch true (digitalRead r c) sw2) = false
    /\ state (cell_pass true (digitalRead r c) sw2) = state sw1.
Proof.
  intros HN Hshape Hidle Hdb Hsw Htr Hlen.
  destruct (scan_calls_ok digitalRead0 s0 HN Hshape Hidle)
    as (s1 & o1 & Hscan & Hshape1 & Hidle1 & Hcfg1 & Hmap1 & _).
  rewrite Hdb in Hmap1.
  pose proof (cell_at_pass_map _ _ _ _ r c Hmap1) as Hsw1.
  rewrite Hsw in Hsw1. simpl in Hsw1.
  set (sampled := sample_switch true (digitalRead0 r c) swtch) in *.
  pose proof (transition_settled sampled Htr) as Hs1.
  assert (Hchg : state (latch sampled) <> state swtch).
  { unfold transitions in Htr. destruct (closes sampled) eqn:Hc.
    - rewrite closes_latch by exact Hc. simpl.
      unfold closes in Hc. apply andb_true_iff in Hc as [_ Hc].
      apply negb_true_iff, SwitchState_eqb_neq in Hc.
      subst sampled. rewrite sample_switch_state in Hc. congruence.
    - simpl in Htr. rewrite opens_latch by exact Htr. simpl.
      unfold opens in Htr. apply andb_true_iff in Htr as [_ Ho].
      apply andb_true_iff in Ho as [_ Ho].
      apply negb_true_iff, SwitchState_eqb_neq in Ho.
      subst sampled. rewrite sample_switch_state in Ho. congruence. }
  unfold cell_pass in Hsw1. fold sampled in Hsw1.
  generalize dependent (latch sampled). intros sw1 Hsw1 Hs1 Hchg.
  assert (Hdb1 : m_enable_software_debounce s1 = true)
    by (destruct Hcfg1 as (_&_&_&_&_&->); exact Hdb).
  destruct (scans_settling r c reads 0%Z s1 sw1 HN Hshape1 Hidle1 Hdb1
              Hsw1 Hs1) as (s2 & o2 & sw2 & Hrun & Hsw2 & Hs2 & Hst2);
    [lia|lia|].
  rewrite Z.add_0_l in Hs2.
  destruct (settle_step (Z.of_nat (length reads)) sw2 (digitalRead r c))
    as (Hquiet & _ & Hkeep); [lia|exact Hs2|].
  exists s1, o1, sw1, s2, o2, sw2.
  split; [exact Hscan|]. split; [exact Hsw1|]. split; [exact Hchg|].
  split; [apply (settled_counter 0 sw1); [lia|exact Hs1]|].
  split.
  { destruct Hs1 as [[Hst Hb]|[Hst Hb]]; [left|right]; split;
      try assumption; rewrite Hb; reflexivity. }
  split; [exact Hrun|]. split; [exact Hsw2|]. split; [exact Hst2|].
  split.
  { rewrite (settled_counter (Z.of_nat (length reads)) sw2);
      [unfold DebounceSettleCount; lia|lia|exact Hs2]. }
  split; [exact Hquiet|congruence].
Qed.

(** * Further properties of the scanner *)

(** X23. Overflow of an event buffer. For each of the two event buffers,
    of capacity N = EVENT_BUFFER_SIZE, and every pass from an idle scanner
    that queues N + 1 scancodes in it (every transition to CLOSED queues
    one in the closed buffer; the open buffer gets the transitions to OPEN
    that [handleSwitchState] queues, those from UNKNOWN) with a handler
    registered: the pass runs to completion, so no write into a buffer
    array falls outside it, the count is below N again after every cell
    and 0 at the end, and the handler is invoked exactly twice, the two
    invocations carrying the queued scancodes once each and in order.
    When N >= 2 the first invocation is a flush at capacity during the
    row loop and the second is the flush that ends the pass; when N = 1
    both are flushes at capacity during the row loop and the flush that
    ends the pass finds the buffer empty. *)
Theorem X23_overflow_two_invocations digitalRead s0 :
  0 < EVENT_BUFFER_SIZE -> shape s0 -> idle s0 ->
  let debounce := m_enable_software_debounce s0 in
  let closings := pass_events closes debounce digitalRead (m_switch_map s0) in
  let openings :=
    pass_events opens_queued debounce digitalRead (m_switch_map s0) in
  exists s_mid out_mid s',
    scan_rows digitalRead s0 = Some (tt, s_mid, out_mid)
    /\ scan digitalRead s0 = Some (tt, s', out_mid ++ end_calls s_mid)
    /\ m_scancode_event_buffer_closed_len s_mid < EVENT_BUFFER_SIZE
    /\ m_scancode_event_buffer_opened_len s_mid < EVENT_BUFFER_SIZE
    /\ idle s'
    /\ (is_Some (m_switchhandler_closed s0) ->
        length closings = EVENT_BUFFER_SIZE + 1 ->
        two_invocations (closed_calls out_mid)
          (closed_calls (end_calls s_mid)) closings)
    /\ (is_Some (m_switchhandler_open s0) ->
        length openings = EVENT_BUFFER_SIZE + 1 ->
        two_invocations (opened_calls out_mid)
          (opened_calls (end_calls s_mid)) openings).
Proof.
  intros HN Hshape Hidle debounce closings openings.
  destruct (scan_spec digitalRead s0 HN Hshape Hidle)
    as (s_mid & out_mid & s' & Hrows & Hscan & Hready & Hcfg & Hqc & Hqo
        & _ & Hidle' & _ & _).
  destruct Hready as ((_ & _ & _ & _ & Hob & Hcb) & Hcl & Hol).
  destruct Hcfg as (_ & _ & Hhc & Hho & _).
  destruct (end_calls_projections s_mid) as (Hec & Heo).
  exists s_mid, out_mid, s'.
  repeat (split; [assumption|]). split.
  - intros Hh Hlen. rewrite Hec, Hhc. destruct Hh as [f Hf]. rewrite Hf.
    rewrite Hf in Hqc.
    apply (two_invocations_intro (Some f)); eauto.
  - intros Hh Hlen. rewrite Heo, Hho. destruct Hh as [f Hf]. rewrite Hf.
    rewrite Hf in Hqo.
    apply (two_invocations_intro (Some f)); eauto.
Qed.

(** ** One pass, record by record *)

Lemma cell_samples_nil debounce swtch : cell_samples debounce [] swtch = swtch.
Proof. reflexivity. Qed.

Lemma cell_samples_cons debounce value values swtch :
  cell_samples debounce (value :: values) swtch
  = cell_samples debounce values (cell_pass debounce value swtch).
Proof. reflexivity. Qed.

Lemma cell_samples_app debounce values1 values2 swtch :
  cell_samples debounce (values1 ++ values2) swtch
  = cell_samples debounce values2 (cell_samples debounce values1 swtch).
Proof. unfold cell_samples. apply foldl_app. Qed.

(** Consecutive passes from an idle scanner run to completion and treat
    every record on its own: by the samples read for it and nothing else. *)
Lemma scans_cells reads :
  forall s,
    0 < EVENT_BUFFER_SIZE -> shape s -> idle s ->
    exists s' out,
      scans reads s = Some (tt, s', out)
      /\ shape s' /\ idle s' /\ same_config s s'
      /\ forall r c,
           cell_at s' r c
           = cell_samples (m_enable_software_debounce s)
               (samples_at r c reads) <$> cell_at s r c.
Proof.
  induction reads as [|dr reads IH]; intros s HN Hshape Hidle.
  - exists s, []. split; [reflexivity|]. split; [exact Hshape|].
    split; [exact Hidle|]. split; [apply same_config_refl|].
    intros r c. simpl. now destruct (cell_at s r c).
  - destruct (scan_calls_ok dr s HN Hshape Hidle)
      as (s1 & o1 & Hscan & Hshape1 & Hidle1 & Hcfg1 & Hmap1 & _).
    destruct (IH s1 HN Hshape1 Hidle1)
      as (s2 & o2 & Hrun & Hshape2 & Hidle2 & Hcfg2 & Hcells).
    exists s2, (o1 ++ o2).
    split; [unfold scans; simpl; eapply bind_Some; eauto|].
    split; [exact Hshape2|]. split; [exact Hidle2|].
    split; [eapply same_config_trans; eauto|].
    intros r c. rewrite Hcells, (cell_at_pass_map _ _ _ _ r c Hmap1).
    destruct Hcfg1 as (_ & _ & _ & _ & _ & ->).
    destruct (cell_at s r c); reflexivity.
Qed.

(** The query by position: the scancode of row [r], column [c]. *)
Lemma isSwitchClosed_at s r c :
  shape s -> r < ROW_COUNT -> c < COL_COUNT ->
  (Z.of_nat (ROW_COUNT * COL_COUNT) < 65536)%Z ->
  exists swtch,
    cell_at s r c = Some swtch
    /\ isSwitchClosed (Z.of_nat (r * COL_COUNT + c + 1)) s
       = Some (SwitchState_eqb (state swtch) CLOSED, s, []).
Proof.
  intros Hshape Hr Hc Hmax.
  assert (Hidx : u16 (Z.of_nat (r * COL_COUNT + c + 1) - 1)
                 = (Z.of_nat r * Z.of_nat COL_COUNT + Z.of_nat c)%Z).
  { rewrite u16_small by nia. lia. }
  destruct (isSwitchClosed_index s (Z.of_nat (r * COL_COUNT + c + 1)) Hshape)
    as (swtch & Hsw & Hq); [lia|rewrite Hidx; nia|].
  rewrite Hidx in Hsw.
  rewrite Z.div_add_l, Z.div_small, Z.add_0_r in Hsw by lia.
  rewrite Z.add_comm, Z.mod_add, Z.mod_small in Hsw by lia.
  rewrite !Nat2Z.id in Hsw.
  exists swtch. split; [exact Hsw|exact Hq].
Qed.

Lemma cell_pass_no_debounce value swtch :
  state (cell_pass false value swtch)
  = if Level_eqb value LOW then CLOSED else OPEN.
Proof. destruct swtch as [sc st b]. destruct value, st; reflexivity. Qed.

(** X1. A pass from an idle scanner always runs to completion, leaves both
    event buffers empty and the configuration untouched, and changes every
    record by its own previous contents and its own sample only; no
    scancode changes. *)
Theorem X1_scan_pass_effect digitalRead s :
  0 < EVENT_BUFFER_SIZE -> shape s -> idle s ->
  exists s' out,
    scan digitalRead s = Some (tt, s', out)
    /\ shape s' /\ idle s' /\ same_config s s'
    /\ (forall r c,
          cell_at s' r c
          = cell_pass (m_enable_software_debounce s) (digitalRead r c)
              <$> cell_at s r c)
    /\ (forall r c swtch swtch',
          cell_at s r c = Some swtch -> cell_at s' r c = Some swtch' ->
          scancode swtch' = scancode swtch).
Proof.
  intros HN Hshape Hidle.
  destruct (scan_calls_ok digitalRead s HN Hshape Hidle)
    as (s' & out & Hscan & Hshape' & Hidle' & Hcfg & Hmap & _).
  exists s', out. repeat (split; [assumption|]).
  split.
  - intros r c. apply cell_at_pass_map. exact Hmap.
  - intros r c swtch swtch' Hsw Hsw'.
    rewrite (cell_at_pass_map _ _ _ _ r c Hmap), Hsw in Hsw'.
    injection Hsw' as <-. apply cell_pass_scancode.
Qed.

(** X2. Without software debounce the latched state follows the raw
    sample: after any pass, [isSwitchClosed] of the scancode of row r,
    column c is true exactly when that switch read LOW in the pass,
    whatever the record held before. *)
Theorem X2_no_debounce_tracks_sample digitalRead s r c :
  0 < EVENT_BUFFER_SIZE -> shape s -> idle s ->
  m_enable_software_debounce s = false ->
  r < ROW_COUNT -> c < COL_COUNT ->
  (Z.of_nat (ROW_COUNT * COL_COUNT) < ScanCodeMax - 1)%Z ->
  exists s' out,
    scan digitalRead s = Some (tt, s', out)
    /\ isSwitchClosed (Z.of_nat (r * COL_COUNT + c + 1)) s'
       = Some (Level_eqb (digitalRead r c) LOW, s', []).
Proof.
  intros HN Hshape Hidle Hdb Hr Hc Hmax.
  destruct (scan_calls_ok digitalRead s HN Hshape Hidle)
    as (s' & out & Hscan & Hshape' & _ & _ & Hmap & _).
  exists s', out. split; [exact Hscan|].
  destruct (isSwitchClosed_at s' r c Hshape' Hr Hc)
    as (swtch' & Hsw' & Hq); [unfold ScanCodeMax in Hmax; lia|].
  rewrite Hq. do 2 f_equal.
  rewrite (cell_at_pass_map _ _ _ _ r c Hmap), Hdb in Hsw'.
  destruct (cell_at s r c) as [swtch|]; [|discriminate].
  injection Hsw' as <-. rewrite cell_pass_no_debounce.
  now destruct (Level_eqb (digitalRead r c) LOW).
Qed.

(** ** What a pass hands to the handlers *)

Lemma pass_events_inv q debounce digitalRead s x :
  In x (pass_events q debounce digitalRead (m_switch_map s)) ->
  exists r c swtch,
    cell_at s r c = Some swtch
    /\ q (sample_switch debounce (digitalRead r c) swtch) = true
    /\ x = scancode swtch.
Proof.
  unfold pass_events. intros Hin. apply in_concat in Hin as (l & Hl & Hx).
  apply list_elem_of_In, list_elem_of_lookup in Hl as (r & Hl).
  rewrite list_lookup_imap in Hl.
  destruct (m_switch_map s !! r) as [row|] eqn:Hrow; [|discriminate].
  simpl in Hl. injection Hl as <-. unfold row_events in Hx.
  apply in_concat in Hx as (l & Hl & Hx).
  apply list_elem_of_In, list_elem_of_lookup in Hl as (c & Hl).
  rewrite list_lookup_imap in Hl.
  destruct (row !! c) as [swtch|] eqn:Hsw; [|discriminate].
  simpl in Hl. injection Hl as <-.
  destruct (q (sample_switch debounce (digitalRead r c) swtch)) eqn:Hq;
    [|contradiction].
  destruct Hx as [<-|[]].
  exists r, c, swtch. unfold cell_at. rewrite Hrow. auto.
Qed.

Lemma cell_at_bounds s r c swtch :
  shape s -> cell_at s r c = Some swtch -> r < ROW_COUNT /\ c < COL_COUNT.
Proof.
  intros (Hrows & Hcols & _). unfold cell_at.
  destruct (m_switch_map s !! r) as [row|] eqn:Hrow; [|discriminate].
  simpl. intros Hsw. rewrite Forall_lookup in Hcols.
  pose proof (Hcols r row Hrow). apply lookup_lt_Some in Hrow, Hsw. lia.
Qed.

Lemma end_batch (buf : list Z) len :
  len < EVENT_BUFFER_SIZE -> length buf = EVENT_BUFFER_SIZE ->
  let rest := if decide (0 < len) then [(buf, len)] else [] in
  length rest <= 1
  /\ Forall (fun call => 0 < call.2 < EVENT_BUFFER_SIZE
                         /\ length call.1 = EVENT_BUFFER_SIZE) rest.
Proof.
  intros Hlen Hbuf. destruct (decide (0 < len)); simpl.
  - split; [lia|]. repeat constructor; simpl; lia.
  - split; [lia|constructor].
Qed.

Lemma scan_delivers digitalRead s :
  0 < EVENT_BUFFER_SIZE -> shape s -> idle s ->
  let debounce := m_enable_software_debounce s in
  exists s' out,
    scan digitalRead s = Some (tt, s', out)
    /\ idle s'
    /\ (is_Some (m_switchhandler_closed s) ->
        concat (payload <$> closed_calls out)
        = pass_events closes debounce digitalRead (m_switch_map s))
    /\ (is_Some (m_switchhandler_open s) ->
        concat (payload <$> opened_calls out)
        = pass_events opens_queued debounce digitalRead (m_switch_map s))
    /\ (m_switchhandler_closed s = None -> closed_calls out = [])
    /\ (m_switchhandler_open s = None -> opened_calls out = [])
    /\ batched_calls (closed_calls out)
    /\ batched_calls (opened_calls out).
Proof.
  intros HN Hshape Hidle debounce.
  destruct (scan_spec digitalRead s HN Hshape Hidle)
    as (s_mid & out_mid & s' & _ & Hscan & Hready & Hcfg & Hqc & Hqo
        & _ & Hidle' & _ & _).
  destruct Hready as ((_ & _ & _ & _ & Hob & Hcb) & Hcl & Hol).
  destruct Hcfg as (_ & _ & Hhc & Hho & _).
  destruct (end_calls_projections s_mid) as (Hec & Heo).
  rewrite Hhc in Hec. rewrite Hho in Heo.
  exists s', (out_mid ++ end_calls s_mid).
  split; [exact Hscan|]. split; [exact Hidle'|].
  rewrite closed_calls_app, opened_calls_app, Hec, Heo.
  split; [|split; [|split; [|split; [|split]]]].
  - intros [f Hf]. rewrite Hf in Hqc |- *.
    apply (delivered (Some f)); eauto.
  - intros [f Hf]. rewrite Hf in Hqo |- *.
    apply (delivered (Some f)); eauto.
  - intros Hn. destruct Hqc as (_ & _ & Hnil). rewrite (Hnil Hn), Hn.
    now destruct (decide (0 < m_scancode_event_buffer_closed_len s_mid)).
  - intros Hn. destruct Hqo as (_ & _ & Hnil). rewrite (Hnil Hn), Hn.
    now destruct (decide (0 < m_scancode_event_buffer_opened_len s_mid)).
  - destruct Hqc as (Hfull & _ & _).
    destruct (end_batch (m_scancode_event_buffer_closed s_mid)
                (m_scancode_event_buffer_closed_len s_mid) Hcl Hcb)
      as (Hone & Hrest).
    destruct (m_switchhandler_closed s).
    + eexists _, _. split; [reflexivity|]. auto.
    + exists (closed_calls out_mid), []. split; [|split; [auto|]].
      * now destruct (decide (0 < m_scancode_event_buffer_closed_len s_mid)).
      * split; [simpl; lia|constructor].
  - destruct Hqo as (Hfull & _ & _).
    destruct (end_batch (m_scancode_event_buffer_opened s_mid)
                (m_scancode_event_buffer_opened_len s_mid) Hol Hob)
      as (Hone & Hrest).
    destruct (m_switchhandler_open s).
    + eexists _, _. split; [reflexivity|]. auto.
    + exists (opened_calls out_mid), []. split; [|split; [auto|]].
      * now destruct (decide (0 < m_scancode_event_buffer_opened_len s_mid)).
      * split; [simpl; lia|constructor].
Qed.

(** X3. Every pass from an idle scanner hands over all it queued before it
    returns: with a handler registered, the scancodes passed to it in the
    pass, read in order over its invocations, are exactly the scancodes of
    the records that closed (for the open-handler: whose opening was
    queued) in scan order, none lost, repeated or held over; every
    invocation but possibly the last carries a full buffer; and with no
    handler registered nothing is invoked. *)
Theorem X3_pass_delivers_what_it_queues digitalRead s :
  0 < EVENT_BUFFER_SIZE -> shape s -> idle s ->
  let debounce := m_enable_software_debounce s in
  exists s' out,
    scan digitalRead s = Some (tt, s', out)
    /\ idle s'
    /\ (is_Some (m_switchhandler_closed s) ->
        concat (payload <$> closed_calls out)
        = pass_events closes debounce digitalRead (m_switch_map s))
    /\ (is_Some (m_switchhandler_open s) ->
        concat (payload <$> opened_calls out)
        = pass_events opens_queued debounce digitalRead (m_switch_map s))
    /\ (m_switchhandler_closed s = None -> closed_calls out = [])
    /\ (m_switchhandler_open s = None -> opened_calls out = [])
    /\ batched_calls (closed_calls out)
    /\ batched_calls (opened_calls out).
Proof. apply scan_delivers. Qed.

(** X4. The events of a pass agree with the query after it: on a scanner
    that carries the constructor's numbering, every scancode handed to the
    closed-handler in a pass has [isSwitchClosed] true right after the
    pass, and every scancode handed to the open-handler has it false. *)
Theorem X4_events_agree_with_query digitalRead s :
  0 < EVENT_BUFFER_SIZE -> shape s -> idle s -> numbered s ->
  (Z.of_nat (ROW_COUNT * COL_COUNT) < ScanCodeMax - 1)%Z ->
  exists s' out,
    scan digitalRead s = Some (tt, s', out)
    /\ (forall x, In x (concat (payload <$> closed_calls out)) ->
          isSwitchClosed x s' = Some (true, s', []))
    /\ (forall x, In x (concat (payload <$> opened_calls out)) ->
          isSwitchClosed x s' = Some (false, s', [])).
Proof.
  intros HN Hshape Hidle Hnum Hmax.
  destruct (scan_delivers digitalRead s HN Hshape Hidle)
    as (s' & out & Hscan & _ & Hdc & Hdo & Hnc & Hno & _ & _).
  destruct (scan_calls_ok digitalRead s HN Hshape Hidle)
    as (s'' & out' & Hscan' & Hshape' & _ & _ & Hmap & _).
  rewrite Hscan in Hscan'. injection Hscan' as <- <-.
  exists s', out. split; [exact Hscan|].
  assert (Hquery : forall q x target,
    (forall swtch, q swtch = true -> state (latch swtch) = target) ->
    In x (pass_events q (m_enable_software_debounce s) digitalRead
            (m_switch_map s)) ->
    isSwitchClosed x s' = Some (SwitchState_eqb target CLOSED, s', [])).
  { intros q x target Hq Hin.
    apply pass_events_inv in Hin as (r & c & swtch & Hsw & Hqs & ->).
    destruct (cell_at_bounds s r c swtch Hshape Hsw) as [Hr Hc].
    rewrite (Hnum r c swtch Hsw).
    destruct (isSwitchClosed_at s' r c Hshape' Hr Hc)
      as (swtch' & Hsw' & Hres); [unfold ScanCodeMax in Hmax; lia|].
    rewrite (cell_at_pass_map _ _ _ _ r c Hmap), Hsw in Hsw'.
    injection Hsw' as <-. rewrite Hres. unfold cell_pass.
    now rewrite (Hq _ Hqs). }
  split.
  - intros x Hin. destruct (m_switchhandler_closed s) as [f|] eqn:Hh.
    + rewrite Hdc in Hin by eauto.
      apply (Hquery closes x CLOSED); [|exact Hin].
      intros swtch Hc. now rewrite closes_latch.
    + now rewrite (Hnc eq_refl) in Hin.
  - intros x Hin. destruct (m_switchhandler_open s) as [f|] eqn:Hh.
    + rewrite Hdo in Hin by eauto.
      apply (Hquery opens_queued x OPEN); [|exact Hin].
      intros swtch Ho. apply opens_queued_iff in Ho as [Ho _].
      now rewrite opens_latch.
    + now rewrite (Hno eq_refl) in Hin.
Qed.

(** ** What a pass does on the pins *)

Lemma gpio_calls_app o1 o2 :
  gpio_calls (o1 ++ o2) = gpio_calls o1 ++ gpio_calls o2.
Proof. apply omap_app. Qed.

Lemma gpio_calls_handler_call h mk buf len :
  (forall f b n, gpio_call (mk f b n) = None) ->
  gpio_calls (handler_call h mk buf len) = [].
Proof.
  intros Hmk. unfold handler_call. destruct h; simpl; [|reflexivity].
  now rewrite Hmk.
Qed.

Lemma gpio_calls_end_calls s : gpio_calls (end_calls s) = [].
Proof.
  unfold end_calls. rewrite gpio_calls_app.
  destruct (decide (0 < m_scancode_event_buffer_closed_len s)),
    (decide (0 < m_scancode_event_buffer_opened_len s));
    rewrite ?gpio_calls_handler_call by reflexivity; reflexivity.
Qed.

Lemma gpio_calls_enqueue h mk queued v buf len :
  (forall f b n, gpio_call (mk f b n) = None) ->
  gpio_calls (enqueue h mk queued v buf len).2 = [].
Proof.
  intros Hmk. unfold enqueue. destruct queued; [|reflexivity].
  destruct (decide _); [|reflexivity]. simpl.
  now apply gpio_calls_handler_call.
Qed.

Lemma gpio_calls_reads (pins : list Z) :
  gpio_calls (EvDigitalRead <$> pins) = EvDigitalRead <$> pins.
Proof. induction pins as [|p pins IH]; simpl; [reflexivity|]. now f_equal. Qed.

(** The pins part of the invariant of the column loop. *)
Lemma scan_cell_row_gpio digitalRead r s0 row0 i s out :
  m_switch_map s0 !! r = Some row0 ->
  length row0 = COL_COUNT ->
  i < COL_COUNT ->
  row_inv digitalRead r s0 row0 i s out ->
  gpio_calls out = EvDigitalRead <$> take i (m_col_pins s0) ->
  exists s2 o2,
    scan_cell r i (digitalRead r i) s = Some (tt, s2, o2)
    /\ row_inv digitalRead r s0 row0 (S i) s2 (out ++ o2)
    /\ gpio_calls (out ++ o2) = EvDigitalRead <$> take (S i) (m_col_pins s0).
Proof.
  intros Hrow0 Hlen0 Hi Hinv Hgpio.
  destruct (scan_cell_row_inv digitalRead r s0 row0 i s out Hrow0 Hlen0 Hi
              Hinv) as (s2 & o2 & Hrun & Hinv2).
  exists s2, o2. split; [exact Hrun|]. split; [exact Hinv2|].
  destruct Hinv as (Hready & Hcfg & Hmap & _).
  destruct Hready as ((Hrows & Hcols & Hrp & Hcp & Hob & Hcb) & Hcl & Hol).
  pose proof (lookup_lt_Some _ _ _ Hrow0) as Hr.
  destruct (lookup_lt_is_Some_2 row0 i) as [swtch Hsw]; [lia|].
  destruct (lookup_lt_is_Some_2 (m_col_pins s) i) as [colpin Hpin]; [lia|].
  set (rowI := imap (fun c swtch =>
                       if decide (c < i)
                       then cell_pass (m_enable_software_debounce s0)
                              (digitalRead r c) swtch
                       else swtch) row0) in *.
  assert (HrowI : m_switch_map s !! r = Some rowI).
  { rewrite Hmap. now apply list_lookup_insert_eq. }
  assert (HswI : rowI !! i = Some swtch).
  { unfold rowI. rewrite list_lookup_imap, Hsw. simpl.
    destruct (decide (i < i)); [lia|reflexivity]. }
  pose proof (scan_cell_spec r i (digitalRead r i) s rowI swtch colpin
                HrowI HswI Hpin Hcb Hob Hcl Hol) as Hspec.
  cbv zeta in Hspec. rewrite Hrun in Hspec. injection Hspec as _ ->.
  destruct Hcfg as (_ & Hc2 & _). rewrite Hc2 in Hpin.
  rewrite gpio_calls_app, Hgpio, (take_S_r _ _ _ Hpin), fmap_app.
  f_equal. simpl. rewrite gpio_calls_app.
  now rewrite !gpio_calls_enqueue by reflexivity.
Qed.

Lemma scan_row_gpio digitalRead r s row rowpin :
  ready s ->
  m_switch_map s !! r = Some row ->
  m_row_pins s !! r = Some rowpin ->
  forall s2 o2,
    scan_row digitalRead r s = Some (tt, s2, o2) ->
    gpio_calls o2 = row_strobe (m_col_pins s) rowpin.
Proof.
  intros Hready Hrow Hpin s2 o2 Hrun.
  pose proof Hready as ((Hrows & Hcols & Hrp & Hcp & Hob & Hcb) & Hcl & Hol).
  assert (Hlen : length row = COL_COUNT).
  { rewrite Forall_lookup in Hcols. exact (Hcols r row Hrow). }
  destruct (for_loop_inv
              (fun i s1 o => row_inv digitalRead r s row i s1 o
                 /\ gpio_calls o = EvDigitalRead <$> take i (m_col_pins s))
              (fun c => scan_cell r c (digitalRead r c)) COL_COUNT 0 s [])
    as (s1 & o1 & Hloop & _ & Hgpio).
  { split; [|reflexivity].
    split; [exact Hready|]. split; [apply same_config_refl|].
    split; [|split; apply queue_inv_start].
    symmetry. apply list_insert_id. rewrite Hrow. f_equal.
    apply list_eq. intros j. rewrite list_lookup_imap.
    destruct (row !! j); [simpl|reflexivity].
    destruct (decide (j < 0)); [lia|reflexivity]. }
  { intros i s1 o1 Hi (Hinv & Hgpio).
    destruct (scan_cell_row_gpio digitalRead r s row i s1 o1 Hrow Hlen)
      as (s3 & o3 & Hcell & Hinv3 & Hgpio3); [lia|exact Hinv|exact Hgpio|].
    exists s3, o3. auto. }
  simpl in Hgpio. rewrite take_ge in Hgpio by lia.
  unfold scan_row, bind, gets, lift, emit in Hrun. simpl in Hrun.
  rewrite Hpin, Hloop in Hrun. injection Hrun as _ <-.
  unfold row_strobe. simpl. do 2 f_equal.
  rewrite gpio_calls_app, Hgpio. reflexivity.
Qed.

(** The pins part of the invariant of the row loop. *)
Lemma scan_rows_gpio digitalRead s0 :
  ready s0 ->
  exists s out,
    scan_rows digitalRead s0 = Some (tt, s, out)
    /\ gpio_calls out = strobe_sequence (m_row_pins s0) (m_col_pins s0).
Proof.
  intros Hready. pose proof Hready as ((Hrows & _ & Hrp & _) & _).
  destruct (for_loop_inv
              (fun i s1 o => rows_inv digitalRead s0 i s1 o
                 /\ gpio_calls o
                    = strobe_sequence (take i (m_row_pins s0))
                        (m_col_pins s0))
              (scan_row digitalRead) ROW_COUNT 0 s0 [])
    as (s & out & Hloop & _ & Hgpio).
  { split; [|reflexivity].
    split; [exact Hready|]. split; [apply same_config_refl|].
    split; [|split; apply queue_inv_start].
    apply list_eq. intros j. rewrite list_lookup_imap.
    destruct (m_switch_map s0 !! j); [simpl|reflexivity].
    destruct (decide (j < 0)); [lia|reflexivity]. }
  { intros i s1 o1 Hi (Hinv & Hgpio).
    destruct (scan_row_rows_inv digitalRead s0 i s1 o1) as (s2 & o2 & Hrun
      & Hinv2); [lia|exact Hrows|exact Hinv|].
    exists s2, o2. split; [exact Hrun|]. split; [exact Hinv2|].
    destruct Hinv as (Hready1 & Hcfg & Hmap & _).
    destruct (lookup_lt_is_Some_2 (m_switch_map s0) i) as [row Hrow0]; [lia|].
    destruct (lookup_lt_is_Some_2 (m_row_pins s0) i) as [rowpin Hpin]; [lia|].
    assert (Hrow : m_switch_map s1 !! i = Some row).
    { rewrite Hmap, list_lookup_imap, Hrow0. simpl.
      destruct (decide (i < i)); [lia|reflexivity]. }
    destruct Hcfg as (Hc1 & Hc2 & _).
    rewrite gpio_calls_app, Hgpio.
    rewrite (scan_row_gpio digitalRead i s1 row rowpin Hready1 Hrow
               ltac:(now rewrite Hc1) s2 o2 Hrun).
    rewrite Hc2, (take_S_r _ _ _ Hpin). unfold strobe_sequence.
    rewrite fmap_app, concat_app. simpl. now rewrite app_nil_r. }
  simpl in Hgpio. rewrite take_ge in Hgpio by lia.
  exists s, out. split; [exact Hloop|exact Hgpio].
Qed.

Lemma scan_gpio digitalRead s :
  0 < EVENT_BUFFER_SIZE -> shape s -> idle s ->
  exists s' out,
    scan digitalRead s = Some (tt, s', out)
    /\ gpio_calls out = strobe_sequence (m_row_pins s) (m_col_pins s).
Proof.
  intros HN Hshape Hidle.
  destruct (scan_spec digitalRead s HN Hshape Hidle)
    as (s_mid & out_mid & s' & Hrows & Hscan & _).
  destruct (scan_rows_gpio digitalRead s) as (s1 & o1 & Hrows1 & Hgpio).
  { destruct Hidle as [Hc Ho]. split; [exact Hshape|]. lia. }
  rewrite Hrows in Hrows1. injection Hrows1 as <- <-.
  exists s', (out_mid ++ end_calls s_mid). split; [exact Hscan|].
  now rewrite gpio_calls_app, gpio_calls_end_calls, app_nil_r.
Qed.

Lemma strobe_sequence_length rowpins colpins :
  length (strobe_sequence rowpins colpins)
  = length rowpins * (length colpins + 3).
Proof.
  unfold strobe_sequence. induction rowpins as [|p pins IH]; [reflexivity|].
  rewrite fmap_cons, concat_cons, length_app, IH.
  unfold row_strobe. rewrite !length_app, length_fmap. simpl. lia.
Qed.

(** X5. The strobe protocol of a pass: whatever the switches do and
    whichever handlers are registered, the calls a pass makes on the pins
    are, for each row pin in array order, pinMode(row, OUTPUT),
    digitalWrite(row, LOW), one digitalRead of every column pin in array
    order, and pinMode(row, INPUT); so a row is back to high impedance
    before the next one is driven and no other pin call is made. *)
Theorem X5_strobe_sequence digitalRead s :
  0 < EVENT_BUFFER_SIZE -> shape s -> idle s ->
  exists s' out,
    scan digitalRead s = Some (tt, s', out)
    /\ gpio_calls out = strobe_sequence (m_row_pins s) (m_col_pins s)
    /\ length (gpio_calls out) = ROW_COUNT * (COL_COUNT + 3).
Proof.
  intros HN Hshape Hidle.
  destruct (scan_gpio digitalRead s HN Hshape Hidle)
    as (s' & out & Hscan & Hgpio).
  exists s', out. split; [exact Hscan|]. split; [exact Hgpio|].
  rewrite Hgpio, strobe_sequence_length.
  destruct Hshape as (_ & _ & -> & -> & _). reflexivity.
Qed.

(** X6. Handlers only listen. Registering other handlers, or none, changes
    neither the records a pass leaves behind nor its calls on the pins; a
    handler that is [nullptr] is never invoked, and its events are dropped:
    the buffers are empty after the pass all the same. *)
Theorem X6_handlers_only_listen digitalRead s hc ho :
  0 < EVENT_BUFFER_SIZE -> shape s -> idle s ->
  exists s1 o1 s2 o2,
    scan digitalRead s = Some (tt, s1, o1)
    /\ scan digitalRead (with_handlers s hc ho) = Some (tt, s2, o2)
    /\ m_switch_map s2 = m_switch_map s1
    /\ gpio_calls o2 = gpio_calls o1
    /\ idle s2
    /\ (hc = None -> closed_calls o2 = [])
    /\ (ho = None -> opened_calls o2 = []).
Proof.
  intros HN Hshape Hidle.
  assert (Hshape2 : shape (with_handlers s hc ho)) by exact Hshape.
  assert (Hidle2 : idle (with_handlers s hc ho)) by exact Hidle.
  destruct (scan_calls_ok digitalRead s HN Hshape Hidle)
    as (s1 & o1 & Hscan1 & _ & _ & _ & Hmap1 & _).
  destruct (scan_calls_ok digitalRead _ HN Hshape2 Hidle2)
    as (s2 & o2 & Hscan2 & _ & _ & _ & Hmap2 & _).
  destruct (scan_gpio digitalRead s HN Hshape Hidle)
    as (s1' & o1' & Hscan1' & Hgpio1).
  destruct (scan_gpio digitalRead _ HN Hshape2 Hidle2)
    as (s2' & o2' & Hscan2' & Hgpio2).
  destruct (scan_delivers digitalRead _ HN Hshape2 Hidle2)
    as (s2'' & o2'' & Hscan2'' & Hidle' & _ & _ & Hnc & Hno & _).
  rewrite Hscan1 in Hscan1'. injection Hscan1' as <- <-.
  rewrite Hscan2 in Hscan2', Hscan2''.
  injection Hscan2' as <- <-. injection Hscan2'' as <- <-.
  exists s1, o1, s2, o2.
  split; [exact Hscan1|]. split; [exact Hscan2|].
  split; [now rewrite Hmap1, Hmap2|].
  split; [now rewrite Hgpio1, Hgpio2|].
  split; [exact Hidle'|]. split; [exact Hnc|exact Hno].
Qed.

(** ** Invariants of executions *)

Lemma bind_assoc {A B C} (m : M A) (k : A -> M B) (h : B -> M C) s :
  bind (bind m k) h s = bind m (fun a => bind (k a) h) s.
Proof.
  unfold bind. destruct (m s) as [[[a s1] o1]|]; [|reflexivity].
  destruct (k a s1) as [[[b s2] o2]|]; [|reflexivity].
  destruct (h b s2) as [[[c s3] o3]|]; [|reflexivity].
  now rewrite app_assoc.
Qed.

Lemma execs_app ops1 ops2 s :
  execs (ops1 ++ ops2) s = (execs ops1 >> execs ops2) s.
Proof.
  revert s. induction ops1 as [|op ops1 IH]; intros s.
  - simpl. unfold bind, ret. simpl.
    destruct (execs ops2 s) as [[[[] s'] o]|]; reflexivity.
  - simpl. rewrite bind_assoc. unfold bind.
    destruct (exec op s) as [[[[] s1] o1]|]; [|reflexivity].
    rewrite IH. reflexivity.
Qed.

(** A property of the scanner and a property of the outside calls that
    every call of the public interface keeps are kept by every sequence of
    calls. *)
Lemma execs_invariant (P : SwitchMatrixScanner -> Prop) (Q : Event -> Prop) :
  (forall op s, shape s -> idle s -> P s ->
     exists s' out, exec op s = Some (tt, s', out)
                    /\ shape s' /\ idle s' /\ P s' /\ Forall Q out) ->
  forall ops s, shape s -> idle s -> P s ->
    exists s' out, execs ops s = Some (tt, s', out)
                   /\ shape s' /\ idle s' /\ P s' /\ Forall Q out.
Proof.
  intros Hstep. induction ops as [|op ops IH]; intros s Hshape Hidle HP.
  - exists s, []. simpl. auto.
  - destruct (Hstep op s Hshape Hidle HP)
      as (s1 & o1 & Hop & Hshape1 & Hidle1 & HP1 & HQ1).
    destruct (IH s1 Hshape1 Hidle1 HP1)
      as (s2 & o2 & Hops & Hshape2 & Hidle2 & HP2 & HQ2).
    exists s2, (o1 ++ o2). split; [simpl; eapply bind_Some; eauto|].
    repeat (split; [assumption|]). now apply Forall_app.
Qed.

Lemma events_Forall (R : list Z * nat -> Prop) out :
  Forall R (closed_calls out) -> Forall R (opened_calls out) ->
  Forall (fun e => forall call,
            closed_call e = Some call \/ opened_call e = Some call -> R call)
         out.
Proof.
  unfold closed_calls, opened_calls.
  induction out as [|e out IH]; intros Hc Ho; [constructor|].
  destruct e; simpl in Hc, Ho;
    try (constructor; [intros call [[=]|[=]]|now apply IH]).
  - inversion Hc; subst. constructor; [|now apply IH].
    intros call [[= <-]|[=]]. assumption.
  - inversion Ho; subst. constructor; [|now apply IH].
    intros call [[=]|[= <-]]. assumption.
Qed.

Lemma batched_calls_range calls :
  0 < EVENT_BUFFER_SIZE -> batched_calls calls ->
  Forall (fun call => length call.1 = EVENT_BUFFER_SIZE
                      /\ 1 <= call.2 <= EVENT_BUFFER_SIZE) calls.
Proof.
  intros HN (full & rest & -> & Hfull & _ & Hrest). apply Forall_app. split.
  - eapply Forall_impl; [exact Hfull|]. simpl. intros call [-> ?]. lia.
  - eapply Forall_impl; [exact Hrest|]. simpl. intros call [? ?]. lia.
Qed.

Lemma numbered_pass s s' debounce digitalRead :
  numbered s ->
  m_switch_map s' = pass_map debounce digitalRead (m_switch_map s) ->
  numbered s'.
Proof.
  intros Hnum Hmap r c swtch' Hsw'.
  rewrite (cell_at_pass_map _ _ _ _ r c Hmap) in Hsw'.
  destruct (cell_at s r c) as [swtch|] eqn:Hsw; [|discriminate].
  injection Hsw' as <-. rewrite cell_pass_scancode. now apply Hnum.
Qed.

Lemma scan_valid_events digitalRead s :
  0 < EVENT_BUFFER_SIZE -> shape s -> idle s -> numbered s ->
  exists s' out,
    scan digitalRead s = Some (tt, s', out)
    /\ shape s' /\ idle s' /\ numbered s' /\ Forall valid_event out.
Proof.
  intros HN Hshape Hidle Hnum.
  destruct (scan_calls_ok digitalRead s HN Hshape Hidle)
    as (s' & out & Hscan & Hshape' & Hidle' & _ & Hmap & _).
  destruct (scan_delivers digitalRead s HN Hshape Hidle)
    as (s'' & out' & Hscan' & _ & Hdc & Hdo & Hnc & Hno & Hbc & Hbo).
  rewrite Hscan in Hscan'. injection Hscan' as <- <-.
  exists s', out. split; [exact Hscan|]. split; [exact Hshape'|].
  split; [exact Hidle'|]. split; [eapply numbered_pass; eauto|].
  assert (Hvalid : forall q calls,
    batched_calls calls ->
    (forall x, In x (concat (payload <$> calls)) ->
       In x (pass_events q (m_enable_software_debounce s) digitalRead
               (m_switch_map s))) ->
    Forall valid_call calls).
  { intros q calls Hb Hsub.
    pose proof (batched_calls_range calls HN Hb) as Hrange.
    rewrite Forall_forall in Hrange |- *. intros call Hcall.
    destruct (Hrange call Hcall) as [Hlen Hcount].
    split; [exact Hlen|]. split; [exact Hcount|].
    intros x Hx.
    assert (Hin : In x (concat (payload <$> calls))).
    { apply in_concat. exists (payload call). split; [|exact Hx].
      apply list_elem_of_In, list_elem_of_fmap_2. exact Hcall. }
    apply Hsub, pass_events_inv in Hin as (r & c & swtch & Hsw & _ & ->).
    destruct (cell_at_bounds s r c swtch Hshape Hsw) as [Hr Hc].
    rewrite (Hnum r c swtch Hsw). nia. }
  apply events_Forall.
  - destruct (m_switchhandler_closed s) as [f|] eqn:Hh.
    + apply (Hvalid closes); [exact Hbc|]. intros x. now rewrite Hdc by eauto.
    + rewrite (Hnc eq_refl). constructor.
  - destruct (m_switchhandler_open s) as [f|] eqn:Hh.
    + apply (Hvalid opens_queued); [exact Hbo|].
      intros x. now rewrite Hdo by eauto.
    + rewrite (Hno eq_refl). constructor.
Qed.

Lemma exec_valid_events op s :
  0 < EVENT_BUFFER_SIZE -> shape s -> idle s -> numbered s ->
  exists s' out,
    exec op s = Some (tt, s', out)
    /\ shape s' /\ idle s' /\ numbered s' /\ Forall valid_event out.
Proof.
  intros HN Hshape Hidle Hnum. destruct op as [hc ho|digitalRead|scancode].
  - exists (with_handlers s hc ho). eexists. simpl.
    split; [now apply setup_spec|].
    repeat (split; [assumption|]).
    apply Forall_app. split; apply Forall_fmap, Forall_forall;
      intros pin _ call [[=]|[=]].
  - now apply scan_valid_events.
  - destruct (isSwitchClosed_total s scancode Hshape) as [b Hq].
    exists s, []. simpl. split; [unfold bind; now rewrite Hq|].
    repeat (split; [assumption|]). constructor.
Qed.

Lemma construct_numbered row_pins column_pins enable_pullups debounce :
  (Z.of_nat (ROW_COUNT * COL_COUNT) < ScanCodeMax - 1)%Z ->
  numbered (construct row_pins column_pins enable_pullups debounce).
Proof.
  intros Hmax r c swtch. rewrite construct_cell_at.
  destruct (decide _) as [[Hr Hc]|]; [|discriminate].
  intros [= <-]. simpl. unfold ScanCodeMax in Hmax.
  rewrite u16_small by nia. lia.
Qed.

Lemma execs_valid_events row_pins column_pins enable_pullups debounce ops :
  0 < EVENT_BUFFER_SIZE ->
  (Z.of_nat (ROW_COUNT * COL_COUNT) < ScanCodeMax - 1)%Z ->
  length row_pins = ROW_COUNT -> length column_pins = COL_COUNT ->
  exists s' out,
    execs ops (construct row_pins column_pins enable_pullups debounce)
      = Some (tt, s', out)
    /\ shape s' /\ idle s' /\ numbered s' /\ Forall valid_event out.
Proof.
  intros HN Hmax Hrp Hcp.
  destruct (construct_shape row_pins column_pins enable_pullups debounce
              Hrp Hcp) as [Hshape Hidle].
  apply (execs_invariant numbered valid_event); auto.
  - intros op s. now apply exec_valid_events.
  - now apply construct_numbered.
Qed.

(** X7. Scancodes are never reassigned: after any sequence of calls of the
    public interface on a freshly constructed scanner, the record at row r,
    column c still carries scancode r*C + c + 1, and only the R*C records
    of the grid exist. *)
Theorem X7_scancodes_never_reassigned row_pins column_pins enable_pullups
    debounce ops :
  0 < EVENT_BUFFER_SIZE ->
  (Z.of_nat (ROW_COUNT * COL_COUNT) < ScanCodeMax - 1)%Z ->
  length row_pins = ROW_COUNT -> length column_pins = COL_COUNT ->
  exists s' out,
    execs ops (construct row_pins column_pins enable_pullups debounce)
      = Some (tt, s', out)
    /\ forall r c,
         (r < ROW_COUNT /\ c < COL_COUNT ->
          exists swtch, cell_at s' r c = Some swtch
                        /\ scancode swtch = Z.of_nat (r * COL_COUNT + c + 1))
         /\ (~ (r < ROW_COUNT /\ c < COL_COUNT) -> cell_at s' r c = None).
Proof.
  intros HN Hmax Hrp Hcp.
  destruct (execs_valid_events row_pins column_pins enable_pullups debounce
              ops HN Hmax Hrp Hcp)
    as (s' & out & Hrun & Hshape & _ & Hnum & _).
  exists s', out. split; [exact Hrun|]. intros r c. split.
  - intros [Hr Hc]. destruct (cell_at_Some s' r c Hshape Hr Hc) as [swtch Hsw].
    exists swtch. split; [exact Hsw|]. now apply Hnum.
  - intros Hout. destruct (cell_at s' r c) as [swtch|] eqn:Hsw; [|reflexivity].
    destruct Hout. eapply cell_at_bounds; eauto.
Qed.


(** ** The debounce filter over several passes *)

Lemma sample_switch_with_scancode debounce value sc swtch :
  sample_switch debounce value (with_scancode sc swtch)
  = with_scancode sc (sample_switch debounce value swtch).
Proof.
  unfold sample_switch, handleSoftwareDebounce, with_scancode. simpl.
  destruct debounce; [destruct (_ <? _)%Z|]; reflexivity.
Qed.

Lemma latch_with_scancode sc swtch :
  latch (with_scancode sc swtch) = with_scancode sc (latch swtch).
Proof.
  unfold latch.
  change (closes (with_scancode sc swtch)) with (closes swtch).
  change (opens (with_scancode sc swtch)) with (opens swtch).
  destruct (closes swtch); [reflexivity|].
  destruct (opens swtch); reflexivity.
Qed.

Lemma cell_pass_with_scancode debounce value sc swtch :
  cell_pass debounce value (with_scancode sc swtch)
  = with_scancode sc (cell_pass debounce value swtch).
Proof.
  unfold cell_pass.
  now rewrite sample_switch_with_scancode, latch_with_scancode.
Qed.

Lemma cell_samples_with_scancode debounce values sc swtch :
  cell_samples debounce values (with_scancode sc swtch)
  = with_scancode sc (cell_samples debounce values swtch).
Proof.
  revert swtch. induction values as [|v values IH]; intros swtch;
    [reflexivity|].
  now rewrite !cell_samples_cons, cell_pass_with_scancode, IH.
Qed.

(** The state and sample buffer that a run of passes leaves in a record do
    not depend on its scancode. *)
Lemma cell_samples_state debounce values swtch :
  state (cell_samples debounce values swtch)
  = state (cell_samples debounce values
             (mkSwitchDef 0 (state swtch) (sample_buffer swtch))).
Proof.
  change (mkSwitchDef 0 (state swtch) (sample_buffer swtch))
    with (with_scancode 0 swtch).
  now rewrite cell_samples_with_scancode.
Qed.

Lemma cell_pass_state debounce value swtch :
  state (cell_pass debounce value swtch)
  = state (cell_pass debounce value
             (mkSwitchDef 0 (state swtch) (sample_buffer swtch))).
Proof.
  change (mkSwitchDef 0 (state swtch) (sample_buffer swtch))
    with (with_scancode 0 swtch).
  now rewrite cell_pass_with_scancode.
Qed.

Lemma cell_pass_buffer debounce value swtch :
  sample_buffer (cell_pass debounce value swtch)
  = sample_buffer (cell_pass debounce value
                     (mkSwitchDef 0 (state swtch) (sample_buffer swtch))).
Proof.
  change (mkSwitchDef 0 (state swtch) (sample_buffer swtch))
    with (with_scancode 0 swtch).
  now rewrite cell_pass_with_scancode.
Qed.

Lemma transitions_with_scancode debounce value swtch :
  transitions (sample_switch debounce value swtch)
  = transitions (sample_switch debounce value
                   (mkSwitchDef 0 (state swtch) (sample_buffer swtch))).
Proof.
  destruct swtch as [sc st b].
  unfold transitions, closes, opens, sample_switch, handleSoftwareDebounce.
  simpl. destruct debounce; [destruct (_ <? _)%Z|]; reflexivity.
Qed.

Lemma in_all_states st : In st all_states.
Proof. destruct st; simpl; auto. Qed.



Lemma hold_check_all debounce value b :
  is_byte b ->
  hold_check debounce value (if Level_eqb value LOW then CLOSED else OPEN)
    (if Level_eqb value LOW then 0 else 31) b = true.
Proof.
  revert b. apply byte_check. destruct debounce, value; vm_compute; reflexivity.
Qed.

(** A switch that is held keeps its record: no branch of
    [handleSwitchState] is taken. *)
Lemma hold_step debounce value swtch :
  let target := if Level_eqb value LOW then CLOSED else OPEN in
  let avoid := (if Level_eqb value LOW then 0 else 31)%Z in
  is_byte (sample_buffer swtch) ->
  state swtch = target ->
  sample_window (sample_buffer swtch) <> avoid ->
  transitions (sample_switch debounce value swtch) = false
  /\ state (cell_pass debounce value swtch) = target
  /\ sample_window (sample_buffer (cell_pass debounce value swtch)) <> avoid
  /\ is_byte (sample_buffer (cell_pass debounce value swtch)).
Proof.
  intros target avoid Hb Hst Hw.
  rewrite transitions_with_scancode, cell_pass_state, cell_pass_buffer, Hst.
  pose proof (hold_check_all debounce value _ Hb) as Hall.
  fold target avoid in Hall. unfold hold_check in Hall.
  apply orb_true_iff in Hall as [Hall|Hall];
    [apply Z.eqb_eq in Hall; contradiction|].
  cbv zeta in Hall.
  apply andb_true_iff in Hall as [Hall H5].
  apply andb_true_iff in Hall as [Hall H4].
  apply andb_true_iff in Hall as [Hall H3].
  apply andb_true_iff in Hall as [H1 H2].
  apply negb_true_iff in H1. apply SwitchState_eqb_eq in H2.
  apply negb_true_iff, Z.eqb_neq in H3.
  apply Z.leb_le in H4. apply Z.ltb_lt in H5.
  split; [exact H1|]. split; [exact H2|]. split; [exact H3|].
  split; [exact H4|exact H5].
Qed.

Lemma hold_steps debounce value n :
  forall swtch,
    let target := if Level_eqb value LOW then CLOSED else OPEN in
    let avoid := (if Level_eqb value LOW then 0 else 31)%Z in
    is_byte (sample_buffer swtch) ->
    state swtch = target ->
    sample_window (sample_buffer swtch) <> avoid ->
    let swtch' := cell_samples debounce (replicate n value) swtch in
    is_byte (sample_buffer swtch')
    /\ state swtch' = target
    /\ sample_window (sample_buffer swtch') <> avoid.
Proof.
  induction n as [|n IH]; intros swtch target avoid Hb Hst Hw; [now simpl|].
  destruct (hold_step debounce value swtch Hb Hst Hw)
    as (_ & Hst1 & Hw1 & Hb1).
  simpl replicate. rewrite cell_samples_cons. now apply IH.
Qed.

(** X10. No double report. A record that is CLOSED with a sample window
    that is not all-0 (as every CLOSED record is after a pass) stays CLOSED
    for as long as its switch keeps reading pressed, with or without
    software debounce, and no pass of that run takes a branch of
    [handleSwitchState] for it, so nothing is queued for it; the same holds
    for an OPEN record, with a window that is not all-1, whose switch keeps
    reading released. *)
Theorem X10_held_switch_is_stable reads value s r c swtch :
  0 < EVENT_BUFFER_SIZE -> shape s -> idle s ->
  cell_at s r c = Some swtch ->
  is_byte (sample_buffer swtch) ->
  state swtch = (if Level_eqb value LOW then CLOSED else OPEN) ->
  sample_window (sample_buffer swtch)
    <> (if Level_eqb value LOW then 0 else 31)%Z ->
  samples_at r c reads = replicate (length reads) value ->
  exists s' out swtch',
    scans reads s = Some (tt, s', out)
    /\ cell_at s' r c = Some swtch'
    /\ state swtch' = state swtch
    /\ transitions
         (sample_switch (m_enable_software_debounce s') value swtch')
       = false.
Proof.
  intros HN Hshape Hidle Hsw Hb Hst Hw Hreads.
  destruct (scans_cells reads s HN Hshape Hidle)
    as (s' & out & Hrun & _ & _ & Hcfg & Hcells).
  destruct Hcfg as (_ & _ & _ & _ & _ & Hdb).
  exists s', out, (cell_samples (m_enable_software_debounce s)
                     (replicate (length reads) value) swtch).
  rewrite Hdb.
  split; [exact Hrun|].
  split; [rewrite Hcells, Hsw, Hreads; reflexivity|].
  destruct (hold_steps (m_enable_software_debounce s) value (length reads)
              swtch Hb Hst Hw) as (Hb' & Hst' & Hw').
  split; [congruence|].
  now destruct (hold_step (m_enable_software_debounce s) value _ Hb' Hst' Hw').
Qed.

(** After [handleSwitchState] a uniform sample window and the latched
    state agree. *)
Lemma latch_consistent swtch :
  (sample_window (sample_buffer (latch swtch)) = DebounceSampleMask ->
   state (latch swtch) = CLOSED)
  /\ (sample_window (sample_buffer (latch swtch)) = 0%Z ->
      state (latch swtch) = OPEN).
Proof.
  destruct (closes swtch) eqn:Hc.
  - rewrite closes_latch by exact Hc. simpl. split; [reflexivity|discriminate].
  - destruct (opens swtch) eqn:Ho.
    + rewrite opens_latch by exact Ho. simpl.
      split; [discriminate|reflexivity].
    + rewrite quiet_latch by assumption.
      unfold opens in Ho. rewrite Hc in Ho. simpl in Ho.
      unfold closes, is_closed in Hc. unfold is_open in Ho.
      unfold sample_window. split; intros Hw; rewrite Hw in *.
      * rewrite Z.eqb_refl in Hc. simpl in Hc.
        now apply negb_false_iff, SwitchState_eqb_eq in Hc.
      * rewrite Z.eqb_refl in Ho. simpl in Ho.
        now apply negb_false_iff, SwitchState_eqb_eq in Ho.
Qed.

(** X11. After every pass, in every record, a sample window that is all-1
    goes with state CLOSED and one that is all-0 goes with state OPEN; so a
    CLOSED record never has an all-0 window and an OPEN record never an
    all-1 window when [scan] returns. *)
Theorem X11_uniform_window_is_latched digitalRead s :
  0 < EVENT_BUFFER_SIZE -> shape s -> idle s ->
  exists s' out,
    scan digitalRead s = Some (tt, s', out)
    /\ forall r c swtch',
         cell_at s' r c = Some swtch' ->
         (sample_window (sample_buffer swtch') = DebounceSampleMask ->
          state swtch' = CLOSED)
         /\ (sample_window (sample_buffer swtch') = 0%Z ->
             state swtch' = OPEN).
Proof.
  intros HN Hshape Hidle.
  destruct (scan_calls_ok digitalRead s HN Hshape Hidle)
    as (s' & out & Hscan & _ & _ & _ & Hmap & _).
  exists s', out. split; [exact Hscan|]. intros r c swtch' Hsw'.
  rewrite (cell_at_pass_map _ _ _ _ r c Hmap) in Hsw'.
  destruct (cell_at s r c) as [swtch|]; [|discriminate].
  injection Hsw' as <-. apply latch_consistent.
Qed.

Lemma sample_sequences_complete values :
  In values (sample_sequences (length values)).
Proof.
  induction values as [|v values IH]; [now left|].
  simpl. apply in_or_app.
  destruct v; [left|right]; apply in_map; exact IH.
Qed.

Lemma glitch_check_all st b :
  is_byte b -> st <> UNKNOWN ->
  glitch_check st (if SwitchState_eqb st CLOSED then 31 else 0) b = true.
Proof.
  intros Hb Hst. revert b Hb. apply byte_check.
  destruct st; [contradiction| |]; vm_compute; reflexivity.
Qed.

(** A latched record with a full window keeps its state for four passes,
    whatever they sample. *)
Lemma glitch_rejected values swtch :
  is_byte (sample_buffer swtch) -> state swtch <> UNKNOWN ->
  sample_window (sample_buffer swtch)
    = (if SwitchState_eqb (state swtch) CLOSED then 31 else 0)%Z ->
  length values <= 4 ->
  state (cell_samples true values swtch) = state swtch.
Proof.
  intros Hb Hst Hw Hlen.
  destruct values as [|v values]; [reflexivity|].
  rewrite cell_samples_state.
  pose proof (glitch_check_all (state swtch) _ Hb Hst) as Hall.
  unfold glitch_check in Hall.
  apply orb_true_iff in Hall as [Hall|Hall].
  { apply negb_true_iff, Z.eqb_neq in Hall. contradiction. }
  rewrite forallb_forall in Hall.
  specialize (Hall (v :: values)). cbv beta in Hall.
  apply SwitchState_eqb_eq, Hall.
  pose proof (sample_sequences_complete (v :: values)) as Hin.
  rewrite length_cons in Hin, Hlen.
  assert (Hn : S (length values) = 4 \/ S (length values) = 3
               \/ S (length values) = 2 \/ S (length values) = 1) by lia.
  rewrite !in_app_iff.
  destruct Hn as [Hn|[Hn|[Hn|Hn]]]; rewrite Hn in Hin; tauto.
Qed.

(** X12. Glitch rejection. With software debounce enabled, a record that is
    CLOSED with an all-1 sample window, or OPEN with an all-0 one, keeps
    its latched state during any four consecutive passes, whatever they
    read for its switch: fewer than five samples cannot flip it. *)
Theorem X12_glitch_rejection reads s r c swtch :
  0 < EVENT_BUFFER_SIZE -> shape s -> idle s ->
  m_enable_software_debounce s = true ->
  cell_at s r c = Some swtch ->
  is_byte (sample_buffer swtch) ->
  (state swtch = CLOSED
   /\ sample_window (sample_buffer swtch) = DebounceSampleMask)
  \/ (state swtch = OPEN /\ sample_window (sample_buffer swtch) = 0%Z) ->
  length reads <= 4 ->
  exists s' out swtch',
    scans reads s = Some (tt, s', out)
    /\ cell_at s' r c = Some swtch'
    /\ state swtch' = state swtch.
Proof.
  intros HN Hshape Hidle Hdb Hsw Hb Hfull Hlen.
  destruct (scans_cells reads s HN Hshape Hidle)
    as (s' & out & Hrun & _ & _ & _ & Hcells).
  exists s', out, (cell_samples true (samples_at r c reads) swtch).
  split; [exact Hrun|].
  split; [rewrite Hcells, Hsw, Hdb; reflexivity|].
  apply glitch_rejected.
  - exact Hb.
  - destruct Hfull as [[-> _]|[-> _]]; discriminate.
  - destruct Hfull as [[-> Hw]|[-> Hw]]; exact Hw.
  - unfold samples_at. now rewrite length_fmap.
Qed.

Lemma saturating_check_all value b :
  is_byte b -> saturating_check value b = true.
Proof. revert b. apply byte_check. destruct value; vm_compute; reflexivity. Qed.

Lemma saturating_pass value swtch :
  saturating swtch -> saturating (cell_pass true value swtch).
Proof.
  intros [Hb Hs]. unfold saturating. rewrite cell_pass_buffer.
  pose proof (saturating_check_all value _ Hb) as Hall.
  unfold saturating_check in Hall.
  apply orb_true_iff in Hall as [Hall|Hall].
  { apply negb_true_iff, Z.leb_gt in Hall. lia. }
  rewrite forallb_forall in Hall.
  specialize (Hall (state swtch) (in_all_states _)). cbv beta zeta in Hall.
  apply andb_true_iff in Hall as [Hall H3].
  apply andb_true_iff in Hall as [H1 H2].
  apply Z.leb_le in H1, H3. apply Z.ltb_lt in H2.
  split; [split; [exact H1|exact H2]|exact H3].
Qed.

(** X13. The settle counter saturates. With software debounce enabled, in
    every execution on a freshly constructed scanner every sample buffer
    stays a byte whose settle counter is at most DebounceSettleCount: the
    counter counts up to the threshold and stays there, it never wraps. *)
Theorem X13_settle_counter_saturates row_pins column_pins enable_pullups ops :
  0 < EVENT_BUFFER_SIZE ->
  length row_pins = ROW_COUNT -> length column_pins = COL_COUNT ->
  exists s' out,
    execs ops (construct row_pins column_pins enable_pullups true)
      = Some (tt, s', out)
    /\ forall r c swtch,
         cell_at s' r c = Some swtch ->
         (0 <= sample_buffer swtch < 256)%Z
         /\ (settle_counter (sample_buffer swtch) <= DebounceSettleCount)%Z.
Proof.
  intros HN Hrp Hcp.
  destruct (construct_shape row_pins column_pins enable_pullups true
              Hrp Hcp) as [Hshape Hidle].
  destruct (execs_invariant
              (fun s => m_enable_software_debounce s = true
                        /\ forall r c swtch, cell_at s r c = Some swtch ->
                                             saturating swtch)
              (fun _ => True))
    with (ops := ops)
         (s := construct row_pins column_pins enable_pullups true)
    as (s' & out & Hrun & _ & _ & [_ Hsat] & _); auto.
  - intros op s Hshape1 Hidle1 [Hdb Hsat].
    destruct (exec_ok op s HN Hshape1 Hidle1)
      as (s1 & o1 & Hop & Hshape2 & Hidle2 & _ & _).
    exists s1, o1. split; [exact Hop|]. split; [exact Hshape2|].
    split; [exact Hidle2|]. split; [|apply Forall_forall; auto].
    destruct op as [hc ho|digitalRead|scancode]; simpl in Hop.
    + rewrite setup_spec in Hop by exact Hshape1.
      injection Hop as <- _. split; [exact Hdb|exact Hsat].
    + destruct (scan_calls_ok digitalRead s HN Hshape1 Hidle1)
        as (s1' & o1' & Hscan & _ & _ & Hcfg & Hmap & _).
      rewrite Hop in Hscan. injection Hscan as <- <-.
      destruct Hcfg as (_ & _ & _ & _ & _ & Hdb1).
      split; [congruence|]. intros r c swtch' Hsw'.
      rewrite (cell_at_pass_map _ _ _ _ r c Hmap), Hdb in Hsw'.
      destruct (cell_at s r c) as [swtch|] eqn:Hsw; [|discriminate].
      injection Hsw' as <-. apply saturating_pass. eapply Hsat; eauto.
    + destruct (isSwitchClosed_total s scancode Hshape1) as [b Hq].
      unfold bind in Hop. rewrite Hq in Hop. injection Hop as <- _.
      split; [exact Hdb|exact Hsat].
  - split; [unfold construct; now destruct (foldl _ _ _)|].
    intros r c swtch. rewrite construct_cell_at.
    destruct (decide _); [|discriminate]. intros [= <-].
    split; [unfold is_byte; simpl; lia|now vm_compute].
  - exists s', out. split; [exact Hrun|]. intros r c swtch Hsw.
    exact (Hsat r c swtch Hsw).
Qed.

(** ** [setup], and which functions a pass calls *)

Lemma construct_config row_pins column_pins enable_pullups debounce :
  length row_pins = ROW_COUNT -> length column_pins = COL_COUNT ->
  let s := construct row_pins column_pins enable_pullups debounce in
  m_row_pins s = row_pins /\ m_col_pins s = column_pins
  /\ m_column_input_type s = (if enable_pullups then INPUT_PULLUP else INPUT)
  /\ m_enable_software_debounce s = debounce
  /\ m_switchhandler_closed s = None /\ m_switchhandler_open s = None.
Proof.
  intros Hrp Hcp. unfold construct. destruct (foldl _ _ _) as [map sc].
  simpl. rewrite !take_ge by lia. repeat split.
Qed.

(** No call of the public interface changes the pin arrays or the two
    flags of the constructor. *)
Lemma exec_config op s :
  0 < EVENT_BUFFER_SIZE -> shape s -> idle s ->
  exists s' out,
    exec op s = Some (tt, s', out)
    /\ shape s' /\ idle s'
    /\ m_row_pins s' = m_row_pins s /\ m_col_pins s' = m_col_pins s
    /\ m_column_input_type s' = m_column_input_type s
    /\ m_enable_software_debounce s' = m_enable_software_debounce s.
Proof.
  intros HN Hshape Hidle.
  destruct (exec_ok op s HN Hshape Hidle)
    as (s1 & o1 & Hop & Hshape1 & Hidle1 & _ & _).
  exists s1, o1. split; [exact Hop|]. split; [exact Hshape1|].
  split; [exact Hidle1|].
  destruct op as [hc ho|digitalRead|scancode]; simpl in Hop.
  - rewrite setup_spec in Hop by exact Hshape.
    injection Hop as <- _. repeat split.
  - destruct (scan_calls_ok digitalRead s HN Hshape Hidle)
      as (s1' & o1' & Hscan & _ & _ & Hcfg & _).
    rewrite Hop in Hscan. injection Hscan as <- <-.
    destruct Hcfg as (H1 & H2 & _ & _ & H5 & H6). auto.
  - destruct (isSwitchClosed_total s scancode Hshape) as [b Hq].
    unfold bind in Hop. rewrite Hq in Hop. injection Hop as <- _.
    repeat split.
Qed.

(** X14. [setup] may be called at any time: after any sequence of calls on
    a freshly constructed scanner it runs to completion, registers the two
    handlers it is given and changes nothing else, and its calls on the
    pins are pinMode(row, INPUT) for every row pin of the constructor's
    array, in order, then pinMode(col, INPUT_PULLUP) for every column pin,
    or pinMode(col, INPUT) when the scanner was constructed without
    pull-ups: ROW_COUNT + COL_COUNT calls, no read, no write and no handler
    invocation. *)
Theorem X14_setup_at_any_time (row_pins column_pins : list Z)
    (enable_pullups debounce : bool) ops hc ho :
  0 < EVENT_BUFFER_SIZE ->
  length row_pins = ROW_COUNT -> length column_pins = COL_COUNT ->
  let config :=
    pin_setup row_pins column_pins
      (if enable_pullups then INPUT_PULLUP else INPUT) in
  exists s out,
    execs ops (construct row_pins column_pins enable_pullups debounce)
      = Some (tt, s, out)
    /\ setup hc ho s = Some (tt, with_handlers s hc ho, config)
    /\ length config = ROW_COUNT + COL_COUNT.
Proof.
  intros HN Hrp Hcp config.
  destruct (construct_shape row_pins column_pins enable_pullups debounce
              Hrp Hcp) as [Hshape Hidle].
  destruct (construct_config row_pins column_pins enable_pullups debounce
              Hrp Hcp) as (Hc1 & Hc2 & Hc3 & _).
  destruct (execs_invariant
              (fun s => m_row_pins s = row_pins /\ m_col_pins s = column_pins
                        /\ m_column_input_type s
                           = if enable_pullups then INPUT_PULLUP else INPUT)
              (fun _ => True))
    with (ops := ops)
         (s := construct row_pins column_pins enable_pullups debounce)
    as (s & out & Hrun & Hshape' & _ & (Hp1 & Hp2 & Hp3) & _); auto.
  - intros op s Hshape1 Hidle1 (Hp1 & Hp2 & Hp3).
    destruct (exec_config op s HN Hshape1 Hidle1)
      as (s1 & o1 & Hop & Hshape2 & Hidle2 & Hq1 & Hq2 & Hq3 & _).
    exists s1, o1. split; [exact Hop|]. split; [exact Hshape2|].
    split; [exact Hidle2|]. split; [|apply Forall_forall; auto].
    rewrite Hq1, Hq2, Hq3. auto.
  - exists s, out. split; [exact Hrun|]. split.
    + rewrite setup_spec by exact Hshape'. now rewrite Hp1, Hp2, Hp3.
    + unfold config, pin_setup. rewrite length_app, !length_fmap. lia.
Qed.

Lemma called_handler_enqueue_closed hc ho queued v buf len :
  Forall (called_handler hc ho)
    (enqueue hc EvSwitchClosed queued v buf len).2.
Proof.
  unfold enqueue. destruct queued; [|constructor].
  destruct (decide _); [|constructor]. simpl.
  destruct hc; repeat constructor.
Qed.

Lemma called_handler_enqueue_opened hc ho queued v buf len :
  Forall (called_handler hc ho)
    (enqueue ho EvSwitchOpen queued v buf len).2.
Proof.
  unfold enqueue. destruct queued; [|constructor].
  destruct (decide _); [|constructor]. simpl.
  destruct ho; repeat constructor.
Qed.

Lemma called_handler_end_calls s :
  Forall (called_handler (m_switchhandler_closed s) (m_switchhandler_open s))
    (end_calls s).
Proof.
  unfold end_calls, handler_call. apply Forall_app. split.
  - destruct (decide _); [|constructor].
    destruct (m_switchhandler_closed s); repeat constructor.
  - destruct (decide _); [|constructor].
    destruct (m_switchhandler_open s); repeat constructor.
Qed.

(** The handlers part of the invariant of the column loop. *)
Lemma scan_cell_row_called digitalRead r s0 row0 i s out :
  m_switch_map s0 !! r = Some row0 ->
  length row0 = COL_COUNT ->
  i < COL_COUNT ->
  row_inv digitalRead r s0 row0 i s out ->
  Forall (called_handler (m_switchhandler_closed s0)
            (m_switchhandler_open s0)) out ->
  exists s2 o2,
    scan_cell r i (digitalRead r i) s = Some (tt, s2, o2)
    /\ row_inv digitalRead r s0 row0 (S i) s2 (out ++ o2)
    /\ Forall (called_handler (m_switchhandler_closed s0)
                 (m_switchhandler_open s0)) (out ++ o2).
Proof.
  intros Hrow0 Hlen0 Hi Hinv Hcalled.
  destruct (scan_cell_row_inv digitalRead r s0 row0 i s out Hrow0 Hlen0 Hi
              Hinv) as (s2 & o2 & Hrun & Hinv2).
  exists s2, o2. split; [exact Hrun|]. split; [exact Hinv2|].
  destruct Hinv as (Hready & Hcfg & Hmap & _).
  destruct Hready as ((Hrows & Hcols & Hrp & Hcp & Hob & Hcb) & Hcl & Hol).
  pose proof (lookup_lt_Some _ _ _ Hrow0) as Hr.
  destruct (lookup_lt_is_Some_2 row0 i) as [swtch Hsw]; [lia|].
  destruct (lookup_lt_is_Some_2 (m_col_pins s) i) as [colpin Hpin]; [lia|].
  set (rowI := imap (fun c swtch =>
                       if decide (c < i)
                       then cell_pass (m_enable_software_debounce s0)
                              (digitalRead r c) swtch
                       else swtch) row0) in *.
  assert (HrowI : m_switch_map s !! r = Some rowI).
  { rewrite Hmap. now apply list_lookup_insert_eq. }
  assert (HswI : rowI !! i = Some swtch).
  { unfold rowI. rewrite list_lookup_imap, Hsw. simpl.
    destruct (decide (i < i)); [lia|reflexivity]. }
  pose proof (scan_cell_spec r i (digitalRead r i) s rowI swtch colpin
                HrowI HswI Hpin Hcb Hob Hcl Hol) as Hspec.
  cbv zeta in Hspec. rewrite Hrun in Hspec. injection Hspec as _ ->.
  destruct Hcfg as (_ & _ & Hc3 & Hc4 & _).
  apply Forall_app. split; [exact Hcalled|].
  constructor; [exact I|]. apply Forall_app. split.
  - rewrite Hc3. apply called_handler_enqueue_closed.
  - rewrite Hc4. apply called_handler_enqueue_opened.
Qed.

Lemma scan_row_called digitalRead r s row :
  ready s ->
  m_switch_map s !! r = Some row ->
  forall s2 o2,
    scan_row digitalRead r s = Some (tt, s2, o2) ->
    Forall (called_handler (m_switchhandler_closed s)
              (m_switchhandler_open s)) o2.
Proof.
  intros Hready Hrow s2 o2 Hrun.
  pose proof Hready as ((Hrows & Hcols & Hrp & Hcp & Hob & Hcb) & Hcl & Hol).
  pose proof (lookup_lt_Some _ _ _ Hrow) as Hr.
  assert (Hlen : length row = COL_COUNT).
  { rewrite Forall_lookup in Hcols. exact (Hcols r row Hrow). }
  destruct (lookup_lt_is_Some_2 (m_row_pins s) r) as [rowpin Hpin]; [lia|].
  destruct (for_loop_inv
              (fun i s1 o => row_inv digitalRead r s row i s1 o
                 /\ Forall (called_handler (m_switchhandler_closed s)
                              (m_switchhandler_open s)) o)
              (fun c => scan_cell r c (digitalRead r c)) COL_COUNT 0 s [])
    as (s1 & o1 & Hloop & _ & Hcalled).
  { split; [|constructor].
    split; [exact Hready|]. split; [apply same_config_refl|].
    split; [|split; apply queue_inv_start].
    symmetry. apply list_insert_id. rewrite Hrow. f_equal.
    apply list_eq. intros j. rewrite list_lookup_imap.
    destruct (row !! j); [simpl|reflexivity].
    destruct (decide (j < 0)); [lia|reflexivity]. }
  { intros i s1 o1 Hi (Hinv & Hcalled).
    destruct (scan_cell_row_called digitalRead r s row i s1 o1 Hrow Hlen)
      as (s3 & o3 & Hcell & Hinv3 & Hcalled3);
      [lia|exact Hinv|exact Hcalled|].
    exists s3, o3. auto. }
  simpl in Hcalled.
  unfold scan_row, bind, gets, lift, emit in Hrun. simpl in Hrun.
  rewrite Hpin, Hloop in Hrun. injection Hrun as _ <-.
  repeat (constructor; [exact I|]).
  apply Forall_app. split; [exact Hcalled|]. repeat constructor.
Qed.

Lemma scan_rows_called digitalRead s0 :
  ready s0 ->
  exists s out,
    scan_rows digitalRead s0 = Some (tt, s, out)
    /\ Forall (called_handler (m_switchhandler_closed s0)
                 (m_switchhandler_open s0)) out.
Proof.
  intros Hready. pose proof Hready as ((Hrows & _) & _).
  destruct (for_loop_inv
              (fun i s1 o => rows_inv digitalRead s0 i s1 o
                 /\ Forall (called_handler (m_switchhandler_closed s0)
                              (m_switchhandler_open s0)) o)
              (scan_row digitalRead) ROW_COUNT 0 s0 [])
    as (s & out & Hloop & _ & Hcalled).
  { split; [|constructor].
    split; [exact Hready|]. split; [apply same_config_refl|].
    split; [|split; apply queue_inv_start].
    apply list_eq. intros j. rewrite list_lookup_imap.
    destruct (m_switch_map s0 !! j); [simpl|reflexivity].
    destruct (decide (j < 0)); [lia|reflexivity]. }
  { intros i s1 o1 Hi (Hinv & Hcalled).
    destruct (scan_row_rows_inv digitalRead s0 i s1 o1) as (s2 & o2 & Hrun
      & Hinv2); [lia|exact Hrows|exact Hinv|].
    exists s2, o2. split; [exact Hrun|]. split; [exact Hinv2|].
    destruct Hinv as (Hready1 & Hcfg & Hmap & _).
    destruct (lookup_lt_is_Some_2 (m_switch_map s0) i) as [row Hrow0]; [lia|].
    assert (Hrow : m_switch_map s1 !! i = Some row).
    { rewrite Hmap, list_lookup_imap, Hrow0. simpl.
      destruct (decide (i < i)); [lia|reflexivity]. }
    destruct Hcfg as (_ & _ & Hc3 & Hc4 & _).
    apply Forall_app. split; [exact Hcalled|].
    rewrite <- Hc3, <- Hc4.
    exact (scan_row_called digitalRead i s1 row Hready1 Hrow s2 o2 Hrun). }
  exists s, out. split; [exact Hloop|exact Hcalled].
Qed.

Lemma scan_called digitalRead s :
  0 < EVENT_BUFFER_SIZE -> shape s -> idle s ->
  exists s' out,
    scan digitalRead s = Some (tt, s', out)
    /\ shape s' /\ idle s' /\ same_config s s'
    /\ Forall (called_handler (m_switchhandler_closed s)
                 (m_switchhandler_open s)) out.
Proof.
  intros HN Hshape Hidle.
  destruct (scan_spec digitalRead s HN Hshape Hidle)
    as (s_mid & out_mid & s' & Hrows & Hscan & _ & Hcfg & _ & _ & Hshape'
        & Hidle' & Hcfg' & _).
  destruct (scan_rows_called digitalRead s) as (s1 & o1 & Hrows1 & Hcalled).
  { destruct Hidle as [Hc Ho]. split; [exact Hshape|]. lia. }
  rewrite Hrows in Hrows1. injection Hrows1 as <- <-.
  exists s', (out_mid ++ end_calls s_mid). split; [exact Hscan|].
  split; [exact Hshape'|]. split; [exact Hidle'|]. split; [exact Hcfg'|].
  apply Forall_app. split; [exact Hcalled|].
  destruct Hcfg as (_ & _ & Hc3 & Hc4 & _). rewrite <- Hc3, <- Hc4.
  apply called_handler_end_calls.
Qed.

Lemma scans_called reads :
  forall s,
    0 < EVENT_BUFFER_SIZE -> shape s -> idle s ->
    exists s' out,
      scans reads s = Some (tt, s', out)
      /\ same_config s s'
      /\ Forall (called_handler (m_switchhandler_closed s)
                   (m_switchhandler_open s)) out.
Proof.
  induction reads as [|dr reads IH]; intros s HN Hshape Hidle.
  - exists s, []. split; [reflexivity|].
    split; [apply same_config_refl|constructor].
  - destruct (scan_called dr s HN Hshape Hidle)
      as (s1 & o1 & Hscan & Hshape1 & Hidle1 & Hcfg1 & Hcalled1).
    destruct (IH s1 HN Hshape1 Hidle1) as (s2 & o2 & Hrun & Hcfg2 & Hcalled2).
    exists s2, (o1 ++ o2).
    split; [unfold scans; simpl; eapply bind_Some; eauto|].
    split; [eapply same_config_trans; eauto|].
    apply Forall_app. split; [exact Hcalled1|].
    destruct Hcfg1 as (_ & _ & Hc3 & Hc4 & _).
    now rewrite <- Hc3, <- Hc4.
Qed.

(** X15. A pass calls the functions registered by the last [setup], and no
    other: after setup(hc, ho) on any idle scanner, whatever was registered
    before, every invocation for closed switches in the following passes is
    a call of hc and every invocation for opened switches a call of ho
    (none at all for a handler that is nullptr), and the two pointers are
    still registered afterwards: a pass never changes them. *)
Theorem X15_only_registered_handlers_are_called hc ho reads s :
  0 < EVENT_BUFFER_SIZE -> shape s -> idle s ->
  exists s' out,
    (setup hc ho >> scans reads) s = Some (tt, s', out)
    /\ Forall (called_handler hc ho) out
    /\ m_switchhandler_closed s' = hc
    /\ m_switchhandler_open s' = ho.
Proof.
  intros HN Hshape Hidle.
  pose proof (setup_spec hc ho s Hshape) as Hsetup.
  assert (Hshape1 : shape (with_handlers s hc ho)) by exact Hshape.
  assert (Hidle1 : idle (with_handlers s hc ho)) by exact Hidle.
  destruct (scans_called reads _ HN Hshape1 Hidle1)
    as (s' & out & Hrun & Hcfg & Hcalled).
  eexists s', _. split; [eapply bind_Some; [exact Hsetup|exact Hrun]|].
  destruct Hcfg as (_ & _ & Hc3 & Hc4 & _).
  split; [|split; [exact Hc3|exact Hc4]].
  apply Forall_app. split; [|exact Hcalled].
  apply Forall_app. split; apply Forall_fmap, Forall_forall; intros pin _;
    exact I.
Qed.

(** ** Open events over a whole execution *)

Lemma closed_scancodes_app o1 o2 :
  closed_scancodes (o1 ++ o2) = closed_scancodes o1 ++ closed_scancodes o2.
Proof.
  unfold closed_scancodes. now rewrite closed_calls_app, fmap_app, concat_app.
Qed.

Lemma opened_scancodes_app o1 o2 :
  opened_scancodes (o1 ++ o2) = opened_scancodes o1 ++ opened_scancodes o2.
Proof.
  unfold opened_scancodes. now rewrite opened_calls_app, fmap_app, concat_app.
Qed.

(** Lists laid end to end, each within its own interval of an increasing
    sequence of bounds, have no element in common. *)
Lemma concat_imap_NoDup {A} (l : list A) :
  forall (g : nat -> A -> list Z) (lo : nat -> Z),
    (forall i, (lo i <= lo (S i))%Z) ->
    (forall i a, l !! i = Some a ->
       NoDup (g i a) /\ forall x, x ∈ g i a -> (lo i <= x < lo (S i))%Z) ->
    NoDup (concat (imap g l))
    /\ forall x, x ∈ concat (imap g l) -> (lo 0%nat <= x < lo (length l))%Z.
Proof.
  induction l as [|a l IH]; intros g lo Hmono Hg.
  - split; [constructor|]. intros x Hx. inversion Hx.
  - rewrite imap_cons. simpl concat.
    destruct (Hg 0 a eq_refl) as [Hnd0 Hb0].
    destruct (IH (g ∘ S) (lo ∘ S)) as [Hnd Hb].
    { intros i. apply Hmono. }
    { intros i b Hi. apply (Hg (S i) b Hi). }
    simpl in Hb.
    assert (Hchain : forall n, (lo 1%nat <= lo (S n))%Z).
    { induction n as [|n IHn]; [lia|]. pose proof (Hmono (S n)). lia. }
    split.
    + apply NoDup_app. split; [exact Hnd0|]. split; [|exact Hnd].
      intros x Hx0 Hx. apply Hb0 in Hx0. apply Hb in Hx. lia.
    + intros x Hx. apply elem_of_app in Hx as [Hx|Hx].
      * apply Hb0 in Hx. pose proof (Hchain (length l)). simpl. lia.
      * apply Hb in Hx. pose proof (Hmono 0). simpl. lia.
Qed.

(** Under the constructor's numbering a pass queues no scancode twice. *)
Lemma pass_events_NoDup q debounce digitalRead s :
  shape s -> numbered s ->
  NoDup (pass_events q debounce digitalRead (m_switch_map s)).
Proof.
  intros Hshape Hnum. unfold pass_events.
  apply (concat_imap_NoDup (m_switch_map s) _
           (fun r => Z.of_nat (r * COL_COUNT + 1))).
  { intros i. lia. }
  intros r row Hrow.
  assert (Hlen : length row = COL_COUNT).
  { destruct Hshape as (_ & Hcols & _).
    rewrite Forall_lookup in Hcols. exact (Hcols r row Hrow). }
  unfold row_events.
  destruct (concat_imap_NoDup row
              (fun c swtch =>
                 if q (sample_switch debounce (digitalRead r c) swtch)
                 then [scancode swtch] else [])
              (fun c => Z.of_nat (r * COL_COUNT + c + 1))) as [Hnd Hb].
  { intros i. lia. }
  { intros c swtch Hsw.
    assert (Hcell : cell_at s r c = Some swtch).
    { unfold cell_at. rewrite Hrow. exact Hsw. }
    rewrite (Hnum r c swtch Hcell).
    destruct (q _).
    - split; [apply NoDup_singleton|].
      intros x Hx. apply list_elem_of_singleton in Hx. lia.
    - split; [constructor|]. intros x Hx. inversion Hx. }
  split; [exact Hnd|]. intros x Hx. apply Hb in Hx. rewrite Hlen in Hx. lia.
Qed.

Lemma numbered_inj s r c swtch r' c' swtch' :
  shape s -> numbered s ->
  cell_at s r c = Some swtch -> cell_at s r' c' = Some swtch' ->
  scancode swtch = scancode swtch' ->
  r = r' /\ c = c'.
Proof.
  intros Hshape Hnum Hsw Hsw' Heq.
  destruct (cell_at_bounds s r c swtch Hshape Hsw) as [_ Hc].
  destruct (cell_at_bounds s r' c' swtch' Hshape Hsw') as [_ Hc'].
  rewrite (Hnum r c swtch Hsw), (Hnum r' c' swtch' Hsw') in Heq.
  apply Nat2Z.inj in Heq.
  assert (r = r') by nia. subst r'. split; [reflexivity|lia].
Qed.

(** Under the numbering the record of a scancode is unique. *)
Lemma latched_cell s r c swtch :
  shape s -> numbered s -> cell_at s r c = Some swtch ->
  latched s (scancode swtch) <-> state swtch <> UNKNOWN.
Proof.
  intros Hshape Hnum Hsw. split.
  - intros (r' & c' & swtch' & Hsw' & Hsc & Hst).
    destruct (numbered_inj s r' c' swtch' r c swtch Hshape Hnum Hsw' Hsw Hsc)
      as [-> ->].
    rewrite Hsw in Hsw'. now injection Hsw' as <-.
  - intros Hst. now exists r, c, swtch.
Qed.

(** What one pass hands over, in terms of the records before and after
    it: an open event only for a record that was UNKNOWN, and that is
    latched afterwards; a closed event only for a record that is latched
    afterwards and has no open event in the same pass. *)
Lemma scan_deliveries digitalRead s :
  0 < EVENT_BUFFER_SIZE -> shape s -> idle s -> numbered s ->
  exists s' out,
    scan digitalRead s = Some (tt, s', out)
    /\ NoDup (opened_scancodes out)
    /\ (forall x, x ∈ opened_scancodes out -> ~ latched s x /\ latched s' x)
    /\ (forall x, x ∈ closed_scancodes out ->
          latched s' x /\ x ∉ opened_scancodes out)
    /\ (forall x, latched s x -> latched s' x).
Proof.
  intros HN Hshape Hidle Hnum.
  destruct (scan_delivers digitalRead s HN Hshape Hidle)
    as (s' & out & Hscan & _ & Hdc & Hdo & Hnc & Hno & _ & _).
  destruct (scan_calls_ok digitalRead s HN Hshape Hidle)
    as (s'' & out' & Hscan' & Hshape' & _ & _ & Hmap & _).
  rewrite Hscan in Hscan'. injection Hscan' as <- <-.
  pose proof (numbered_pass s s' _ _ Hnum Hmap) as Hnum'.
  set (debounce := m_enable_software_debounce s) in *.
  assert (Hafter : forall r c swtch,
            cell_at s r c = Some swtch ->
            cell_at s' r c
            = Some (cell_pass debounce (digitalRead r c) swtch)).
  { intros r c swtch Hsw.
    now rewrite (cell_at_pass_map _ _ _ _ r c Hmap), Hsw. }
  assert (Hopened : forall x,
            x ∈ opened_scancodes out ->
            exists r c swtch,
              cell_at s r c = Some swtch /\ x = scancode swtch
              /\ opens (sample_switch debounce (digitalRead r c) swtch) = true
              /\ state swtch = UNKNOWN).
  { intros x Hx. unfold opened_scancodes in Hx.
    destruct (m_switchhandler_open s) as [f|] eqn:Hh.
    - rewrite Hdo in Hx by (now exists f).
      apply list_elem_of_In, pass_events_inv in Hx
        as (r & c & swtch & Hsw & Hq & ->).
      apply opens_queued_iff in Hq as [Hopens Hst].
      rewrite sample_switch_state in Hst. now exists r, c, swtch.
    - rewrite Hno in Hx by reflexivity. inversion Hx. }
  assert (Hclosed : forall x,
            x ∈ closed_scancodes out ->
            exists r c swtch,
              cell_at s r c = Some swtch /\ x = scancode swtch
              /\ closes (sample_switch debounce (digitalRead r c) swtch)
                 = true).
  { intros x Hx. unfold closed_scancodes in Hx.
    destruct (m_switchhandler_closed s) as [f|] eqn:Hh.
    - rewrite Hdc in Hx by (now exists f).
      apply list_elem_of_In, pass_events_inv in Hx
        as (r & c & swtch & Hsw & Hq & ->).
      now exists r, c, swtch.
    - rewrite Hnc in Hx by reflexivity. inversion Hx. }
  exists s', out. split; [exact Hscan|]. split; [|split; [|split]].
  - unfold opened_scancodes.
    destruct (m_switchhandler_open s) as [f|] eqn:Hh.
    + rewrite Hdo by (now exists f). now apply pass_events_NoDup.
    + rewrite Hno by reflexivity. constructor.
  - intros x Hx. destruct (Hopened x Hx) as (r & c & swtch & Hsw & -> & Ho & Hst).
    split.
    + rewrite (latched_cell s r c swtch Hshape Hnum Hsw). tauto.
    + exists r, c, (cell_pass debounce (digitalRead r c) swtch).
      split; [now apply Hafter|]. split; [apply cell_pass_scancode|].
      unfold cell_pass. now rewrite opens_latch.
  - intros x Hx. destruct (Hclosed x Hx) as (r & c & swtch & Hsw & -> & Hc).
    split.
    + exists r, c, (cell_pass debounce (digitalRead r c) swtch).
      split; [now apply Hafter|]. split; [apply cell_pass_scancode|].
      unfold cell_pass. now rewrite closes_latch.
    + intros Hx'.
      destruct (Hopened _ Hx') as (r' & c' & swtch' & Hsw' & Heq & Ho & _).
      destruct (numbered_inj s r c swtch r' c' swtch' Hshape Hnum Hsw Hsw' Heq)
        as [<- <-].
      rewrite Hsw in Hsw'. injection Hsw' as <-.
      rewrite (closes_opens_excl _ Hc) in Ho. discriminate.
  - intros x (r & c & swtch & Hsw & Hsc & Hst).
    exists r, c, (cell_pass debounce (digitalRead r c) swtch).
    split; [now apply Hafter|]. split; [now rewrite cell_pass_scancode|].
    now apply cell_pass_known.
Qed.

Lemma pin_modes_silent mode (pins : list Z) :
  closed_calls ((fun pin => EvPinMode pin mode) <$> pins) = []
  /\ opened_calls ((fun pin => EvPinMode pin mode) <$> pins) = [].
Proof. induction pins as [|p pins IH]; [now split|exact IH]. Qed.

Lemma exec_deliveries op s :
  0 < EVENT_BUFFER_SIZE -> shape s -> idle s -> numbered s ->
  exists s' out,
    exec op s = Some (tt, s', out)
    /\ shape s' /\ idle s' /\ numbered s'
    /\ NoDup (opened_scancodes out)
    /\ (forall x, x ∈ opened_scancodes out -> ~ latched s x /\ latched s' x)
    /\ (forall x, x ∈ closed_scancodes out ->
          latched s' x /\ x ∉ opened_scancodes out)
    /\ (forall x, latched s x -> latched s' x).
Proof.
  intros HN Hshape Hidle Hnum.
  destruct (exec_valid_events op s HN Hshape Hidle Hnum)
    as (s1 & o1 & Hop & Hshape1 & Hidle1 & Hnum1 & _).
  exists s1, o1. split; [exact Hop|]. split; [exact Hshape1|].
  split; [exact Hidle1|]. split; [exact Hnum1|].
  destruct op as [hc ho|digitalRead|scancode]; simpl in Hop.
  - rewrite setup_spec in Hop by exact Hshape.
    injection Hop as <- <-.
    assert (Hc : closed_scancodes
                   (((fun pin => EvPinMode pin INPUT) <$> m_row_pins s)
                    ++ ((fun pin => EvPinMode pin (m_column_input_type s))
                          <$> m_col_pins s)) = []).
    { unfold closed_scancodes. rewrite closed_calls_app.
      now rewrite !(proj1 (pin_modes_silent _ _)). }
    assert (Ho : opened_scancodes
                   (((fun pin => EvPinMode pin INPUT) <$> m_row_pins s)
                    ++ ((fun pin => EvPinMode pin (m_column_input_type s))
                          <$> m_col_pins s)) = []).
    { unfold opened_scancodes. rewrite opened_calls_app.
      now rewrite !(proj2 (pin_modes_silent _ _)). }
    rewrite Hc, Ho. split; [constructor|].
    split; [intros x Hx; inversion Hx|].
    split; [intros x Hx; inversion Hx|]. intros x Hx. exact Hx.
  - destruct (scan_deliveries digitalRead s HN Hshape Hidle Hnum)
      as (s1' & o1' & Hscan & Hrest).
    rewrite Hop in Hscan. injection Hscan as <- <-. exact Hrest.
  - destruct (isSwitchClosed_total s scancode Hshape) as [b Hq].
    unfold bind in Hop. rewrite Hq in Hop. injection Hop as <- <-.
    split; [constructor|].
    split; [intros x Hx; inversion Hx|].
    split; [intros x Hx; inversion Hx|]. intros x Hx. exact Hx.
Qed.

Lemma execs_deliveries ops :
  forall s,
    0 < EVENT_BUFFER_SIZE -> shape s -> idle s -> numbered s ->
    exists s' out,
      execs ops s = Some (tt, s', out)
      /\ NoDup (opened_scancodes out)
      /\ (forall x, x ∈ opened_scancodes out -> ~ latched s x)
      /\ (forall out1 out2 x,
            out = out1 ++ out2 ->
            x ∈ closed_scancodes out1 -> x ∉ opened_scancodes out2).
Proof.
  induction ops as [|op ops IH]; intros s HN Hshape Hidle Hnum.
  - exists s, []. split; [reflexivity|]. split; [constructor|].
    split; [intros x Hx; inversion Hx|].
    intros out1 out2 x Hout Hx. symmetry in Hout.
    apply app_eq_nil in Hout as [-> ->]. inversion Hx.
  - destruct (exec_deliveries op s HN Hshape Hidle Hnum)
      as (s1 & o1 & Hop & Hshape1 & Hidle1 & Hnum1 & Hnd1 & Ho1 & Hc1 & Hmono).
    destruct (IH s1 HN Hshape1 Hidle1 Hnum1)
      as (s2 & o2 & Hops & Hnd2 & Ho2 & Hsplit2).
    exists s2, (o1 ++ o2). split; [simpl; eapply bind_Some; eauto|].
    split; [|split].
    + rewrite opened_scancodes_app. apply NoDup_app.
      split; [exact Hnd1|]. split; [|exact Hnd2].
      intros x Hx1 Hx2. apply (Ho2 x Hx2). now apply Ho1.
    + intros x Hx. rewrite opened_scancodes_app in Hx.
      apply elem_of_app in Hx as [Hx|Hx]; [now apply Ho1|].
      intros Hl. apply (Ho2 x Hx). now apply Hmono.
    + intros out1 out2 x Hout Hx Hx'.
      apply app_eq_inv in Hout as [(k & -> & ->)|(k & -> & ->)].
      * (* the split falls inside the first call *)
        rewrite closed_scancodes_app in Hc1.
        assert (Hxc : x ∈ closed_scancodes out1 ++ closed_scancodes k)
          by (apply elem_of_app; now left).
        destruct (Hc1 x Hxc) as [Hl Hno].
        rewrite opened_scancodes_app in Hx', Hno.
        apply elem_of_app in Hx' as [Hx'|Hx'].
        -- apply Hno, elem_of_app. now right.
        -- now apply (Ho2 x Hx').
      * (* the split falls in what follows *)
        rewrite closed_scancodes_app in Hx.
        apply elem_of_app in Hx as [Hx|Hx].
        -- destruct (Hc1 x Hx) as [Hl _].
           apply (Ho2 x); [|exact Hl].
           rewrite opened_scancodes_app. apply elem_of_app. now right.
        -- exact (Hsplit2 k out2 x eq_refl Hx Hx').
Qed.

(** X16. At most one open event per switch, ever: in every execution on a
    freshly constructed scanner, no scancode is handed to the open-handler
    twice, whatever the switches do and however often handlers are
    registered anew. *)
Theorem X16_open_event_at_most_once (row_pins column_pins : list Z)
    (enable_pullups debounce : bool) ops :
  0 < EVENT_BUFFER_SIZE ->
  (Z.of_nat (ROW_COUNT * COL_COUNT) < ScanCodeMax - 1)%Z ->
  length row_pins = ROW_COUNT -> length column_pins = COL_COUNT ->
  exists s' out,
    execs ops (construct row_pins column_pins enable_pullups debounce)
      = Some (tt, s', out)
    /\ NoDup (opened_scancodes out).
Proof.
  intros HN Hmax Hrp Hcp.
  destruct (construct_shape row_pins column_pins enable_pullups debounce
              Hrp Hcp) as [Hshape Hidle].
  destruct (execs_deliveries ops _ HN Hshape Hidle
              (construct_numbered _ _ _ _ Hmax))
    as (s' & out & Hrun & Hnd & _).
  now exists s', out.
Qed.

(** X17. No open event after a closed event: in every execution on a
    freshly constructed scanner, once a scancode has been handed to the
    closed-handler it is never handed to the open-handler again, in the
    same pass or in any later one; a sketch is told that a switch opened
    only if that switch has not been reported closed before. *)
Theorem X17_no_open_event_after_closed_event (row_pins column_pins : list Z)
    (enable_pullups debounce : bool) ops :
  0 < EVENT_BUFFER_SIZE ->
  (Z.of_nat (ROW_COUNT * COL_COUNT) < ScanCodeMax - 1)%Z ->
  length row_pins = ROW_COUNT -> length column_pins = COL_COUNT ->
  exists s' out,
    execs ops (construct row_pins column_pins enable_pullups debounce)
      = Some (tt, s', out)
    /\ forall out1 out2 x,
         out = out1 ++ out2 ->
         x ∈ closed_scancodes out1 -> x ∉ opened_scancodes out2.
Proof.
  intros HN Hmax Hrp Hcp.
  destruct (construct_shape row_pins column_pins enable_pullups debounce
              Hrp Hcp) as [Hshape Hidle].
  destruct (execs_deliveries ops _ HN Hshape Hidle
              (construct_numbered _ _ _ _ Hmax))
    as (s' & out & Hrun & _ & _ & Hsplit).
  now exists s', out.
Qed.

(** ** A press is reported once *)

Lemma count_occ_NoDup (l : list Z) x :
  NoDup l ->
  count_occ Z.eq_dec l x = if decide (x ∈ l) then 1 else 0.
Proof.
  intros Hnd. destruct (decide (x ∈ l)) as [Hin|Hin].
  - apply NoDup_ListNoDup in Hnd.
    apply (proj1 (List.NoDup_count_occ' Z.eq_dec l) Hnd).
    now apply list_elem_of_In.
  - apply List.count_occ_not_In. now rewrite <- list_elem_of_In.
Qed.

(** In the list a pass queues, the scancode of a record occurs once if its
    sampled record satisfies the guard, and not at all otherwise. *)
Lemma pass_events_count q debounce digitalRead s r c swtch :
  shape s -> numbered s -> cell_at s r c = Some swtch ->
  count_occ Z.eq_dec (pass_events q debounce digitalRead (m_switch_map s))
    (scancode swtch)
  = if q (sample_switch debounce (digitalRead r c) swtch) then 1 else 0.
Proof.
  intros Hshape Hnum Hsw.
  rewrite count_occ_NoDup by now apply pass_events_NoDup.
  destruct (q (sample_switch debounce (digitalRead r c) swtch)) eqn:Hq.
  - destruct (decide _) as [_|Hn]; [reflexivity|]. destruct Hn.
    apply list_elem_of_In. now apply (pass_events_elem q _ _ s r c).
  - destruct (decide _) as [Hin|_]; [|reflexivity].
    apply list_elem_of_In, pass_events_inv in Hin
      as (r' & c' & swtch' & Hsw' & Hq' & Heq).
    destruct (numbered_inj s r c swtch r' c' swtch' Hshape Hnum Hsw Hsw' Heq)
      as [<- <-].
    rewrite Hsw in Hsw'. injection Hsw' as <-. congruence.
Qed.

Lemma close_count_cons debounce value values swtch :
  close_count debounce (value :: values) swtch
  = (if closes (sample_switch debounce value swtch) then 1 else 0)
    + close_count debounce values (cell_pass debounce value swtch).
Proof. reflexivity. Qed.

Lemma close_count_app debounce values1 values2 :
  forall swtch,
    close_count debounce (values1 ++ values2) swtch
    = close_count debounce values1 swtch
      + close_count debounce values2 (cell_samples debounce values1 swtch).
Proof.
  induction values1 as [|v values1 IH]; intros swtch; [reflexivity|].
  rewrite <- app_comm_cons, !close_count_cons, cell_samples_cons, IH. lia.
Qed.

Lemma closes_with_scancode sc swtch :
  closes (with_scancode sc swtch) = closes swtch.
Proof. reflexivity. Qed.

Lemma state_with_scancode sc swtch : state (with_scancode sc swtch) = state swtch.
Proof. reflexivity. Qed.

Lemma sample_buffer_with_scancode sc swtch :
  sample_buffer (with_scancode sc swtch) = sample_buffer swtch.
Proof. reflexivity. Qed.

Lemma close_count_with_scancode debounce values sc :
  forall swtch,
    close_count debounce values (with_scancode sc swtch)
    = close_count debounce values swtch.
Proof.
  induction values as [|v values IH]; intros swtch; [reflexivity|].
  now rewrite !close_count_cons, sample_switch_with_scancode,
    closes_with_scancode, cell_pass_with_scancode, IH.
Qed.

(** The closed events that a run of passes delivers for one record. *)
Lemma scans_close_count r c reads :
  forall s swtch,
    0 < EVENT_BUFFER_SIZE -> shape s -> idle s -> numbered s ->
    is_Some (m_switchhandler_closed s) ->
    cell_at s r c = Some swtch ->
    exists s' out,
      scans reads s = Some (tt, s', out)
      /\ count_occ Z.eq_dec (closed_scancodes out) (scancode swtch)
         = close_count (m_enable_software_debounce s) (samples_at r c reads)
             swtch.
Proof.
  induction reads as [|dr reads IH];
    intros s swtch HN Hshape Hidle Hnum Hh Hsw.
  - exists s, []. split; reflexivity.
  - destruct (scan_delivers dr s HN Hshape Hidle)
      as (s1 & o1 & Hscan & _ & Hdc & _).
    destruct (scan_calls_ok dr s HN Hshape Hidle)
      as (s1' & o1' & Hscan' & Hshape1 & Hidle1 & Hcfg & Hmap & _).
    rewrite Hscan in Hscan'. injection Hscan' as <- <-.
    pose proof (numbered_pass s s1 _ _ Hnum Hmap) as Hnum1.
    destruct Hcfg as (_ & _ & Hc3 & _ & _ & Hc6).
    assert (Hsw1 : cell_at s1 r c
                   = Some (cell_pass (m_enable_software_debounce s)
                             (dr r c) swtch)).
    { now rewrite (cell_at_pass_map _ _ _ _ r c Hmap), Hsw. }
    destruct (IH s1 _ HN Hshape1 Hidle1 Hnum1 ltac:(now rewrite Hc3) Hsw1)
      as (s2 & o2 & Hrun & Hcount).
    exists s2, (o1 ++ o2).
    split; [unfold scans; simpl; eapply bind_Some; eauto|].
    rewrite cell_pass_scancode, Hc6 in Hcount.
    rewrite closed_scancodes_app, List.count_occ_app, Hcount.
    unfold closed_scancodes. rewrite (Hdc Hh).
    rewrite (pass_events_count closes _ dr s r c swtch Hshape Hnum Hsw).
    unfold samples_at. rewrite fmap_cons, close_count_cons. reflexivity.
Qed.

Lemma press_check_all debounce st b :
  is_byte b -> st <> CLOSED -> press_check debounce st b = true.
Proof.
  intros Hb Hst. revert b Hb. apply byte_check.
  destruct debounce, st; try (exfalso; apply Hst; reflexivity);
    vm_compute; reflexivity.
Qed.

(** Ten pressed samples close a record that is not CLOSED exactly once. *)
Lemma close_count_press debounce swtch :
  is_byte (sample_buffer swtch) -> state swtch <> CLOSED ->
  let swtch' := cell_samples debounce (replicate 10 LOW) swtch in
  close_count debounce (replicate 10 LOW) swtch = 1
  /\ state swtch' = CLOSED
  /\ sample_window (sample_buffer swtch') <> 0%Z
  /\ is_byte (sample_buffer swtch').
Proof.
  intros Hb Hst swtch'.
  pose proof (press_check_all debounce (state swtch) _ Hb Hst) as Hall.
  unfold press_check in Hall. cbv zeta in Hall.
  change (mkSwitchDef 0 (state swtch) (sample_buffer swtch))
    with (with_scancode 0 swtch) in Hall.
  rewrite close_count_with_scancode, cell_samples_with_scancode,
    state_with_scancode, sample_buffer_with_scancode in Hall.
  fold swtch' in Hall.
  apply andb_true_iff in Hall as [Hall H5].
  apply andb_true_iff in Hall as [Hall H4].
  apply andb_true_iff in Hall as [Hall H3].
  apply andb_true_iff in Hall as [H1 H2].
  apply Nat.eqb_eq in H1. apply SwitchState_eqb_eq in H2.
  apply negb_true_iff, Z.eqb_neq in H3.
  apply Z.leb_le in H4. apply Z.ltb_lt in H5.
  split; [exact H1|]. split; [exact H2|]. split; [exact H3|].
  split; [exact H4|exact H5].
Qed.

(** A CLOSED record whose switch stays pressed does not close again. *)
Lemma close_count_held debounce n :
  forall swtch,
    is_byte (sample_buffer swtch) -> state swtch = CLOSED ->
    sample_window (sample_buffer swtch) <> 0%Z ->
    close_count debounce (replicate n LOW) swtch = 0.
Proof.
  induction n as [|n IH]; intros swtch Hb Hst Hw; [reflexivity|].
  destruct (hold_step debounce LOW swtch Hb Hst Hw)
    as (Hquiet & Hst1 & Hw1 & Hb1).
  apply orb_false_iff in Hquiet as [Hc _].
  simpl replicate. rewrite close_count_cons, Hc.
  now rewrite (IH _ Hb1 Hst1 Hw1).
Qed.

(** X18. A press is reported exactly once: with a closed-handler
    registered, if the record of a switch is not CLOSED and the switch
    reads pressed in ten or more consecutive passes, then during these
    passes the closed-handler is handed the scancode of that switch
    exactly once, with or without software debounce: the press is neither
    missed nor reported again while the switch is held. *)
Theorem X18_press_reported_once reads s r c swtch :
  0 < EVENT_BUFFER_SIZE -> shape s -> idle s -> numbered s ->
  is_Some (m_switchhandler_closed s) ->
  cell_at s r c = Some swtch ->
  is_byte (sample_buffer swtch) -> state swtch <> CLOSED ->
  10 <= length reads ->
  samples_at r c reads = replicate (length reads) LOW ->
  exists s' out,
    scans reads s = Some (tt, s', out)
    /\ count_occ Z.eq_dec (closed_scancodes out) (scancode swtch) = 1.
Proof.
  intros HN Hshape Hidle Hnum Hh Hsw Hb Hst Hlen Hreads.
  destruct (scans_close_count r c reads s swtch HN Hshape Hidle Hnum Hh Hsw)
    as (s' & out & Hrun & Hcount).
  exists s', out. split; [exact Hrun|].
  rewrite Hcount, Hreads.
  replace (length reads) with (10 + (length reads - 10)) by lia.
  rewrite replicate_add, close_count_app.
  destruct (close_count_press (m_enable_software_debounce s) swtch Hb Hst)
    as (H1 & Hst' & Hw' & Hb').
  rewrite H1, (close_count_held _ _ _ Hb' Hst' Hw'). reflexivity.
Qed.

(** ** The first pass after construction *)

(** A record as constructed, or one that has been latched since. *)
Lemma first_pass_latches debounce value swtch :
  fresh_or_latched swtch ->
  state (cell_pass debounce value swtch) <> UNKNOWN.
Proof.
  intros [Hst|Hb]; [now apply cell_pass_known|].
  destruct swtch as [sc st b]. simpl in Hb. subst b.
  destruct (SwitchState_eqb st UNKNOWN) eqn:Hst.
  - apply SwitchState_eqb_eq in Hst. subst st.
    destruct debounce, value; vm_compute; discriminate.
  - apply cell_pass_known. simpl. intros ->. discriminate.
Qed.

Lemma omap_nil_Forall {A B} (f : A -> option B) (l : list A) :
  omap f l = [] <-> Forall (fun x => f x = None) l.
Proof.
  induction l as [|x l IH]; simpl; [split; [constructor|reflexivity]|].
  destruct (f x) eqn:Hx.
  - split; [discriminate|]. intros H. inversion H; subst. congruence.
  - rewrite IH. split; [now constructor|]. intros H. now inversion H.
Qed.

(** Once no record is UNKNOWN, nothing that is called invokes the
    open-handler. *)
Lemma execs_open_handler_silent ops s :
  0 < EVENT_BUFFER_SIZE -> shape s -> idle s ->
  (forall r c swtch, cell_at s r c = Some swtch -> state swtch <> UNKNOWN) ->
  exists s' out, execs ops s = Some (tt, s', out) /\ opened_calls out = [].
Proof.
  intros HN Hshape Hidle Hlatched.
  destruct (execs_invariant
              (fun s => forall r c swtch,
                          cell_at s r c = Some swtch -> state swtch <> UNKNOWN)
              (fun e => opened_call e = None))
    with (ops := ops) (s := s) as (s' & out & Hrun & _ & _ & _ & Hout); auto.
  - clear s Hshape Hidle Hlatched.
    intros op s Hshape Hidle Hlatched.
    destruct (exec_ok op s HN Hshape Hidle)
      as (s1 & o1 & Hop & Hshape1 & Hidle1 & _ & Hknown).
    exists s1, o1. split; [exact Hop|]. split; [exact Hshape1|].
    split; [exact Hidle1|]. split.
    + intros r c swtch1 Hsw1.
      destruct (cell_at_bounds s1 r c swtch1 Hshape1 Hsw1) as [Hr Hc].
      destruct (cell_at_Some s r c Hshape Hr Hc) as [swtch Hsw].
      destruct (Hknown r c swtch Hsw) as (swtch1' & Hsw1' & Hst).
      rewrite Hsw1 in Hsw1'. injection Hsw1' as <-.
      apply Hst. now apply (Hlatched r c).
    + apply omap_nil_Forall.
      destruct op as [hc ho|digitalRead|scancode]; simpl in Hop.
      * rewrite setup_spec in Hop by exact Hshape. injection Hop as _ <-.
        fold (opened_calls
                (((fun pin => EvPinMode pin INPUT) <$> m_row_pins s)
                 ++ ((fun pin => EvPinMode pin (m_column_input_type s))
                       <$> m_col_pins s))).
        rewrite opened_calls_app.
        now rewrite !(proj2 (pin_modes_silent _ _)).
      * destruct (open_handler_silent_once_latched digitalRead s HN Hshape
                    Hidle Hlatched) as (s1' & o1' & Hscan & Hsilent).
        rewrite Hop in Hscan. injection Hscan as <- <-. exact Hsilent.
      * destruct (isSwitchClosed_total s scancode Hshape) as [b Hq].
        unfold bind in Hop. rewrite Hq in Hop. injection Hop as _ <-.
        reflexivity.
  - exists s', out. split; [exact Hrun|]. now apply omap_nil_Forall.
Qed.

(** X19. The open-handler can only be invoked up to the first pass: in
    every execution on a freshly constructed scanner, when the first
    scan() pass returns no record is UNKNOWN any more, with or without
    software debounce and whatever the switches read, and from then on no
    call of the public interface invokes the open-handler, whichever
    handlers are registered and whatever the switches do. *)
Theorem X19_open_handler_silent_after_first_pass
    (row_pins column_pins : list Z) (enable_pullups debounce : bool)
    ops1 digitalRead ops2 :
  0 < EVENT_BUFFER_SIZE ->
  length row_pins = ROW_COUNT -> length column_pins = COL_COUNT ->
  exists s1 o1 s2 o2,
    execs (ops1 ++ [OpScan digitalRead])
      (construct row_pins column_pins enable_pullups debounce)
      = Some (tt, s1, o1)
    /\ (forall r c swtch,
          cell_at s1 r c = Some swtch -> state swtch <> UNKNOWN)
    /\ execs ops2 s1 = Some (tt, s2, o2)
    /\ opened_calls o2 = [].
Proof.
  intros HN Hrp Hcp.
  destruct (construct_shape row_pins column_pins enable_pullups debounce
              Hrp Hcp) as [Hshape Hidle].
  destruct (execs_invariant
              (fun s => forall r c swtch,
                          cell_at s r c = Some swtch -> fresh_or_latched swtch)
              (fun _ => True))
    with (ops := ops1)
         (s := construct row_pins column_pins enable_pullups debounce)
    as (s0 & o0 & Hrun0 & Hshape0 & Hidle0 & Hfresh & _); auto.
  - intros op s Hshape1 Hidle1 Hfresh.
    destruct (exec_ok op s HN Hshape1 Hidle1)
      as (s1 & o1 & Hop & Hshape2 & Hidle2 & _ & _).
    exists s1, o1. split; [exact Hop|]. split; [exact Hshape2|].
    split; [exact Hidle2|]. split; [|apply Forall_forall; auto].
    destruct op as [hc ho|dr|scancode]; simpl in Hop.
    + rewrite setup_spec in Hop by exact Hshape1.
      injection Hop as <- _. exact Hfresh.
    + destruct (scan_calls_ok dr s HN Hshape1 Hidle1)
        as (s1' & o1' & Hscan & _ & _ & _ & Hmap & _).
      rewrite Hop in Hscan. injection Hscan as <- <-.
      intros r c swtch' Hsw'.
      rewrite (cell_at_pass_map _ _ _ _ r c Hmap) in Hsw'.
      apply fmap_Some in Hsw' as (swtch & Hsw & ->).
      left. apply first_pass_latches. now apply (Hfresh r c).
    + destruct (isSwitchClosed_total s scancode Hshape1) as [b Hq].
      unfold bind in Hop. rewrite Hq in Hop. injection Hop as <- _.
      exact Hfresh.
  - intros r c swtch. rewrite construct_cell_at.
    destruct (decide _); [|discriminate]. intros [= <-]. now right.
  - destruct (scan_calls_ok digitalRead s0 HN Hshape0 Hidle0)
      as (s1 & o1 & Hscan & Hshape1 & Hidle1 & _ & Hmap & _).
    assert (Hlatched : forall r c swtch,
              cell_at s1 r c = Some swtch -> state swtch <> UNKNOWN).
    { intros r c swtch' Hsw'.
      rewrite (cell_at_pass_map _ _ _ _ r c Hmap) in Hsw'.
      apply fmap_Some in Hsw' as (swtch & Hsw & ->).
      apply first_pass_latches. now apply (Hfresh r c). }
    destruct (execs_open_handler_silent ops2 s1 HN Hshape1 Hidle1 Hlatched)
      as (s2 & o2 & Hrun2 & Hsilent).
    exists s1, (o0 ++ o1 ++ []), s2, o2.
    split; [|auto].
    rewrite execs_app. eapply bind_Some; [exact Hrun0|].
    simpl. eapply bind_Some; [exact Hscan|reflexivity].
Qed.

Lemma concat_imap_all {A} (h : A -> list Z) (l : list A) :
  forall g : nat -> A -> list Z,
    (forall i a, l !! i = Some a -> g i a = h a) ->
    concat (imap g l) = concat (h <$> l).
Proof.
  induction l as [|a l IH]; intros g Hg; [reflexivity|].
  rewrite imap_cons, fmap_cons. simpl. rewrite (Hg 0 a eq_refl). f_equal.
  apply IH. intros i b Hi. exact (Hg (S i) b Hi).
Qed.

(** When every sampled record satisfies the guard, a pass queues every
    scancode of the map, in scan order. *)
Lemma pass_events_all q debounce digitalRead s :
  (forall r c swtch, cell_at s r c = Some swtch ->
     q (sample_switch debounce (digitalRead r c) swtch) = true) ->
  pass_events q debounce digitalRead (m_switch_map s)
  = scancode <$> concat (m_switch_map s).
Proof.
  intros Hq. unfold pass_events.
  rewrite (concat_imap_all (fmap scancode)).
  - induction (m_switch_map s) as [|row map IH]; [reflexivity|].
    rewrite fmap_cons. simpl. now rewrite fmap_app, IH.
  - intros r row Hrow. unfold row_events.
    rewrite (concat_imap_all (fun swtch => [scancode swtch])).
    + clear Hrow. induction row as [|swtch row IH]; [reflexivity|].
      rewrite !fmap_cons. simpl. now rewrite IH.
    + intros c swtch Hsw. rewrite Hq; [reflexivity|].
      unfold cell_at. rewrite Hrow. exact Hsw.
Qed.

(** X20. With software debounce enabled, the first pass after construction
    reports every switch as opened, whatever it reads: the samples of that
    pass fall into the settle period and are ignored, every record goes
    from UNKNOWN to OPEN with sample buffer 0, a registered open-handler is
    handed the scancodes 1, ..., ROW_COUNT*COL_COUNT in order, and the
    closed-handler is handed nothing, even for a switch that is held
    down. *)
Theorem X20_first_debounced_pass_reports_all_open
    (row_pins column_pins : list Z) (enable_pullups : bool) hc f digitalRead :
  0 < EVENT_BUFFER_SIZE ->
  (Z.of_nat (ROW_COUNT * COL_COUNT) < ScanCodeMax - 1)%Z ->
  length row_pins = ROW_COUNT -> length column_pins = COL_COUNT ->
  exists s' out,
    (setup hc (Some f) >> scan digitalRead)
      (construct row_pins column_pins enable_pullups true)
      = Some (tt, s', out)
    /\ opened_scancodes out = seqZ 1 (Z.of_nat (ROW_COUNT * COL_COUNT))
    /\ closed_scancodes out = []
    /\ forall r c swtch,
         cell_at s' r c = Some swtch ->
         state swtch = OPEN /\ sample_buffer swtch = 0%Z.
Proof.
  intros HN Hmax Hrp Hcp.
  set (s0 := construct row_pins column_pins enable_pullups true).
  destruct (construct_shape row_pins column_pins enable_pullups true
              Hrp Hcp) as [Hshape Hidle]. fold s0 in Hshape, Hidle.
  destruct (construct_config row_pins column_pins enable_pullups true
              Hrp Hcp) as (_ & _ & _ & Hdb & _). fold s0 in Hdb.
  pose proof (setup_spec hc (Some f) s0 Hshape) as Hsetup.
  set (s1 := with_handlers s0 hc (Some f)) in *.
  assert (Hshape1 : shape s1) by exact Hshape.
  assert (Hidle1 : idle s1) by exact Hidle.
  assert (Hfresh : forall r c swtch,
            cell_at s1 r c = Some swtch ->
            state swtch = UNKNOWN /\ sample_buffer swtch = 0%Z).
  { intros r c swtch.
    change (cell_at s1 r c) with (cell_at s0 r c).
    unfold s0. rewrite construct_cell_at.
    destruct (decide _); [|discriminate]. now intros [= <-]. }
  assert (Hopens : forall value swtch,
            state swtch = UNKNOWN -> sample_buffer swtch = 0%Z ->
            opens_queued (sample_switch true value swtch) = true
            /\ closes (sample_switch true value swtch) = false
            /\ state (cell_pass true value swtch) = OPEN
            /\ sample_buffer (cell_pass true value swtch) = 0%Z).
  { intros value [sc st b]. simpl. intros -> ->.
    destruct value; repeat split. }
  destruct (scan_delivers digitalRead s1 HN Hshape1 Hidle1)
    as (s' & out & Hscan & _ & Hdc & Hdo & Hnc & _).
  destruct (scan_calls_ok digitalRead s1 HN Hshape1 Hidle1)
    as (s'' & out' & Hscan' & _ & _ & _ & Hmap & _).
  rewrite Hscan in Hscan'. injection Hscan' as <- <-.
  change (m_enable_software_debounce s1)
    with (m_enable_software_debounce s0) in Hdc, Hdo, Hmap.
  rewrite Hdb in Hdc, Hdo, Hmap.
  eexists s', _. split; [eapply bind_Some; [exact Hsetup|exact Hscan]|].
  rewrite opened_scancodes_app, closed_scancodes_app.
  assert (Hpc : closed_scancodes
                  (((fun pin => EvPinMode pin INPUT) <$> m_row_pins s0)
                   ++ ((fun pin => EvPinMode pin (m_column_input_type s0))
                         <$> m_col_pins s0)) = []).
  { unfold closed_scancodes. rewrite closed_calls_app.
    now rewrite !(proj1 (pin_modes_silent _ _)). }
  assert (Hpo : opened_scancodes
                  (((fun pin => EvPinMode pin INPUT) <$> m_row_pins s0)
                   ++ ((fun pin => EvPinMode pin (m_column_input_type s0))
                         <$> m_col_pins s0)) = []).
  { unfold opened_scancodes. rewrite opened_calls_app.
    now rewrite !(proj2 (pin_modes_silent _ _)). }
  rewrite Hpc, Hpo. simpl. split; [|split].
  - unfold opened_scancodes. rewrite Hdo by (now exists f).
    rewrite pass_events_all.
    + change (m_switch_map s1) with (m_switch_map s0).
      now apply construct_scancodes.
    + intros r c swtch Hsw. destruct (Hfresh r c swtch Hsw) as [Hst Hb].
      now apply Hopens.
  - unfold closed_scancodes.
    destruct (m_switchhandler_closed s1) as [g|] eqn:Hh.
    + rewrite Hdc by (now exists g). apply pass_events_nil.
      intros r c swtch Hsw. destruct (Hfresh r c swtch Hsw) as [Hst Hb].
      now apply Hopens.
    + now rewrite Hnc.
  - intros r c swtch' Hsw'.
    rewrite (cell_at_pass_map _ _ _ _ r c Hmap) in Hsw'.
    apply fmap_Some in Hsw' as (swtch & Hsw & ->).
    destruct (Hfresh r c swtch Hsw) as [Hst Hb].
    split; now apply Hopens.
Qed.

(** ** The example sketch on top of the scanner *)

Lemma keymap_at_valid (scancodes : list Z) scancodes_len i :
  ROW_COUNT * COL_COUNT <= length keymap ->
  valid_call (scancodes, scancodes_len) ->
  i < scancodes_len ->
  is_Some (keymap_at scancodes i).
Proof.
  intros Hkeys (Hlen & Hcount & Hrange) Hi. simpl in Hlen, Hcount.
  destruct (lookup_lt_is_Some_2 scancodes i) as [sc Hsc]; [lia|].
  assert (Hin : In sc (payload (scancodes, scancodes_len))).
  { apply list_elem_of_In, list_elem_of_lookup. exists i.
    unfold payload. simpl. now rewrite lookup_take_lt. }
  apply Hrange in Hin. unfold keymap_at. rewrite Hsc. simpl.
  destruct (0 <=? sc - 1)%Z eqn:Hpos; [|apply Z.leb_gt in Hpos; lia].
  apply lookup_lt_is_Some_2. lia.
Qed.

Lemma handlers_total kbdMode (scancodes : list Z) scancodes_len :
  ROW_COUNT * COL_COUNT <= length keymap ->
  valid_call (scancodes, scancodes_len) ->
  is_Some (onKeyDown kbdMode scancodes scancodes_len)
  /\ is_Some (onKeyUp kbdMode scancodes scancodes_len).
Proof.
  intros Hkeys Hvalid.
  split; apply mapM_is_Some, Forall_forall; intros i Hi;
    apply elem_of_seq in Hi;
    destruct (keymap_at_valid scancodes scancodes_len i Hkeys Hvalid)
      as [which Hwhich]; try lia;
    simpl; rewrite Hwhich; simpl; eauto.
Qed.

(** Every handler invocation of a trace that the scanner makes for the
    sketch runs to completion. *)
Lemma run_handlers_total kbdMode out :
  ROW_COUNT * COL_COUNT <= length keymap ->
  Forall valid_event out ->
  Forall (called_handler (Some onKeyDown_ptr) (Some onKeyUp_ptr)) out ->
  is_Some (run_handlers kbdMode out).
Proof.
  intros Hkeys Hvalid Hcalled. unfold run_handlers.
  match goal with |- is_Some (mbind _ (mapM ?h out)) =>
    assert (Hall : is_Some (mapM h out)) end.
  2: { destruct Hall as [calls Hcalls]. rewrite Hcalls. simpl. eauto. }
  apply mapM_is_Some, Forall_forall. intros e He.
  rewrite Forall_forall in Hvalid, Hcalled.
  specialize (Hvalid e He). specialize (Hcalled e He).
  destruct e as [pin mode|pin level|pin|f buf n|f buf n]; simpl; eauto.
  - simpl in Hcalled. injection Hcalled as <-.
    unfold call_handler. rewrite decide_True by reflexivity.
    apply handlers_total; [exact Hkeys|]. apply Hvalid. now left.
  - simpl in Hcalled. injection Hcalled as <-.
    unfold call_handler. rewrite decide_False by discriminate.
    rewrite decide_True by reflexivity.
    apply handlers_total; [exact Hkeys|]. apply Hvalid. now right.
Qed.

Lemma sketch_loops_total inputs :
  forall s kbdMode,
    0 < EVENT_BUFFER_SIZE ->
    ROW_COUNT * COL_COUNT <= length keymap ->
    shape s -> idle s -> numbered s ->
    m_switchhandler_closed s = Some onKeyDown_ptr ->
    m_switchhandler_open s = Some onKeyUp_ptr ->
    is_Some (sketch_loops inputs (s, kbdMode)).
Proof.
  induction inputs as [|[digitalRead a3] inputs IH];
    intros s kbdMode HN Hkeys Hshape Hidle Hnum Hhc Hho; [simpl; eauto|].
  destruct (scan_valid_events digitalRead s HN Hshape Hidle Hnum)
    as (s1 & o1 & Hscan & Hshape1 & Hidle1 & Hnum1 & Hvalid).
  destruct (scan_called digitalRead s HN Hshape Hidle)
    as (s1' & o1' & Hscan' & _ & _ & Hcfg & Hcalled).
  rewrite Hscan in Hscan'. injection Hscan' as <- <-.
  rewrite Hhc, Hho in Hcalled.
  destruct (run_handlers_total kbdMode o1 Hkeys Hvalid Hcalled)
    as [calls Hcalls].
  destruct Hcfg as (_ & _ & Hc3 & Hc4 & _).
  destruct (checkMode a3 kbdMode) as [kbdMode1 calls1] eqn:Hmode.
  destruct (IH s1 kbdMode1 HN Hkeys Hshape1 Hidle1 Hnum1
              ltac:(now rewrite Hc3) ltac:(now rewrite Hc4))
    as [[[s2 kbdMode2] calls2] Hrest].
  exists (s2, kbdMode2, (calls ++ calls1) ++ calls2).
  cbn [sketch_loops]. unfold sketch_loop. cbn [fst snd].
  rewrite Hscan. cbn [mbind option_bind]. rewrite Hcalls.
  cbn [mbind option_bind]. rewrite Hmode. cbn [mbind option_bind].
  rewrite Hrest. reflexivity.
Qed.

(** X21. The example sketch never reads outside [keymap]: for a scanner of
    at most as many switches as [keymap] has entries (14; the sketch has
    2 x 7), constructed and set up as the sketch does, every iteration of
    loop() runs to completion, whatever the switches and the mode switch
    read: each invocation of onKeyDown and onKeyUp from within scan()
    finds scancodes[i] - 1 inside [keymap] for every i below
    scancodes_len. *)
Theorem X21_sketch_keymap_in_range (row_pins column_pins : list Z) inputs :
  0 < EVENT_BUFFER_SIZE ->
  ROW_COUNT * COL_COUNT <= length keymap ->
  length row_pins = ROW_COUNT -> length column_pins = COL_COUNT ->
  exists s1 o1 result,
    sketch_setup (construct row_pins column_pins true true)
      = Some (tt, s1, o1)
    /\ sketch_loops inputs (s1, false) = Some result.
Proof.
  intros HN Hkeys Hrp Hcp.
  assert (Hmax : (Z.of_nat (ROW_COUNT * COL_COUNT) < ScanCodeMax - 1)%Z).
  { unfold ScanCodeMax. simpl in Hkeys. lia. }
  destruct (construct_shape row_pins column_pins true true Hrp Hcp)
    as [Hshape Hidle].
  pose proof (construct_numbered row_pins column_pins true true Hmax) as Hnum.
  set (s0 := construct row_pins column_pins true true) in *.
  pose proof (setup_spec (Some onKeyDown_ptr) (Some onKeyUp_ptr) s0 Hshape)
    as Hsetup.
  destruct (sketch_loops_total inputs
              (with_handlers s0 (Some onKeyDown_ptr) (Some onKeyUp_ptr))
              false HN Hkeys Hshape Hidle Hnum eq_refl eq_refl)
    as [result Hresult].
  eexists _, _, result. split; [exact Hsetup|exact Hresult].
Qed.

(** ** A debounced transition needs five equal samples *)

Lemma sampled_take target recent i :
  i < 5 -> sampled target (take 5 recent) i = sampled target recent i.
Proof. intros Hi. unfold sampled. now rewrite lookup_take_lt. Qed.

Lemma sampled_cons_take target value recent i :
  i < 5 ->
  sampled target (value :: take 5 recent) i
  = sampled target (value :: recent) i.
Proof.
  intros Hi. unfold sampled. destruct i as [|i]; [reflexivity|].
  simpl. rewrite lookup_take_lt by lia. reflexivity.
Qed.

Lemma sampled_all target recent :
  forallb (sampled target recent) (seq 0 5) = true ->
  forall k, k < 5 -> recent !! k = Some target.
Proof.
  intros Hall k Hk. rewrite forallb_forall in Hall.
  specialize (Hall k). unfold sampled in Hall.
  destruct (recent !! k) as [value|]; [|discriminate Hall; apply in_seq; lia].
  assert (Hv : Level_eqb value target = true) by (apply Hall, in_seq; lia).
  destruct value, target; try discriminate; reflexivity.
Qed.

(** Only the five latest samples matter. *)
Lemma window_tracks_take swtch recent :
  window_tracks swtch (take 5 recent) = window_tracks swtch recent.
Proof.
  unfold window_tracks. cbn [seq forallb].
  now rewrite !sampled_take by lia.
Qed.

Lemma window_tracks_cons_take swtch value recent :
  window_tracks swtch (value :: take 5 recent)
  = window_tracks swtch (value :: recent).
Proof.
  unfold window_tracks. cbn [seq forallb].
  now rewrite !sampled_cons_take by lia.
Qed.

Lemma window_tracks_with_scancode sc swtch recent :
  window_tracks (with_scancode sc swtch) recent = window_tracks swtch recent.
Proof. reflexivity. Qed.

Lemma opens_with_scancode sc swtch :
  opens (with_scancode sc swtch) = opens swtch.
Proof. reflexivity. Qed.

Lemma recent_samples_complete (recent : list Level) :
  length recent <= 5 -> In recent recent_samples.
Proof.
  intros Hlen. pose proof (sample_sequences_complete recent) as Hin.
  unfold recent_samples. rewrite !in_app_iff.
  assert (Hn : length recent = 0 \/ length recent = 1 \/ length recent = 2
               \/ length recent = 3 \/ length recent = 4
               \/ length recent = 5) by lia.
  destruct Hn as [Hn|[Hn|[Hn|[Hn|[Hn|Hn]]]]]; rewrite Hn in Hin; tauto.
Qed.

Lemma transition_check_all st value recent b :
  is_byte b -> length recent <= 5 ->
  transition_check st value recent b = true.
Proof.
  intros Hb Hlen. apply recent_samples_complete in Hlen.
  revert recent Hlen. apply forallb_forall.
  revert b Hb.
  apply (byte_check
           (fun b => forallb (fun recent => transition_check st value recent b)
                       recent_samples)).
  destruct st, value; vm_compute; reflexivity.
Qed.

(** One pass keeps the window in step with the samples, and if it closes
    the record the five latest samples were all pressed; if it opens a
    CLOSED record they were all released. *)
Lemma window_tracks_step value swtch recent :
  window_tracks swtch recent = true ->
  window_tracks (cell_pass true value swtch) (value :: recent) = true
  /\ (closes (sample_switch true value swtch) = true ->
      forall k, k < 5 -> (value :: recent) !! k = Some LOW)
  /\ (state swtch = CLOSED ->
      opens (sample_switch true value swtch) = true ->
      forall k, k < 5 -> (value :: recent) !! k = Some HIGH).
Proof.
  intros Htracks.
  assert (Hb : is_byte (sample_buffer swtch)).
  { unfold window_tracks in Htracks.
    apply andb_true_iff in Htracks as [Htracks _].
    apply andb_true_iff in Htracks as [H1 H2].
    apply Z.leb_le in H1. apply Z.ltb_lt in H2. now split. }
  assert (Hlen : length (take 5 recent) <= 5) by (rewrite length_take; lia).
  pose proof (transition_check_all (state swtch) value (take 5 recent) _ Hb
                Hlen) as Hall.
  unfold transition_check in Hall. cbv zeta in Hall.
  change (mkSwitchDef 0 (state swtch) (sample_buffer swtch))
    with (with_scancode 0 swtch) in Hall.
  rewrite cell_pass_with_scancode, sample_switch_with_scancode,
    !window_tracks_with_scancode, closes_with_scancode, opens_with_scancode,
    window_tracks_take, window_tracks_cons_take, Htracks in Hall.
  cbn [implb] in Hall.
  apply andb_true_iff in Hall as [Hall H3].
  apply andb_true_iff in Hall as [H1 H2].
  split; [exact H1|]. split.
  - intros Hc k Hk. rewrite Hc in H2. cbn [implb] in H2.
    destruct k as [|k]; [exact (sampled_all _ _ H2 0 Hk)|].
    pose proof (sampled_all _ _ H2 (S k) Hk) as Hs. simpl in Hs. simpl.
    now rewrite lookup_take_lt in Hs by lia.
  - intros Hst Ho k Hk. rewrite Ho, Hst in H3. cbn [implb andb] in H3.
    change (SwitchState_eqb CLOSED CLOSED) with true in H3.
    cbn [implb andb] in H3.
    destruct k as [|k]; [exact (sampled_all _ _ H3 0 Hk)|].
    pose proof (sampled_all _ _ H3 (S k) Hk) as Hs. simpl in Hs. simpl.
    now rewrite lookup_take_lt in Hs by lia.
Qed.

Lemma window_tracks_run values :
  forall swtch,
    window_tracks swtch [] = true ->
    window_tracks (cell_samples true values swtch) (reverse values) = true.
Proof.
  induction values as [|value values IH] using rev_ind; intros swtch Htracks;
    [exact Htracks|].
  rewrite cell_samples_app, reverse_snoc.
  change (cell_samples true [value] (cell_samples true values swtch))
    with (cell_pass true value (cell_samples true values swtch)).
  now apply window_tracks_step, IH.
Qed.

(** How the state of a record changes in a pass. *)
Lemma cell_pass_closes debounce value swtch :
  state swtch <> CLOSED -> state (cell_pass debounce value swtch) = CLOSED ->
  closes (sample_switch debounce value swtch) = true.
Proof.
  intros Hst Hst'. unfold cell_pass in Hst'.
  destruct (closes (sample_switch debounce value swtch)) eqn:Hc;
    [reflexivity|].
  destruct (opens (sample_switch debounce value swtch)) eqn:Ho.
  - rewrite opens_latch in Hst' by exact Ho. discriminate.
  - rewrite quiet_latch, sample_switch_state in Hst' by assumption.
    contradiction.
Qed.

Lemma cell_pass_opens debounce value swtch :
  state swtch = CLOSED -> state (cell_pass debounce value swtch) <> CLOSED ->
  opens (sample_switch debounce value swtch) = true.
Proof.
  intros Hst Hst'. unfold cell_pass in Hst'.
  destruct (closes (sample_switch debounce value swtch)) eqn:Hc.
  - rewrite closes_latch in Hst' by exact Hc. now destruct Hst'.
  - destruct (opens (sample_switch debounce value swtch)) eqn:Ho;
      [reflexivity|].
    rewrite quiet_latch, sample_switch_state in Hst' by assumption.
    contradiction.
Qed.

(** A closed event of a pass comes from a record that closes in it. *)
Lemma scan_closed_event digitalRead s r c swtch :
  0 < EVENT_BUFFER_SIZE -> shape s -> idle s -> numbered s ->
  cell_at s r c = Some swtch ->
  exists s' out,
    scan digitalRead s = Some (tt, s', out)
    /\ cell_at s' r c
       = Some (cell_pass (m_enable_software_debounce s) (digitalRead r c)
                 swtch)
    /\ (scancode swtch ∈ closed_scancodes out ->
        closes (sample_switch (m_enable_software_debounce s)
                  (digitalRead r c) swtch) = true).
Proof.
  intros HN Hshape Hidle Hnum Hsw.
  destruct (scan_delivers digitalRead s HN Hshape Hidle)
    as (s' & out & Hscan & _ & Hdc & _ & Hnc & _).
  destruct (scan_calls_ok digitalRead s HN Hshape Hidle)
    as (s'' & out' & Hscan' & _ & _ & _ & Hmap & _).
  rewrite Hscan in Hscan'. injection Hscan' as <- <-.
  exists s', out. split; [exact Hscan|]. split.
  { now rewrite (cell_at_pass_map _ _ _ _ r c Hmap), Hsw. }
  intros Hx. unfold closed_scancodes in Hx.
  destruct (m_switchhandler_closed s) as [f|] eqn:Hh.
  - rewrite Hdc in Hx by (now exists f).
    apply list_elem_of_In, pass_events_inv in Hx
      as (r' & c' & swtch' & Hsw' & Hq & Heq).
    destruct (numbered_inj s r c swtch r' c' swtch' Hshape Hnum Hsw Hsw' Heq)
      as [<- <-].
    rewrite Hsw in Hsw'. now injection Hsw' as <-.
  - rewrite Hnc in Hx by reflexivity. inversion Hx.
Qed.

(** X22. A debounced transition needs five equal samples: with software
    debounce enabled, in any run of passes after construction and setup,
    the closed-handler is handed the scancode of a switch in a pass only
    if that switch read pressed in this pass and in the four passes before
    it; the record of a switch goes to CLOSED only then, and it goes from
    CLOSED to OPEN only if the switch read released in this pass and the
    four passes before it.  (The first pass, in which every record goes
    from UNKNOWN to OPEN, is the one transition that needs no sample.) *)
Theorem X22_transitions_need_five_samples (row_pins column_pins : list Z)
    (enable_pullups : bool) hc ho before digitalRead r c :
  0 < EVENT_BUFFER_SIZE ->
  (Z.of_nat (ROW_COUNT * COL_COUNT) < ScanCodeMax - 1)%Z ->
  length row_pins = ROW_COUNT -> length column_pins = COL_COUNT ->
  r < ROW_COUNT -> c < COL_COUNT ->
  let recent := reverse (samples_at r c (before ++ [digitalRead])) in
  exists s1 o1 s2 o2 swtch1 swtch2,
    (setup hc ho >> scans before)
      (construct row_pins column_pins enable_pullups true)
      = Some (tt, s1, o1)
    /\ scan digitalRead s1 = Some (tt, s2, o2)
    /\ cell_at s1 r c = Some swtch1 /\ cell_at s2 r c = Some swtch2
    /\ (Z.of_nat (r * COL_COUNT + c + 1) ∈ closed_scancodes o2 ->
        forall k, k < 5 -> recent !! k = Some LOW)
    /\ (state swtch1 <> CLOSED -> state swtch2 = CLOSED ->
        forall k, k < 5 -> recent !! k = Some LOW)
    /\ (state swtch1 = CLOSED -> state swtch2 <> CLOSED ->
        forall k, k < 5 -> recent !! k = Some HIGH).
Proof.
  intros HN Hmax Hrp Hcp Hr Hc recent.
  set (s0 := construct row_pins column_pins enable_pullups true).
  destruct (construct_shape row_pins column_pins enable_pullups true
              Hrp Hcp) as [Hshape Hidle]. fold s0 in Hshape, Hidle.
  pose proof (construct_numbered row_pins column_pins enable_pullups true
                Hmax) as Hnum. fold s0 in Hnum.
  destruct (construct_config row_pins column_pins enable_pullups true
              Hrp Hcp) as (_ & _ & _ & Hdb & _). fold s0 in Hdb.
  pose proof (setup_spec hc ho s0 Hshape) as Hsetup.
  set (s0' := with_handlers s0 hc ho) in *.
  assert (Hshape0 : shape s0') by exact Hshape.
  assert (Hidle0 : idle s0') by exact Hidle.
  assert (Hnum0 : numbered s0') by exact Hnum.
  destruct (scans_cells before s0' HN Hshape0 Hidle0)
    as (s1 & o1 & Hrun & Hshape1 & Hidle1 & Hcfg & Hcells).
  destruct (execs_invariant numbered (fun _ => True))
    with (ops := OpScan <$> before) (s := s0')
    as (s1' & o1' & Hrun' & _ & _ & Hnum1 & _); auto.
  { intros op s Hs1 Hs2 Hs3.
    destruct (exec_valid_events op s HN Hs1 Hs2 Hs3)
      as (s' & out & Hop & Hs1' & Hs2' & Hs3' & _).
    exists s', out. repeat (split; [assumption|]).
    apply Forall_forall. auto. }
  unfold scans in Hrun. rewrite Hrun in Hrun'. injection Hrun' as <- <-.
  destruct (cell_at_Some s0' r c Hshape0 Hr Hc) as [swtch0 Hsw0].
  assert (Hfresh : window_tracks swtch0 [] = true).
  { change (cell_at s0' r c) with (cell_at s0 r c) in Hsw0.
    unfold s0 in Hsw0. rewrite construct_cell_at in Hsw0.
    destruct (decide _); [|discriminate]. injection Hsw0 as <-. reflexivity. }
  change (m_enable_software_debounce s0')
    with (m_enable_software_debounce s0) in Hcells.
  rewrite Hdb in Hcells.
  set (swtch1 := cell_samples true (samples_at r c before) swtch0).
  assert (Hsw1 : cell_at s1 r c = Some swtch1).
  { rewrite Hcells, Hsw0. reflexivity. }
  assert (Hdb1 : m_enable_software_debounce s1 = true).
  { destruct Hcfg as (_ & _ & _ & _ & _ & ->). exact Hdb. }
  destruct (scan_closed_event digitalRead s1 r c swtch1 HN Hshape1 Hidle1
              Hnum1 Hsw1) as (s2 & o2 & Hscan & Hsw2 & Hevent).
  rewrite Hdb1 in Hsw2, Hevent.
  destruct (window_tracks_step (digitalRead r c) swtch1
              (reverse (samples_at r c before)))
    as (_ & Hcloses & Hopens).
  { now apply window_tracks_run. }
  assert (Hrecent : recent
                    = digitalRead r c :: reverse (samples_at r c before)).
  { unfold recent, samples_at.
    now rewrite fmap_app, (reverse_snoc _ (digitalRead r c)). }
  rewrite Hrecent.
  eexists s1, _, s2, o2, swtch1, _.
  split; [eapply bind_Some; [exact Hsetup|exact Hrun]|].
  split; [exact Hscan|]. split; [exact Hsw1|]. split; [exact Hsw2|].
  split; [|split].
  - intros Hx. apply Hcloses, Hevent.
    now rewrite (Hnum1 r c swtch1 Hsw1).
  - intros Hst Hst'. now apply Hcloses, cell_pass_closes.
  - intros Hst Hst'. apply Hopens; [exact Hst|]. now apply cell_pass_opens.
Qed.

End Scanner.

(** * Runs of concrete scanners *)

(** C1 (code defect). SwitchMatrixScanner<1, 1> with the default flags and
    both handlers registered: ten passes reading LOW latch the switch CLOSED
    (the closed-handler gets scancode 1); then the switch is released.
    Eight passes reading HIGH leave the record CLOSED with sample window
    0b10000, and the ninth makes the window all-0: the record becomes OPEN
    and [isSwitchClosed 1] is false, as C1 says, but in none of the nine
    passes is the open-handler invoked, where C1 promises exactly one
    open-event with scancode 1. *)
Theorem C1_release_after_close_not_reported :
  let pressed := fun _ _ : nat => LOW in
  let released := fun _ _ : nat => HIGH in
  let s0 := construct 1 1 10 [2%Z] [3%Z] true true in
  exists s1 o1 s2 o2 s3 o3,
    (setup 1 1 (Some 1) (Some 2) >> scans 1 1 10 (replicate 10 pressed)) s0
      = Some (tt, s1, o1)
    /\ cell_at s1 0 0 = Some (mkSwitchDef 1 CLOSED 31)
    /\ closed_calls o1 = [([1; 0; 0; 0; 0; 0; 0; 0; 0; 0]%Z, 1)]
    /\ scans 1 1 10 (replicate 8 released) s1 = Some (tt, s2, o2)
    /\ cell_at s2 0 0 = Some (mkSwitchDef 1 CLOSED 144)
    /\ sample_window
         (sample_buffer (sample_switch true HIGH (mkSwitchDef 1 CLOSED 144)))
       = 0%Z
    /\ scan 1 1 10 released s2 = Some (tt, s3, o3)
    /\ cell_at s3 0 0 = Some (mkSwitchDef 1 OPEN 0)
    /\ isSwitchClosed 1 1 1 s3 = Some (false, s3, [])
    /\ opened_calls (o2 ++ o3) = [].
Proof.
  intros pressed released s0.
  do 6 eexists.
  split; [vm_compute; reflexivity|].
  split; [reflexivity|]. split; [reflexivity|].
  split; [vm_compute; reflexivity|].
  split; [reflexivity|]. split; [reflexivity|].
  split; [vm_compute; reflexivity|].
  split; [reflexivity|]. split; reflexivity.
Qed.

(** C2 (code defect). SwitchMatrixScanner<1, 1> with the default flags and
    both handlers registered, the switch released at power-up: in the first
    pass the record, UNKNOWN with an all-0 sample window, becomes OPEN, and
    its scancode is written to the open-event buffer and handed to the
    open-handler, where C2 says that nothing is appended and the handler is
    not invoked. *)
Theorem C2_initial_release_reported :
  let released := fun _ _ : nat => HIGH in
  let s0 := construct 1 1 10 [2%Z] [3%Z] true true in
  exists s1 o1 s2 o2,
    setup 1 1 (Some 1) (Some 2) s0 = Some (tt, s1, o1)
    /\ cell_at s1 0 0 = Some (mkSwitchDef 1 UNKNOWN 0)
    /\ sample_window
         (sample_buffer (sample_switch true HIGH (mkSwitchDef 1 UNKNOWN 0)))
       = 0%Z
    /\ scan 1 1 10 released s1 = Some (tt, s2, o2)
    /\ cell_at s2 0 0 = Some (mkSwitchDef 1 OPEN 0)
    /\ m_scancode_event_buffer_opened s2 !! 0 = Some 1%Z
    /\ opened_calls o2 = [([1; 0; 0; 0; 0; 0; 0; 0; 0; 0]%Z, 1)].
Proof.
  intros released s0.
  do 4 eexists.
  split; [vm_compute; reflexivity|].
  split; [reflexivity|]. split; [reflexivity|].
  split; [vm_compute; reflexivity|].
  split; [reflexivity|]. split; reflexivity.
Qed.

(** C3 (code defect). SwitchMatrixScanner<1, 3, 2> without debounce, both
    handlers registered, capacity N = 2.  All three switches pressed: the
    pass makes N + 1 transitions to CLOSED and the closed-handler is invoked
    twice, at capacity in the row loop with scancodes 1, 2 and by the flush
    that ends the pass with scancode 3, as C3 says.  Then all three
    released: the next pass makes N + 1 transitions to OPEN, every record
    takes the open branch of [handleSwitchState] and ends OPEN, but the
    open-handler is not invoked at all, where C3 promises two invocations
    that carry scancodes 1, 2, 3 once each: the old state of the records
    is CLOSED, and line 342 queues a scancode only when it is UNKNOWN. *)
Theorem C3_overflow_open_events_not_delivered :
  let pressed := fun _ _ : nat => LOW in
  let released := fun _ _ : nat => HIGH in
  let s0 := construct 1 3 2 [2%Z] [3%Z; 4%Z; 5%Z] true false in
  exists s1 o1 s_mid out_mid s2 s3 o3,
    setup 1 3 (Some 1) (Some 2) s0 = Some (tt, s1, o1)
    /\ scan_rows 1 3 2 pressed s1 = Some (tt, s_mid, out_mid)
    /\ scan 1 3 2 pressed s1 = Some (tt, s2, out_mid ++ end_calls s_mid)
    /\ closed_calls out_mid = [([1; 2]%Z, 2)]
    /\ closed_calls (end_calls s_mid) = [([3; 2]%Z, 1)]
    /\ m_switch_map s2
       = [[mkSwitchDef 1 CLOSED 31; mkSwitchDef 2 CLOSED 31;
           mkSwitchDef 3 CLOSED 31]]
    /\ pass_events opens false released (m_switch_map s2) = [1; 2; 3]%Z
    /\ scan 1 3 2 released s2 = Some (tt, s3, o3)
    /\ m_switch_map s3
       = [[mkSwitchDef 1 OPEN 0; mkSwitchDef 2 OPEN 0; mkSwitchDef 3 OPEN 0]]
    /\ opened_calls o3 = [].
Proof.
  intros pressed released s0.
  do 7 eexists.
  split; [vm_compute; reflexivity|].
  split; [vm_compute; reflexivity|].
  split; [vm_compute; reflexivity|].
  split; [reflexivity|]. split; [reflexivity|]. split; [reflexivity|].
  split; [reflexivity|].
  split; [vm_compute; reflexivity|].
  split; reflexivity.
Qed.

(** With capacity 1, in SwitchMatrixScanner<1, 2, 1> without debounce and
    both switches pressed, the pass queues 1 + 1 closed scancodes and both
    handler invocations are flushes at capacity inside the row loop; the
    flush that ends the pass invokes nothing. *)
Lemma overflow_capacity_one :
  let pressed := fun _ _ : nat => LOW in
  let s0 := construct 1 2 1 [2%Z] [3%Z; 4%Z] true false in
  exists s1 o1 s_mid out_mid,
    setup 1 2 (Some 1) (Some 2) s0 = Some (tt, s1, o1)
    /\ length (pass_events closes false pressed (m_switch_map s1)) = 1 + 1
    /\ scan_rows 1 2 1 pressed s1 = Some (tt, s_mid, out_mid)
    /\ closed_calls out_mid = [([1%Z], 1); ([2%Z], 1)]
    /\ closed_calls (end_calls s_mid) = []
    /\ ~ (exists mid_call end_call,
            closed_calls out_mid = [mid_call]
            /\ closed_calls (end_calls s_mid) = [end_call]).
Proof.
  intros pressed s0.
  do 4 eexists.
  split; [vm_compute; reflexivity|].
  split; [reflexivity|].
  split; [vm_compute; reflexivity|].
  split; [reflexivity|]. split; [reflexivity|].
  intros (mid_call & end_call & _ & Hend). discriminate Hend.
Qed.

Lemma C4_witness :
  let swtch' := sample_switch true LOW (mkSwitchDef 1 OPEN 143) in
  settle_counter (sample_buffer swtch') = DebounceSettleCount
  /\ sample_window (sample_buffer swtch') = 31%Z.
Proof.
  intros swtch'. subst swtch'.
  destruct (C4_debounce_step (mkSwitchDef 1 OPEN 143) LOW)
    as (_ & _ & _ & _ & Hsat); [simpl; lia|].
  destruct Hsat as (Hcount & Hwindow & _); [reflexivity|].
  split; [exact Hcount|]. rewrite Hwindow. reflexivity.
Defined.

(** C5 as stated fails: a switch that closes keeps an all-ones sample
    window; it is not reset to 0. *)
Lemma C5_counterexample_window_kept :
  let pressed := fun _ _ : nat => LOW in
  let s0 := construct 1 1 10 [2%Z] [3%Z] true false in
  exists s1 o1 swtch',
    cell_at s0 0 0 = Some (mkSwitchDef 1 UNKNOWN 0)
    /\ scan 1 1 10 pressed s0 = Some (tt, s1, o1)
    /\ cell_at s1 0 0 = Some swtch'
    /\ state swtch' = CLOSED
    /\ sample_window (sample_buffer swtch') = 31%Z
    /\ sample_window (sample_buffer swtch') <> 0%Z.
Proof.
  intros pressed s0.
  do 3 eexists.
  split; [reflexivity|].
  split; [vm_compute; reflexivity|].
  split; [reflexivity|]. split; [reflexivity|]. split; [reflexivity|].
  discriminate.
Qed.

Lemma C5_witness :
  let pressed := fun _ _ : nat => LOW in
  let s0 := construct 1 1 10 [2%Z] [3%Z] true false in
  exists s' out,
    scan 1 1 10 pressed s0 = Some (tt, s', out)
    /\ cell_at s' 0 0 = Some (mkSwitchDef 1 CLOSED 31).
Proof.
  intros pressed s0.
  destruct (C5_close_transition 1 1 10 pressed s0 0 0 (mkSwitchDef 1 UNKNOWN 0))
    as (_ & _ & _ & _ & s' & out & Hscan & Hcell & _).
  - lia.
  - unfold shape. simpl. repeat split; repeat constructor.
  - split; reflexivity.
  - reflexivity.
  - reflexivity.
  - exists s', out. split; [exact Hscan|exact Hcell].
Defined.

Lemma C6_witness :
  let s := construct 1 2 10 [2%Z] [3%Z; 4%Z] true true in
  isSwitchClosed 1 2 0 s = Some (false, s, [])
  /\ isSwitchClosed 1 2 3 s = Some (false, s, [])
  /\ exists swtch b,
       cell_at s 0 1 = Some swtch
       /\ isSwitchClosed 1 2 2 s = Some (b, s, [])
       /\ (b = true <-> state swtch = CLOSED).
Proof.
  intros s.
  assert (Hshape : shape 1 2 10 s)
    by (unfold shape; simpl; repeat split; repeat constructor).
  split; [|split].
  - apply (C6_isSwitchClosed 1 2 10 s 0 Hshape); [lia|now left].
  - apply (C6_isSwitchClosed 1 2 10 s 3 Hshape); [lia|right; simpl; lia].
  - apply (C6_isSwitchClosed 1 2 10 s 2 Hshape); [lia|simpl; lia].
Defined.

Lemma C7_witness :
  let s := construct 2 3 10 [2%Z; 3%Z] [4%Z; 5%Z; 6%Z] true true in
  cell_at s 1 2 = Some (mkSwitchDef 6 UNKNOWN 0)
  /\ scancode <$> concat (m_switch_map s) = [1; 2; 3; 4; 5; 6]%Z
  /\ isSwitchClosed 2 3 6 s = Some (false, s, []).
Proof.
  intros s.
  destruct (C7_construct 2 3 10 [2%Z; 3%Z] [4%Z; 5%Z; 6%Z] true true)
    as (Hcell & Hcodes & Hquery);
    [lia|lia|unfold ScanCodeMax; simpl; lia|reflexivity|reflexivity|].
  split; [|split].
  - apply Hcell. repeat split; lia.
  - exact Hcodes.
  - apply Hquery.
Defined.

Lemma C8_witness :
  let released := fun _ _ : nat => HIGH in
  let s := mkScanner [[mkSwitchDef 1 CLOSED 159]] [2%Z] [3%Z] (Some 1) (Some 2)
             INPUT_PULLUP true (replicate 10 0%Z) 0 (replicate 10 0%Z) 0 in
  exists s' out swtch',
    execs 1 1 10 [OpScan released; OpSetup None None; OpIsSwitchClosed 1] s
      = Some (tt, s', out)
    /\ cell_at s' 0 0 = Some swtch'
    /\ state swtch' <> UNKNOWN.
Proof.
  intros released s.
  apply (C8_unknown_never_reentered 1 1 10 _ s 0 0 (mkSwitchDef 1 CLOSED 159)).
  - lia.
  - unfold shape. simpl. repeat split; repeat constructor.
  - split; reflexivity.
  - reflexivity.
  - discriminate.
Defined.

Lemma C9_witness :
  let released := fun _ _ : nat => HIGH in
  exists s' out,
    execs 1 1 10 [OpSetup (Some 1) (Some 2); OpScan released]
      (construct 1 1 10 [2%Z] [3%Z] true true) = Some (tt, s', out)
    /\ forall e n, e ∈ out -> call_count e = Some n -> 1 <= n <= 10.
Proof.
  intros released.
  apply (C9_handler_count_in_range 1 1 10 [2%Z] [3%Z] true true);
    [lia|reflexivity|reflexivity].
Defined.

Lemma C10_witness :
  let pressed := fun _ _ : nat => LOW in
  let released := fun _ _ : nat => HIGH in
  let s0 := mkScanner [[mkSwitchDef 1 OPEN 143]] [2%Z] [3%Z] (Some 1) (Some 2)
              INPUT_PULLUP true (replicate 10 0%Z) 0 (replicate 10 0%Z) 0 in
  exists s1 o1 sw1 s2 o2 sw2,
    scan 1 1 10 pressed s0 = Some (tt, s1, o1)
    /\ cell_at s1 0 0 = Some sw1
    /\ scans 1 1 10 [released; released; released] s1 = Some (tt, s2, o2)
    /\ cell_at s2 0 0 = Some sw2
    /\ state sw2 = state sw1
    /\ transitions (sample_switch true HIGH sw2) = false.
Proof.
  intros pressed released s0.
  destruct (C10_no_transition_while_settling 1 1 10 pressed s0 0 0
              (mkSwitchDef 1 OPEN 143) [released; released; released] released)
    as (s1 & o1 & sw1 & s2 & o2 & sw2 & Hscan & Hsw1 & _ & _ & _ & Hruns
        & Hsw2 & Hstate & _ & Hquiet & _).
  - lia.
  - unfold shape. simpl. repeat split; repeat constructor.
  - split; reflexivity.
  - reflexivity.
  - reflexivity.
  - reflexivity.
  - simpl. lia.
  - exists s1, o1, sw1, s2, o2, sw2. auto 10.
Defined.

(** ** Instances of the further properties *)

Lemma X1_witness :
  let digitalRead := fun _ c : nat => if decide (c = 0) then LOW else HIGH in
  let s := construct 1 2 10 [2%Z] [3%Z; 4%Z] true false in
  exists s' out,
    scan 1 2 10 digitalRead s = Some (tt, s', out)
    /\ shape 1 2 10 s' /\ idle s' /\ same_config s s'
    /\ (forall r c,
          cell_at s' r c
          = cell_pass (m_enable_software_debounce s) (digitalRead r c)
              <$> cell_at s r c)
    /\ (forall r c swtch swtch',
          cell_at s r c = Some swtch -> cell_at s' r c = Some swtch' ->
          scancode swtch' = scancode swtch).
Proof.
  intros digitalRead s.
  apply (X1_scan_pass_effect 1 2 10 digitalRead s).
  - lia.
  - unfold shape. simpl. repeat split; repeat constructor.
  - split; reflexivity.
Defined.

Lemma X2_witness :
  let digitalRead := fun _ c : nat => if decide (c = 0) then LOW else HIGH in
  let s := construct 2 3 10 [3%Z; 4%Z] [0%Z; 1%Z; 2%Z] true false in
  exists s' out,
    scan 2 3 10 digitalRead s = Some (tt, s', out)
    /\ isSwitchClosed 2 3 4 s' = Some (true, s', []).
Proof.
  intros digitalRead s.
  apply (X2_no_debounce_tracks_sample 2 3 10 digitalRead s 1 0).
  - lia.
  - unfold shape. simpl. repeat split; repeat constructor.
  - split; reflexivity.
  - reflexivity.
  - lia.
  - lia.
  - unfold ScanCodeMax. simpl. lia.
Defined.

Lemma X3_witness :
  let digitalRead := fun _ c : nat => if decide (c = 0) then LOW else HIGH in
  let s := mkScanner [[mkSwitchDef 1 OPEN 159; mkSwitchDef 2 UNKNOWN 0]]
             [2%Z] [3%Z; 4%Z] (Some 1) (Some 2) INPUT_PULLUP true
             (replicate 10 0%Z) 0 (replicate 10 0%Z) 0 in
  exists s' out,
    scan 1 2 10 digitalRead s = Some (tt, s', out)
    /\ idle s'
    /\ (is_Some (m_switchhandler_closed s) ->
        concat (payload <$> closed_calls out)
        = pass_events closes true digitalRead (m_switch_map s))
    /\ (is_Some (m_switchhandler_open s) ->
        concat (payload <$> opened_calls out)
        = pass_events opens_queued true digitalRead (m_switch_map s))
    /\ (m_switchhandler_closed s = None -> closed_calls out = [])
    /\ (m_switchhandler_open s = None -> opened_calls out = [])
    /\ batched_calls 10 (closed_calls out)
    /\ batched_calls 10 (opened_calls out).
Proof.
  intros digitalRead s.
  apply (X3_pass_delivers_what_it_queues 1 2 10 digitalRead s).
  - lia.
  - unfold shape. simpl. repeat split; repeat constructor.
  - split; reflexivity.
Defined.

Lemma X4_witness :
  let digitalRead := fun _ c : nat => if decide (c = 0) then LOW else HIGH in
  let s := mkScanner [[mkSwitchDef 1 OPEN 159; mkSwitchDef 2 UNKNOWN 0]]
             [2%Z] [3%Z; 4%Z] (Some 1) (Some 2) INPUT_PULLUP true
             (replicate 10 0%Z) 0 (replicate 10 0%Z) 0 in
  exists s' out,
    scan 1 2 10 digitalRead s = Some (tt, s', out)
    /\ (forall x, In x (concat (payload <$> closed_calls out)) ->
          isSwitchClosed 1 2 x s' = Some (true, s', []))
    /\ (forall x, In x (concat (payload <$> opened_calls out)) ->
          isSwitchClosed 1 2 x s' = Some (false, s', [])).
Proof.
  intros digitalRead s.
  apply (X4_events_agree_with_query 1 2 10 digitalRead s).
  - lia.
  - unfold shape. simpl. repeat split; repeat constructor.
  - split; reflexivity.
  - intros r c swtch.
    destruct r as [|r]; [|discriminate].
    destruct c as [|[|c]]; [| |discriminate]; now intros [= <-].
  - unfold ScanCodeMax. simpl. lia.
Defined.

Lemma X5_witness :
  let digitalRead := fun _ c : nat => if decide (c = 0) then LOW else HIGH in
  let s := construct 2 3 10 [3%Z; 4%Z] [0%Z; 1%Z; 2%Z] true true in
  exists s' out,
    scan 2 3 10 digitalRead s = Some (tt, s', out)
    /\ gpio_calls out = strobe_sequence (m_row_pins s) (m_col_pins s)
    /\ length (gpio_calls out) = 2 * (3 + 3).
Proof.
  intros digitalRead s.
  apply (X5_strobe_sequence 2 3 10 digitalRead s).
  - lia.
  - unfold shape. simpl. repeat split; repeat constructor.
  - split; reflexivity.
Defined.

Lemma X6_witness :
  let digitalRead := fun _ c : nat => if decide (c = 0) then LOW else HIGH in
  let s := mkScanner [[mkSwitchDef 1 OPEN 159; mkSwitchDef 2 UNKNOWN 0]]
             [2%Z] [3%Z; 4%Z] (Some 1) (Some 2) INPUT_PULLUP true
             (replicate 10 0%Z) 0 (replicate 10 0%Z) 0 in
  exists s1 o1 s2 o2,
    scan 1 2 10 digitalRead s = Some (tt, s1, o1)
    /\ scan 1 2 10 digitalRead (with_handlers s None None) = Some (tt, s2, o2)
    /\ m_switch_map s2 = m_switch_map s1
    /\ gpio_calls o2 = gpio_calls o1
    /\ idle s2
    /\ ((None : SwitchHandler) = None -> closed_calls o2 = [])
    /\ ((None : SwitchHandler) = None -> opened_calls o2 = []).
Proof.
  intros digitalRead s.
  apply (X6_handlers_only_listen 1 2 10 digitalRead s None None).
  - lia.
  - unfold shape. simpl. repeat split; repeat constructor.
  - split; reflexivity.
Defined.

Lemma X7_witness :
  let pressed := fun _ _ : nat => LOW in
  exists s' out,
    execs 2 3 10 [OpSetup (Some 1) None; OpScan pressed; OpIsSwitchClosed 4]
      (construct 2 3 10 [3%Z; 4%Z] [0%Z; 1%Z; 2%Z] true false)
      = Some (tt, s', out)
    /\ forall r c,
         (r < 2 /\ c < 3 ->
          exists swtch, cell_at s' r c = Some swtch
                        /\ scancode swtch = Z.of_nat (r * 3 + c + 1))
         /\ (~ (r < 2 /\ c < 3) -> cell_at s' r c = None).
Proof.
  intros pressed.
  apply (X7_scancodes_never_reassigned 2 3 10 [3%Z; 4%Z] [0%Z; 1%Z; 2%Z]
           true false).
  - lia.
  - unfold ScanCodeMax. simpl. lia.
  - reflexivity.
  - reflexivity.
Defined.



Lemma X10_witness :
  let pressed := fun _ _ : nat => LOW in
  let s := mkScanner [[mkSwitchDef 1 CLOSED 159; mkSwitchDef 2 UNKNOWN 77]]
             [2%Z] [3%Z; 4%Z] (Some 1) (Some 2) INPUT_PULLUP true
             (replicate 10 0%Z) 0 (replicate 10 0%Z) 0 in
  exists s' out swtch',
    scans 1 2 10 (replicate 7 pressed) s = Some (tt, s', out)
    /\ cell_at s' 0 0 = Some swtch'
    /\ state swtch' = CLOSED
    /\ transitions (sample_switch (m_enable_software_debounce s') LOW swtch')
       = false.
Proof.
  intros pressed s.
  apply (X10_held_switch_is_stable 1 2 10 (replicate 7 pressed) LOW s 0 0
           (mkSwitchDef 1 CLOSED 159)).
  - lia.
  - unfold shape. simpl. repeat split; repeat constructor.
  - split; reflexivity.
  - reflexivity.
  - unfold is_byte. simpl. lia.
  - reflexivity.
  - vm_compute. discriminate.
  - reflexivity.
Defined.

Lemma X11_witness :
  let pressed := fun _ _ : nat => LOW in
  let s := mkScanner [[mkSwitchDef 1 OPEN 143; mkSwitchDef 2 UNKNOWN 0]]
             [2%Z] [3%Z; 4%Z] (Some 1) (Some 2) INPUT_PULLUP true
             (replicate 10 0%Z) 0 (replicate 10 0%Z) 0 in
  exists s' out,
    scan 1 2 10 pressed s = Some (tt, s', out)
    /\ forall r c swtch',
         cell_at s' r c = Some swtch' ->
         (sample_window (sample_buffer swtch') = DebounceSampleMask ->
          state swtch' = CLOSED)
         /\ (sample_window (sample_buffer swtch') = 0%Z ->
             state swtch' = OPEN).
Proof.
  intros pressed s.
  apply (X11_uniform_window_is_latched 1 2 10 pressed s).
  - lia.
  - unfold shape. simpl. repeat split; repeat constructor.
  - split; reflexivity.
Defined.

Lemma X12_witness :
  let released := fun _ _ : nat => HIGH in
  let pressed := fun _ _ : nat => LOW in
  let s := mkScanner [[mkSwitchDef 1 CLOSED 159; mkSwitchDef 2 UNKNOWN 0]]
             [2%Z] [3%Z; 4%Z] (Some 1) (Some 2) INPUT_PULLUP true
             (replicate 10 0%Z) 0 (replicate 10 0%Z) 0 in
  exists s' out swtch',
    scans 1 2 10 [released; released; pressed; released] s
      = Some (tt, s', out)
    /\ cell_at s' 0 0 = Some swtch'
    /\ state swtch' = CLOSED.
Proof.
  intros released pressed s.
  apply (X12_glitch_rejection 1 2 10 [released; released; pressed; released]
           s 0 0 (mkSwitchDef 1 CLOSED 159)).
  - lia.
  - unfold shape. simpl. repeat split; repeat constructor.
  - split; reflexivity.
  - reflexivity.
  - reflexivity.
  - unfold is_byte. simpl. lia.
  - left. split; reflexivity.
  - simpl. lia.
Defined.

Lemma X13_witness :
  let pressed := fun _ _ : nat => LOW in
  exists s' out,
    execs 1 2 10 (OpSetup (Some 1) (Some 2) :: replicate 12 (OpScan pressed))
      (construct 1 2 10 [2%Z] [3%Z; 4%Z] true true) = Some (tt, s', out)
    /\ forall r c swtch,
         cell_at s' r c = Some swtch ->
         (0 <= sample_buffer swtch < 256)%Z
         /\ (settle_counter (sample_buffer swtch) <= DebounceSettleCount)%Z.
Proof.
  intros pressed.
  apply (X13_settle_counter_saturates 1 2 10 [2%Z] [3%Z; 4%Z] true).
  - lia.
  - reflexivity.
  - reflexivity.
Defined.

Lemma X14_witness :
  let pressed := fun _ _ : nat => LOW in
  let config := pin_setup [3%Z; 4%Z] [0%Z; 1%Z; 2%Z] INPUT in
  exists s out,
    execs 2 3 10 [OpSetup (Some 1) None; OpScan pressed]
      (construct 2 3 10 [3%Z; 4%Z] [0%Z; 1%Z; 2%Z] false true)
      = Some (tt, s, out)
    /\ setup 2 3 None (Some 2) s = Some (tt, with_handlers s None (Some 2), config)
    /\ length config = 2 + 3.
Proof.
  intros pressed.
  apply (X14_setup_at_any_time 2 3 10 [3%Z; 4%Z] [0%Z; 1%Z; 2%Z] false true).
  - lia.
  - reflexivity.
  - reflexivity.
Defined.

Lemma X15_witness :
  let pressed := fun _ _ : nat => LOW in
  let s := mkScanner [[mkSwitchDef 1 OPEN 159; mkSwitchDef 2 UNKNOWN 0]]
             [2%Z] [3%Z; 4%Z] (Some 1) (Some 2) INPUT_PULLUP true
             (replicate 10 0%Z) 0 (replicate 10 0%Z) 0 in
  exists s' out,
    (setup 1 2 (Some 7) None >> scans 1 2 10 [pressed; pressed]) s
      = Some (tt, s', out)
    /\ Forall (called_handler (Some 7) None) out
    /\ m_switchhandler_closed s' = Some 7
    /\ m_switchhandler_open s' = None.
Proof.
  intros pressed s.
  apply (X15_only_registered_handlers_are_called 1 2 10 (Some 7) None
           [pressed; pressed] s).
  - lia.
  - unfold shape. simpl. repeat split; repeat constructor.
  - split; reflexivity.
Defined.

Lemma X16_witness :
  let released := fun _ _ : nat => HIGH in
  exists s' out,
    execs 2 3 4 [OpSetup (Some 1) (Some 2); OpScan released;
                 OpSetup None (Some 3); OpScan released]
      (construct 2 3 4 [3%Z; 4%Z] [0%Z; 1%Z; 2%Z] true false)
      = Some (tt, s', out)
    /\ NoDup (opened_scancodes out).
Proof.
  intros released.
  apply (X16_open_event_at_most_once 2 3 4 [3%Z; 4%Z] [0%Z; 1%Z; 2%Z]
           true false).
  - lia.
  - unfold ScanCodeMax. simpl. lia.
  - reflexivity.
  - reflexivity.
Defined.

Lemma X17_witness :
  let pressed := fun _ _ : nat => LOW in
  let released := fun _ _ : nat => HIGH in
  exists s' out,
    execs 2 3 4 [OpSetup (Some 1) (Some 2); OpScan pressed; OpScan released]
      (construct 2 3 4 [3%Z; 4%Z] [0%Z; 1%Z; 2%Z] true false)
      = Some (tt, s', out)
    /\ forall out1 out2 x,
         out = out1 ++ out2 ->
         x ∈ closed_scancodes out1 -> x ∉ opened_scancodes out2.
Proof.
  intros pressed released.
  apply (X17_no_open_event_after_closed_event 2 3 4 [3%Z; 4%Z]
           [0%Z; 1%Z; 2%Z] true false).
  - lia.
  - unfold ScanCodeMax. simpl. lia.
  - reflexivity.
  - reflexivity.
Defined.

Lemma X18_witness :
  let pressed := fun _ _ : nat => LOW in
  let s := mkScanner [[mkSwitchDef 1 OPEN 128; mkSwitchDef 2 UNKNOWN 0]]
             [2%Z] [3%Z; 4%Z] (Some 1) (Some 2) INPUT_PULLUP true
             (replicate 10 0%Z) 0 (replicate 10 0%Z) 0 in
  exists s' out,
    scans 1 2 10 (replicate 12 pressed) s = Some (tt, s', out)
    /\ count_occ Z.eq_dec (closed_scancodes out) 1%Z = 1.
Proof.
  intros pressed s.
  apply (X18_press_reported_once 1 2 10 (replicate 12 pressed) s 0 0
           (mkSwitchDef 1 OPEN 128)).
  - lia.
  - unfold shape. simpl. repeat split; repeat constructor.
  - split; reflexivity.
  - intros r c swtch.
    destruct r as [|r]; [|discriminate].
    destruct c as [|[|c]]; [| |discriminate]; now intros [= <-].
  - now exists 1.
  - reflexivity.
  - unfold is_byte. simpl. lia.
  - discriminate.
  - simpl. lia.
  - reflexivity.
Defined.

Lemma X19_witness :
  let pressed := fun _ _ : nat => LOW in
  let released := fun _ _ : nat => HIGH in
  exists s1 o1 s2 o2,
    execs 2 3 10 ([OpSetup (Some 1) (Some 2)] ++ [OpScan pressed])
      (construct 2 3 10 [3%Z; 4%Z] [0%Z; 1%Z; 2%Z] true true)
      = Some (tt, s1, o1)
    /\ (forall r c swtch,
          cell_at s1 r c = Some swtch -> state swtch <> UNKNOWN)
    /\ execs 2 3 10 (replicate 12 (OpScan released)) s1 = Some (tt, s2, o2)
    /\ opened_calls o2 = [].
Proof.
  intros pressed released.
  apply (X19_open_handler_silent_after_first_pass 2 3 10 [3%Z; 4%Z]
           [0%Z; 1%Z; 2%Z] true true).
  - lia.
  - reflexivity.
  - reflexivity.
Defined.

Lemma X20_witness :
  let pressed := fun _ _ : nat => LOW in
  exists s' out,
    (setup 2 3 (Some 1) (Some 2) >> scan 2 3 10 pressed)
      (construct 2 3 10 [3%Z; 4%Z] [0%Z; 1%Z; 2%Z] true true)
      = Some (tt, s', out)
    /\ opened_scancodes out = [1; 2; 3; 4; 5; 6]%Z
    /\ closed_scancodes out = []
    /\ forall r c swtch,
         cell_at s' r c = Some swtch ->
         state swtch = OPEN /\ sample_buffer swtch = 0%Z.
Proof.
  intros pressed.
  apply (X20_first_debounced_pass_reports_all_open 2 3 10 [3%Z; 4%Z]
           [0%Z; 1%Z; 2%Z] true (Some 1) 2 pressed).
  - lia.
  - unfold ScanCodeMax. simpl. lia.
  - reflexivity.
  - reflexivity.
Defined.

Lemma X21_witness :
  let pressed := fun _ _ : nat => LOW in
  let released := fun _ _ : nat => HIGH in
  exists s1 o1 result,
    sketch_setup 2 7 (construct 2 7 10 [14%Z; 15%Z]
                        [16%Z; 4%Z; 5%Z; 6%Z; 7%Z; 8%Z; 9%Z] true true)
      = Some (tt, s1, o1)
    /\ sketch_loops 2 7 10 [(released, HIGH); (pressed, HIGH); (pressed, LOW)]
         (s1, false) = Some result.
Proof.
  intros pressed released.
  apply (X21_sketch_keymap_in_range 2 7 10 [14%Z; 15%Z]
           [16%Z; 4%Z; 5%Z; 6%Z; 7%Z; 8%Z; 9%Z]).
  - lia.
  - simpl. lia.
  - reflexivity.
  - reflexivity.
Defined.

Lemma X22_witness :
  let pressed := fun _ _ : nat => LOW in
  let released := fun _ _ : nat => HIGH in
  let s0 := construct 2 3 10 [3%Z; 4%Z] [0%Z; 1%Z; 2%Z] true true in
  (exists s1 o1 s2 o2 swtch1 swtch2,
     (setup 2 3 (Some 1) (Some 2) >> scans 2 3 10 (replicate 9 pressed)) s0
       = Some (tt, s1, o1)
     /\ scan 2 3 10 pressed s1 = Some (tt, s2, o2)
     /\ cell_at s1 1 2 = Some swtch1 /\ cell_at s2 1 2 = Some swtch2
     /\ 6%Z ∈ closed_scancodes o2
     /\ state swtch1 = OPEN /\ state swtch2 = CLOSED
     /\ forall k, k < 5 ->
          reverse (samples_at 1 2 (replicate 9 pressed ++ [pressed])) !! k
          = Some LOW)
  /\ (exists s1 o1 s2 o2 swtch1 swtch2,
        (setup 2 3 (Some 1) (Some 2)
         >> scans 2 3 10 (replicate 10 pressed ++ replicate 8 released)) s0
          = Some (tt, s1, o1)
        /\ scan 2 3 10 released s1 = Some (tt, s2, o2)
        /\ cell_at s1 1 2 = Some swtch1 /\ cell_at s2 1 2 = Some swtch2
        /\ state swtch1 = CLOSED /\ state swtch2 = OPEN
        /\ forall k, k < 5 ->
             reverse (samples_at 1 2
                        ((replicate 10 pressed ++ replicate 8 released)
                         ++ [released])) !! k
             = Some HIGH).
Proof.
  intros pressed released s0. split.
  - destruct (X22_transitions_need_five_samples 2 3 10 [3%Z; 4%Z]
                [0%Z; 1%Z; 2%Z] true (Some 1) (Some 2) (replicate 9 pressed)
                pressed 1 2)
      as (s1 & o1 & s2 & o2 & swtch1 & swtch2 & Hrun & Hscan & Hsw1 & Hsw2
          & Hevent & _);
      [lia|unfold ScanCodeMax; simpl; lia|reflexivity|reflexivity|lia|lia|].
    fold pressed s0 in Hrun.
    vm_compute in Hrun. injection Hrun as <- <-.
    vm_compute in Hscan. injection Hscan as <- <-.
    vm_compute in Hsw1. injection Hsw1 as <-.
    vm_compute in Hsw2. injection Hsw2 as <-.
    do 6 eexists.
    split; [vm_compute; reflexivity|].
    split; [vm_compute; reflexivity|].
    split; [reflexivity|]. split; [reflexivity|].
    assert (Hin : 6%Z ∈ closed_scancodes
              [EvPinMode 3 OUTPUT; EvDigitalWrite 3 LOW; EvDigitalRead 0;
               EvDigitalRead 1; EvDigitalRead 2; EvPinMode 3 INPUT;
               EvPinMode 4 OUTPUT; EvDigitalWrite 4 LOW; EvDigitalRead 0;
               EvDigitalRead 1; EvDigitalRead 2; EvPinMode 4 INPUT;
               EvSwitchClosed 1 [1; 2; 3; 4; 5; 6; 0; 0; 0; 0]%Z 6]).
    { apply list_elem_of_In. vm_compute. tauto. }
    split; [exact Hin|]. split; [reflexivity|]. split; [reflexivity|].
    exact (Hevent Hin).
  - destruct (X22_transitions_need_five_samples 2 3 10 [3%Z; 4%Z]
                [0%Z; 1%Z; 2%Z] true (Some 1) (Some 2)
                (replicate 10 pressed ++ replicate 8 released) released 1 2)
      as (s1 & o1 & s2 & o2 & swtch1 & swtch2 & Hrun & Hscan & Hsw1 & Hsw2
          & _ & _ & Hopen);
      [lia|unfold ScanCodeMax; simpl; lia|reflexivity|reflexivity|lia|lia|].
    vm_compute in Hrun. injection Hrun as <- <-.
    vm_compute in Hscan. injection Hscan as <- <-.
    vm_compute in Hsw1. injection Hsw1 as <-.
    vm_compute in Hsw2. injection Hsw2 as <-.
    do 6 eexists.
    split; [vm_compute; reflexivity|].
    split; [vm_compute; reflexivity|].
    split; [reflexivity|]. split; [reflexivity|].
    split; [reflexivity|]. split; [reflexivity|].
    apply Hopen; [reflexivity|discriminate].
Defined.

Lemma X23_witness :
  let pressed := fun _ _ : nat => LOW in
  let s0 := with_handlers (construct 1 3 2 [2%Z] [3%Z; 4%Z; 5%Z] true false)
              (Some 1) (Some 2) in
  let s0' := with_handlers (construct 1 3 2 [2%Z] [3%Z; 4%Z; 5%Z] true true)
               (Some 1) (Some 2) in
  (exists s_mid out_mid s',
     scan_rows 1 3 2 pressed s0 = Some (tt, s_mid, out_mid)
     /\ scan 1 3 2 pressed s0 = Some (tt, s', out_mid ++ end_calls s_mid)
     /\ two_invocations 2 (closed_calls out_mid)
          (closed_calls (end_calls s_mid)) [1; 2; 3]%Z)
  /\ (exists s_mid out_mid s',
        scan_rows 1 3 2 pressed s0' = Some (tt, s_mid, out_mid)
        /\ scan 1 3 2 pressed s0' = Some (tt, s', out_mid ++ end_calls s_mid)
        /\ two_invocations 2 (opened_calls out_mid)
             (opened_calls (end_calls s_mid)) [1; 2; 3]%Z).
Proof.
  intros pressed s0 s0'. split.
  - destruct (X23_overflow_two_invocations 1 3 2 pressed s0)
      as (s_mid & out_mid & s' & Hrows & Hscan & _ & _ & _ & Hclosed & _).
    + lia.
    + unfold shape. simpl. repeat split; repeat constructor.
    + split; reflexivity.
    + exists s_mid, out_mid, s'. split; [exact Hrows|]. split; [exact Hscan|].
      apply Hclosed; [exists 1; reflexivity|reflexivity].
  - destruct (X23_overflow_two_invocations 1 3 2 pressed s0')
      as (s_mid & out_mid & s' & Hrows & Hscan & _ & _ & _ & _ & Hopened).
    + lia.
    + unfold shape. simpl. repeat split; repeat constructor.
    + split; reflexivity.
    + exists s_mid, out_mid, s'. split; [exact Hrows|]. split; [exact Hscan|].
      apply Hopened; [exists 2; reflexivity|reflexivity].
Defined.
